(** * TissueMAPS: metadata reconciliation, job partitioning, stitching, tiles

    A shallow embedding of the parts of [tmlib] that the processing-pipeline
    specification talks about:

    - [tmlib/mosaic.py]             ([Mosaic], [Collage]),
    - [tmlib/models/file.py]        ([PyramidTileFile]),
    - [tmlib/metaconfig/api.py]     ([MetadataConfigurator]).

    The sources are Python 2 ([xrange], builtin [reduce], [print] statements):
    [/] on two [int]s is floor division and [long] is a type of its own. *)

From Stdlib Require Import ZArith Lia Ascii String.
From Stdlib Require QArith Qround.
From stdpp Require Import gmap strings list pretty.

Local Open Scope Z_scope.

(** ** Python values, exceptions and results *)

Module Py.

(** What a [ValueError] says: ['"dx" has to be a positive integer value'] (or
    ["dy"]) from the stitching code, numpy's refusal to take the maximum of an
    empty array, and pandas' complaint about column names for a table that
    has no columns. *)
Inductive value_error :=
| Not_a_positive_integer (argument : string)
| Zero_size_array
| Length_mismatch.

#[global] Instance value_error_eq_dec : EqDecision value_error.
Proof. solve_decision. Defined.

(** The exceptions that the embedded code raises or lets escape. *)
Inductive exn :=
| ValueError (message : value_error)
| TypeError | AttributeError | IndexError | KeyError
| UnboundLocalError | MetadataError | NotSupportedError | IntegrityError
| IOError | ImportError | VipsError.

#[global] Instance exn_eq_dec : EqDecision exn.
Proof. solve_decision. Defined.

Inductive result (A : Type) :=
| Ok (a : A)
| Raise (e : exn).
Arguments Ok {A} a.
Arguments Raise {A} e.

Definition is_ok {A} (r : result A) : bool :=
  match r with Ok _ => true | Raise _ => false end.

Definition rbind {A B} (r : result A) (k : A → result B) : result B :=
  match r with Ok a => k a | Raise e => Raise e end.

(** Dynamically typed argument values.  [PyBool] is a subclass of [int]
    ([True == 1], [False == 0]); [PyLong] is not an instance of [int]. *)
Inductive value :=
| PyNone
| PyBool (b : bool)
| PyInt (z : Z)
| PyLong (z : Z)
| PyFloat (q : QArith_base.Q)
| PyStr (s : string).

#[global] Instance Q_eq_dec : EqDecision QArith_base.Q.
Proof. solve_decision. Defined.

#[global] Instance value_eq_dec : EqDecision value.
Proof. solve_decision. Defined.

(** [isinstance(v, int)] *)
Definition isinstance_int (v : value) : bool :=
  match v with PyInt _ | PyBool _ => true | _ => false end.

(** The integer an [int] instance stands for. *)
Definition int_value (v : value) : option Z :=
  match v with
  | PyInt z => Some z
  | PyBool b => Some (if b then 1 else 0)
  | _ => None
  end.

(** [l[i]] for a Python list: negative indices count from the end. *)
Definition getitem {A} (l : list A) (i : Z) : result A :=
  let n := Z.of_nat (length l) in
  let j := if decide (i < 0) then n + i else i in
  if decide (0 ≤ j < n)
  then match l !! Z.to_nat j with Some a => Ok a | None => Raise IndexError end
  else Raise IndexError.

End Py.
Export Py.

(** ** [os.path.join] (posixpath) *)

Module posixpath.

Definition startswith_slash (s : string) : bool :=
  match s with
  | String c _ => bool_decide (c = "/"%char)
  | EmptyString => false
  end.

Fixpoint endswith_slash (s : string) : bool :=
  match s with
  | EmptyString => false
  | String c EmptyString => bool_decide (c = "/"%char)
  | String _ s' => endswith_slash s'
  end.

(** One round of the loop of [posixpath.join]. *)
Definition join2 (path b : string) : string :=
  if startswith_slash b then b
  else if bool_decide (path = "") || endswith_slash path then path +:+ b
  else path +:+ "/" +:+ b.

Definition join (a : string) (p : list string) : string := foldl join2 a p.

Fixpoint contains_slash (s : string) : bool :=
  match s with
  | EmptyString => false
  | String c s' => bool_decide (c = "/"%char) || contains_slash s'
  end.

(** [posixpath.basename]: what follows the last separator. *)
Fixpoint basename (s : string) : string :=
  match s with
  | EmptyString => EmptyString
  | String c s' =>
      if contains_slash s' then basename s'
      else if bool_decide (c = "/"%char) then s' else String c s'
  end.

End posixpath.

(** ** The libvips planes the stitching code works on

    Only the geometry and the band format of a plane matter to the
    properties below; the pixel payload is not represented. *)

Module Vips.

Inductive BandFormat := UCHAR | USHORT | FLOAT | DOUBLE.

#[global] Instance BandFormat_eq_dec : EqDecision BandFormat.
Proof. solve_decision. Defined.

Record Image := { height : Z; width : Z; format : BandFormat }.

#[global] Instance Image_eq_dec : EqDecision Image.
Proof. solve_decision. Defined.

Inductive Direction := horizontal | vertical.

(** Modelled from the spec: [Vips.Image.join] belongs to the libvips
    binding, which is not among the sources.  The stitch dimension law
    gives its geometry: the second plane starts [shim] pixels after the end
    of the first along the direction of the join, and the result keeps the
    extent the two planes share across it. *)
Definition join (a b : Image) (d : Direction) (shim : Z) : Image :=
  match d with
  | horizontal =>
      {| height := Z.min (height a) (height b);
         width := width a + shim + width b;
         format := format a |}
  | vertical =>
      {| height := height a + shim + height b;
         width := Z.min (width a) (width b);
         format := format a |}
  end.

(** Modelled from the spec: [Vips.Image.merge] (libvips).  [sec] is laid at
    offset [(-dx, -dy)] of [ref]; the result is the bounding box of both. *)
Definition merge (ref sec : Image) (d : Direction) (dx dy : Z) : Image :=
  {| height := Z.max (height ref) (height sec - dy) - Z.min 0 (- dy);
     width := Z.max (width ref) (width sec - dx) - Z.min 0 (- dx);
     format := format ref |}.

(** Modelled from the spec: [Vips.Image.insert] (libvips) without
    [expand]: the result has the geometry of the main image. *)
Definition insert (main sub : Image) (x y : Z) : Image := main.

End Vips.

(** ** Channel images *)

Record ChannelImageMetadata := {
  name : string;
  cycle_name : string;
  channel_name : string;
  well_position_y : nat;
  well_position_x : nat;
}.

Record ChannelImage := {
  metadata : ChannelImageMetadata;
  pixels : Vips.Image;
}.

(** [img.pixels.dtype] and [img.pixels.dimensions] *)
Definition dtype (im : ChannelImage) : Vips.BandFormat := Vips.format (pixels im).
Definition dimensions (im : ChannelImage) : Z * Z :=
  (Vips.height (pixels im), Vips.width (pixels im)).

(** Illumination statistics are opaque to the stitching code. *)
Record IllumstatsImages := { illumstats_channel : string }.

(** ** Stitching computations: results together with the pixel operations
    carried out on the way. *)

Module Stitch.

Inductive pixel_op :=
| OpCorrect (n : string)
| OpAlign (n : string)
| OpSpacer (h w : Z)
| OpInsert (left top : Z)
| OpJoin (d : Vips.Direction) (shim : Z)
| OpMerge (d : Vips.Direction) (dx dy : Z).

(** A computation returns the operations it performed and either a value
    or the exception that stopped it. *)
Definition comp (A : Type) : Type := list pixel_op * result A.

Definition ret {A} (a : A) : comp A := ([], Ok a).
Definition raise {A} (e : exn) : comp A := ([], Raise e).
Definition tell (o : pixel_op) : comp unit := ([o], Ok tt).
Definition lift {A} (r : result A) : comp A := ([], r).

Definition bind {A B} (m : comp A) (k : A → comp B) : comp B :=
  match m with
  | (t, Ok a) => let '(t', r) := k a in (t ++ t', r)
  | (t, Raise e) => (t, Raise e)
  end.

Definition ops {A} (m : comp A) : list pixel_op := m.1.
Definition outcome {A} (m : comp A) : result A := m.2.

Fixpoint foldM {A S} (f : S → A → comp S) (l : list A) (s : S) : comp S :=
  match l with
  | [] => ret s
  | x :: l' => bind (f s x) (foldM f l')
  end.

End Stitch.
Import Stitch.

Notation "'let*' x ':=' m 'in' k" := (Stitch.bind m (λ x, k))
  (at level 10, x name, m at level 100, k at level 200).
Notation "'let*' ' p ':=' m 'in' k" :=
  (Stitch.bind m (λ x, match x with p => k end))
  (at level 10, p strict pattern, m at level 100, k at level 200).
Notation "m ;;; k" := (Stitch.bind m (λ _, k))
  (at level 100, k at level 200, right associativity).

(** Modelled from the spec: [image_utils.create_spacer_image] is not among
    the sources.  A spacer is a black block of [h] by [w] pixels of the
    requested type.  There is no block without pixels: for a height or a
    width that is not positive the call ends in the error of the image
    library, written [VipsError]. *)
Definition create_spacer_image (h w : Z) (dt : Vips.BandFormat) : comp Vips.Image :=
  if decide (0 < h ∧ 0 < w) then
    tell (OpSpacer h w) ;;;
    ret {| Vips.height := h; Vips.width := w; Vips.format := dt |}
  else raise VipsError.

(** [ChannelImage.correct] and [ChannelImage.align(crop=False)] live in
    [tmlib.image]; both return an image of the same geometry. *)
Definition correct (im : ChannelImage) (stats : IllumstatsImages) : comp ChannelImage :=
  tell (OpCorrect (name (metadata im))) ;;; ret im.
Definition align (im : ChannelImage) : comp ChannelImage :=
  tell (OpAlign (name (metadata im))) ;;; ret im.

Definition vips_join (a b : Vips.Image) (d : Vips.Direction) (shim : Z) : comp Vips.Image :=
  tell (OpJoin d shim) ;;; ret (Vips.join a b d shim).

(** An object grid as made by [np.empty((h, w), dtype=object)]: every cell
    starts out as [None]. *)
Abbreviation grid := (list (list (option ChannelImage))).

Definition np_empty (h w : nat) : grid := replicate h (replicate w None).

Definition shape (g : grid) : nat * nat :=
  (length g, match g with r :: _ => length r | [] => 0%nat end).

(** [grid[i, j]] *)
Definition grid_get (g : grid) (i j : nat) : result (option ChannelImage) :=
  match g !! i with
  | Some row => match row !! j with Some c => Ok c | None => Raise IndexError end
  | None => Raise IndexError
  end.

(** [grid[i, j] = im] *)
Definition grid_set (g : grid) (i j : nat) (im : ChannelImage) : result grid :=
  match g !! i with
  | Some row =>
      if decide (j < length row)%nat
      then Ok (<[i := <[j := Some im]> row]> g)
      else Raise IndexError
  | None => Raise IndexError
  end.

(** The argument check that opens both [Mosaic.create] and
    [Collage.create_from_images]. *)
Definition check_displacement (argument : string) (d : value) : result Z :=
  let error := ValueError (Not_a_positive_integer argument) in
  if negb (isinstance_int d) then Raise error
  else match int_value d with
       | Some z => if decide (z < 0) then Raise error else Ok z
       | None => Raise error
       end.

Definition check_displacements (dx dy : value) : result (Z * Z) :=
  rbind (check_displacement "dx" dx) (λ x,
  rbind (check_displacement "dy" dy) (λ y, Ok (x, y))).

(** Folding a fallible step over a list: the body of a [for] loop that may
    raise. *)
Fixpoint rfold {A S} (f : S → A → result S) (l : list A) (s : S) : result S :=
  match l with
  | [] => Ok s
  | x :: l' => rbind (f s x) (rfold f l')
  end.

(** [reduce(f, l)] without an initial value, with a join or merge as the
    combining function: a [TypeError] on an empty list. *)
Definition reduceM {A} (f : A → A → comp A) (l : list A) : comp A :=
  match l with
  | [] => raise TypeError
  | x :: l' => foldM f l' x
  end.

(** ** [class Mosaic] *)

Module Mosaic.

Definition coordinates (images : list ChannelImage) : list (nat * nat) :=
  (λ im, (well_position_y (metadata im), well_position_x (metadata im)))
    <$> images.

(** [np.max(coordinates, axis=0)]; numpy refuses to reduce an empty array. *)
Definition np_max_axis0 (cs : list (nat * nat)) : result (nat * nat) :=
  match cs with
  | [] => Raise (ValueError Zero_size_array)
  | c :: cs' =>
      Ok (foldl (λ m c', (m.1 `max` c'.1, m.2 `max` c'.2)%nat) c cs')
  end.

(** The loop [for i, c in enumerate(coordinates): grid[c[0], c[1]] = images[i]]. *)
Definition place (images : list ChannelImage) (g : grid)
    (ic : nat * (nat * nat)) : result grid :=
  match images !! ic.1 with
  | Some im => grid_set g ic.2.1 ic.2.2 im
  | None => Raise IndexError
  end.

Definition _build_image_grid (images : list ChannelImage) : result grid :=
  let coordinates := coordinates images in
  rbind (np_max_axis0 coordinates) (λ '(height, width),
  let grid := np_empty (height + 1) (width + 1) in
  rfold (place images) (zip (seq 0 (length coordinates)) coordinates) grid).

(** The body of the inner loop up to [img = img.pixels.array]. *)
Definition cell_pixels (stats : option IllumstatsImages) (al : bool)
    (cell : option ChannelImage) : comp Vips.Image :=
  match cell with
  | None => raise AttributeError
  | Some img =>
      let* img := match stats with
                  | Some s => correct img s
                  | None => ret img
                  end in
      let* img := (if al then align img else ret img) in
      ret (pixels img)
  end.

(** Loop state of the column loop: [previous_img] (unbound at first) and
    [col_pairs]. *)
Definition col_state : Type := option Vips.Image * list Vips.Image.

Definition col_step (g : grid) (x_overlap : Z)
    (stats : option IllumstatsImages) (al : bool) (r : nat)
    (st : col_state) (c : nat) : comp col_state :=
  let '(previous_img, col_pairs) := st in
  let* cell := lift (grid_get g r c) in
  let* img := cell_pixels stats al cell in
  if decide (Z.of_nat c `mod` 2 = 0) then
    if decide (Z.of_nat c = Z.of_nat (shape g).2 - 1)
    then ret (Some img, col_pairs ++ [img])
    else ret (Some img, col_pairs)
  else
    match previous_img with
    | None => raise UnboundLocalError
    | Some p =>
        let* joined_img := vips_join p img Vips.horizontal x_overlap in
        ret (Some p, col_pairs ++ [joined_img])
    end.

(** Loop state of the row loop: [previous_img], [previous_row], [row_pairs]. *)
Definition row_state : Type :=
  option Vips.Image * option Vips.Image * list Vips.Image.

Definition row_step (g : grid) (x_overlap y_overlap : Z)
    (stats : option IllumstatsImages) (al : bool)
    (st : row_state) (r : nat) : comp row_state :=
  let '(previous_img, previous_row, row_pairs) := st in
  let* '(previous_img, col_pairs) :=
    foldM (col_step g x_overlap stats al r) (seq 0 (shape g).2)
          (previous_img, []) in
  let* row :=
    reduceM (λ x y, vips_join x y Vips.horizontal x_overlap) col_pairs in
  if decide (Z.of_nat r `mod` 2 = 0) then
    if decide (Z.of_nat r = Z.of_nat (shape g).1 - 1)
    then ret (previous_img, Some row, row_pairs ++ [row])
    else ret (previous_img, Some row, row_pairs)
  else
    match previous_row with
    | None => raise UnboundLocalError
    | Some p =>
        let* joined_row := vips_join p row Vips.vertical y_overlap in
        ret (previous_img, Some p, row_pairs ++ [joined_row])
    end.

Definition create (images : list ChannelImage) (dx dy : value)
    (stats : option IllumstatsImages) (al : bool) : comp Vips.Image :=
  let* '(dx, dy) := lift (check_displacements dx dy) in
  let* grid := lift (_build_image_grid images) in
  let y_overlap := - dy in
  let x_overlap := - dx in
  let* '(_, _, row_pairs) :=
    foldM (row_step grid x_overlap y_overlap stats al)
          (seq 0 (shape grid).1) (None, None, []) in
  reduceM (λ x y, vips_join x y Vips.vertical y_overlap) row_pairs.

End Mosaic.

(** ** [class Collage] *)

Module Collage.

(** [np.ceil] of a rational. *)
Definition np_ceil (q : QArith_base.Q) : Z := Qround.Qceiling q.

(** [dim = int(np.ceil(len(images) / 2))]: the quotient is taken on two
    [int]s, so it is already floored when [np.ceil] sees it. *)
Definition grid_dim (n : nat) : nat :=
  Z.to_nat (np_ceil (QArith_base.inject_Z (Z.of_nat n `div` 2))).

(** Loop state of the filling loops: [count] and the grid. *)
Definition fill_cell (images : list ChannelImage) (i : nat)
    (st : Z * grid) (j : nat) : result (Z * grid) :=
  let '(count, g) := st in
  let count := count + 1 in
  if decide (count < Z.of_nat (length images)) then
    rbind (getitem images count) (λ im,
    rbind (grid_set g i j im) (λ g', Ok (count, g')))
  else Ok (count, g).

Definition fill_row (images : list ChannelImage) (dim : nat)
    (st : Z * grid) (i : nat) : result (Z * grid) :=
  rfold (fill_cell images i) (seq 0 dim) st.

Definition _build_image_grid (images : list ChannelImage) : result grid :=
  let dim := grid_dim (length images) in
  let grid := np_empty dim dim in
  rbind (rfold (fill_row images dim) (seq 0 dim) (-1, grid))
        (λ st, Ok st.2).

(** [np.max] over a column of [image_dims]; an empty [image_dims] has one
    axis only and cannot be indexed by [[:, k]]. *)
Definition np_max_column (l : list Z) : result Z :=
  match l with
  | [] => Raise IndexError
  | x :: l' => Ok (foldl Z.max x l')
  end.

Definition vips_merge (a b : Vips.Image) (d : Vips.Direction) (dx dy : Z)
    : comp Vips.Image :=
  tell (OpMerge d dx dy) ;;; ret (Vips.merge a b d dx dy).

(** The body of the inner loop: correct, align and pad one cell. *)
Definition padded_cell (stats : option IllumstatsImages) (al : bool)
    (im_height im_width : Z) (cell : option ChannelImage)
    : comp Vips.Image :=
  match cell with
  | None => raise AttributeError
  | Some img =>
      let* img := match stats with
                  | Some s => correct img s
                  | None => ret img
                  end in
      let* img := (if al then align img else ret img) in
      let height_diff := im_height - (dimensions img).1 in
      let top := if decide (0 < height_diff) then height_diff `div` 2 else 0 in
      let width_diff := im_width - (dimensions img).2 in
      let left := if decide (0 < width_diff) then width_diff `div` 2 else 0 in
      let* empty_image := create_spacer_image im_height im_width (dtype img) in
      tell (OpInsert left top) ;;;
      ret (Vips.insert empty_image (pixels img) left top)
  end.

Definition cell_step (g : grid) (stats : option IllumstatsImages) (al : bool)
    (im_height im_width : Z) (column_spacer : Vips.Image) (i : nat)
    (current_row : list Vips.Image) (j : nat) : comp (list Vips.Image) :=
  let* cell := lift (grid_get g i j) in
  let* padded_image := padded_cell stats al im_height im_width cell in
  let current_row := current_row ++ [padded_image] in
  if decide (j ≠ (shape g).2)
  then ret (current_row ++ [column_spacer])
  else ret current_row.

Definition row_step (g : grid) (dx : Z) (stats : option IllumstatsImages)
    (al : bool) (im_height im_width : Z)
    (column_spacer row_spacer : Vips.Image)
    (rows : list Vips.Image) (i : nat) : comp (list Vips.Image) :=
  let* current_row :=
    foldM (cell_step g stats al im_height im_width column_spacer i)
          (seq 0 (shape g).2) [] in
  let* row :=
    reduceM (λ x y, vips_merge x y Vips.horizontal (- Vips.width x - dx) 0)
            current_row in
  let rows := rows ++ [row] in
  if decide (i ≠ (shape g).1)
  then ret (rows ++ [row_spacer])
  else ret rows.

Definition create_from_images (images : list ChannelImage) (dx dy : value)
    (stats : option IllumstatsImages) (al : bool) : comp Vips.Image :=
  let* '(dx, dy) := lift (check_displacements dx dy) in
  let cycles := remove_dups ((λ im, cycle_name (metadata im)) <$> images) in
  if decide (1 < length cycles)%nat then raise MetadataError else
  let channels := remove_dups ((λ im, channel_name (metadata im)) <$> images) in
  if decide (1 < length channels)%nat then raise MetadataError else
  let dtypes := remove_dups (dtype <$> images) in
  if decide (1 < length dtypes)%nat then raise TypeError else
  let image_dims := dimensions <$> images in
  let* grid := lift (_build_image_grid images) in
  let* im_height := lift (np_max_column (fst <$> image_dims)) in
  let* im_width := lift (np_max_column (snd <$> image_dims)) in
  let* im_dtype := lift (getitem dtypes 0) in
  let* column_spacer := create_spacer_image im_height dx im_dtype in
  let* row_spacer :=
    create_spacer_image dy
      (im_width * Z.of_nat (shape grid).2
       + Vips.width column_spacer * (Z.of_nat (shape grid).2 - 1))
      im_dtype in
  let* rows :=
    foldM (row_step grid dx stats al im_height im_width
                    column_spacer row_spacer)
          (seq 0 (shape grid).1) [] in
  reduceM (λ x y, vips_merge x y Vips.vertical 0 (- Vips.height x - dy)) rows.

End Collage.

(** ** [class PyramidTileFile] ([tmlib/models/file.py]) *)

Module PyramidTileFile.

(** A single 2D 8-bit pixel plane. *)
Abbreviation plane8 := (list (list Byte.byte)).

(** A row of the table [pyramid_tile_files]. *)
Record t := {
  name : string;
  group : Z;
  level : Z;
  row : Z;
  column : Z;
  channel_layer_id : Z;
}.

#[global] Instance t_eq_dec : EqDecision t.
Proof. solve_decision. Defined.

(** The columns of [UniqueConstraint('level', 'row', 'column',
    'channel_layer_id')]. *)
Definition key (f : t) : Z * Z * Z * Z :=
  (level f, row f, column f, channel_layer_id f).

(** Adding a row to the table: the database refuses a second row with the
    columns of the unique constraint. *)
Definition add (f : t) (table : list t) : result (list t) :=
  if decide (Exists (λ f', key f' = key f) table)
  then Raise IntegrityError
  else Ok (table ++ [f]).

(** The file system and the locations of the channel layers
    ([channel_layer.location], by the id of the layer). *)
Record store := {
  layers : gmap Z string;
  files : gmap string plane8;
}.

(** ['TileGroup%d' % self.group] *)
Definition tile_group (f : t) : string := "TileGroup" +:+ pretty (group f).

(** [PyramidTileFile.location] *)
Definition location (st : store) (f : t) : result string :=
  match layers st !! channel_layer_id f with
  | Some layer_location =>
      Ok (posixpath.join layer_location [tile_group f; name f])
  | None => Raise AttributeError
  end.

(** [PyramidTileFile.put]: [ImageWriter(self.location)] writes the plane to
    the location, over whatever is there. *)
Definition put (f : t) (image : plane8) (st : store) : result store :=
  rbind (location st f) (λ loc,
  Ok {| layers := layers st; files := <[loc := image]> (files st) |}).

(** [PyramidTileFile.get]: [ImageReader(self.location)] fails on a location
    that was never written. *)
Definition get (f : t) (st : store) : result plane8 :=
  rbind (location st f) (λ loc,
  match files st !! loc with
  | Some pixels => Ok pixels
  | None => Raise IOError
  end).

End PyramidTileFile.

(** ** Uploads, cycles and the experiment ([tmlib.experiment], [tmlib.upload],
    [tmlib.cycle]: only their use in [tmlib/metaconfig/api.py] is among the
    sources, so they appear as records of the attributes read there) *)

(** An [Image] element of an OME-XML document, with one channel and one
    plane.  An [ID] ['Image:%d'] and a reference to it are kept as the
    number they carry. *)
Record OmeImage := {
  image_ID : nat;
  image_Name : string;
  AcquiredDate : string;
  Channel_Name : string;
  PixelType : string;
  SizeX : Z; SizeY : Z; SizeT : Z; SizeC : Z; SizeZ : Z;
  plane_count : Z;
  TheT : Z; TheZ : Z; TheC : Z;
  Plane_PositionY : QArith_base.Q;
  Plane_PositionX : QArith_base.Q;
}.

Record WellSample := {
  sample_index : nat;
  PositionY : Z;
  PositionX : Z;
  ImageRef : nat;
}.

Record Well := {
  well_id : string;
  well_Row : Z;
  well_Column : Z;
  Sample : list WellSample;
}.

Record Plate := {
  plate_name : string;
  RowNamingConvention : string;
  ColumnNamingConvention : string;
  Rows : Z;
  Columns : Z;
  plate_Well : list Well;
}.

Record OMEXML := {
  plates : list Plate;
  images : list OmeImage;
}.

(** [metadata.image(index)] *)
Definition ome_image (md : OMEXML) (index : nat) : result OmeImage :=
  match images md !! index with
  | Some im => Ok im
  | None => Raise IndexError
  end.

(** An element of a file mapper ([tmlib.metadata.ImageFileMapper]). *)
Record ImageFileMapper := {
  series : Z;
  planes : list Z;
  mapper_files : list string;
  ref_index : nat;
  ref_id : nat;
  ref_file : string;
}.

Record Upload := {
  upload_dir : string;
  image_dir : string;
  additional_dir : string;
  ome_xml_dir : string;
  image_files : list string;
  additional_files : list string;
  ome_xml_files : list string;
  image_metadata_file : string;
  image_mapper_file : string;
  image_metadata : OMEXML;
  image_mapper : list ImageFileMapper;
}.

Record Cycle := {
  cycle_index : nat;
  cycle_dir : string;
  cycle_image_dir : string;
  cycle_image_metadata_file : string;
  cycle_plate_name : string;
}.

Record Experiment := {
  experiment_name : string;
  uploads : list Upload;
  cycles_dir : string;
  uploads_dir : string;
  experiment_image_mapper_file : string;
}.

(** The fields [cfg.IMAGE_FILE] is formatted with. *)
Record filename_fields := {
  fn_experiment_name : string;
  fn_well_id : string;
  fn_well_y : Z;
  fn_well_x : Z;
  fn_channel : Z;
  fn_plane : Z;
  fn_time : Z;
}.

(** What the sources leave to their environment: the supported formats
    ([Formats.SUPPORT_FOR_ADDITIONAL_FILES]), the file name template
    ([cfg.IMAGE_FILE]), the cycle that [Experiment.append_cycle] makes for a
    position, and the order in which Python 2 iterates over a [dict] of
    samples and over a [set] of time points. *)
Class Environment := {
  SUPPORT_FOR_ADDITIONAL_FILES : list string;
  IMAGE_FILE : filename_fields → string;
  new_cycle : nat → Cycle;
  dict_order :
    list (nat * Z * Z * string * Z * list nat) →
    list (nat * Z * Z * string * Z * list nat);
  set_order : list Z → list Z;
}.

(** ** [class MetadataConfigurator] ([tmlib/metaconfig/api.py]) *)

Module MetadataConfigurator.

(** *** Job descriptions *)

(** A value of a job description: an argument, or a dictionary of named
    lists of paths ([inputs], [outputs]). *)
Inductive jvalue :=
| JArg (v : value)
| JFiles (m : gmap string (list string)).

Abbreviation description := (gmap string jvalue).

Record job_descriptions := {
  run : list description;
  collect : description;
}.

(** [d[k]] on a dictionary *)
Definition dict_get {V} (d : gmap string V) (k : string) : result V :=
  match d !! k with Some v => Ok v | None => Raise KeyError end.

(** [description.update(kwargs)] *)
Definition update (d : description) (kwargs : gmap string value) : description :=
  (JArg <$> kwargs) ∪ d.

Definition paths_in (d : string) (fs : list string) : list string :=
  (λ f, posixpath.join d [f]) <$> fs.

Definition run_description (i : nat) (upload : Upload) (z_stacks : value)
    (kwargs : gmap string value) : description :=
  let description : description :=
    {[ "id" := JArg (PyInt (Z.of_nat i + 1));
       "inputs" := JFiles
          {[ "uploaded_image_files" :=
               paths_in (image_dir upload) (image_files upload);
             "uploaded_additional_files" :=
               paths_in (additional_dir upload) (additional_files upload);
             "ome_xml_files" :=
               paths_in (ome_xml_dir upload) (ome_xml_files upload) ]};
       "outputs" := JFiles
          {[ "metadata_files" :=
               [posixpath.join (upload_dir upload)
                  [image_metadata_file upload]];
             "mapper_files" :=
               [posixpath.join (upload_dir upload)
                  [image_mapper_file upload]] ]};
       "z_stacks" := JArg z_stacks ]} in
  update description kwargs.

Definition collect_description (experiment : Experiment) : description :=
  {[ "inputs" := JFiles
        {[ "metadata_files" :=
             (λ upload, posixpath.join (upload_dir upload)
                          [image_metadata_file upload])
               <$> uploads experiment;
           "mapper_files" :=
             (λ upload, posixpath.join (upload_dir upload)
                          [image_mapper_file upload])
               <$> uploads experiment ]};
     "outputs" := JFiles {[ "cycle_dirs" := [cycles_dir experiment] ]} ]}.

(** [kwargs['format'] not in Formats.SUPPORT_FOR_ADDITIONAL_FILES] *)
Definition format_supported `{Environment} (v : value) : bool :=
  match v with
  | PyStr s => bool_decide (s ∈ SUPPORT_FOR_ADDITIONAL_FILES)
  | _ => false
  end.

Definition create_job_descriptions `{Environment} (experiment : Experiment)
    (kwargs : gmap string value) : result job_descriptions :=
  rbind (dict_get kwargs "format") (λ format,
  rbind (if bool_decide (format ≠ PyStr "default")
         then if negb (format_supported format)
              then Raise NotSupportedError else Ok tt
         else Ok tt) (λ _,
  rbind (rfold (λ run_jobs '(i, upload),
                rbind (dict_get kwargs "z_stacks") (λ z_stacks,
                Ok (run_jobs ++ [run_description i upload z_stacks kwargs])))
               (zip (seq 0 (length (uploads experiment))) (uploads experiment))
               []) (λ run_jobs,
  Ok {| run := run_jobs; collect := collect_description experiment |}))).

(** *** [run_job] *)

(** What a job writes to disk: OME-XML metadata or a file mapper as JSON. *)
Inductive file :=
| XmlFile (md : OMEXML)
| JsonFile (mapper : list ImageFileMapper).

(** The writers of a run job ([XmlWriter] and [JsonWriter] of
    [tmlib.writers], with [metadata.to_xml()] of [bioformats]; none of them
    is among the sources): writing a file may raise, and what it raises for
    a file name and a content is left open. *)
Class Writers := {
  write_error : string → file → option exn;
}.

(** The methods of a metadata handler that [run_job] calls
    ([tmlib.metaconfig.default], [.cellvoyager], [.visiview] implement them;
    none of these modules is among the sources).  A method may change the
    handler and may raise. *)
Class MetadataHandler (H : Type) := {
  handler_factory :
    jvalue →
    result (list string → list string → list string → Experiment → result H);
  REGEX : H → string;
  configure_ome_metadata_from_image_files : H → H * result unit;
  configure_ome_metadata_from_additional_files : H → H * result unit;
  determine_missing_metadata : H → H * result (list string);
  configure_metadata_from_filenames : jvalue → H → H * result unit;
  determine_grid_coordinates_from_stage_positions : H → H * result unit;
  determine_grid_coordinates_from_layout :
    jvalue → jvalue → jvalue * jvalue → H → H * result unit;
  reconfigure_ome_metadata_for_projection : H → H * result unit;
  update_channel_ids : H → H * result unit;
  update_plane_ids : H → H * result unit;
  build_image_filenames : (filename_fields → string) → H → H * result OMEXML;
  create_image_file_mapper : H → H * result (list ImageFileMapper);
}.

(** The handler methods, as they show in the record of calls. *)
Inductive handler_call :=
| Configure_from_image_files
| Configure_from_additional_files
| Determine_missing_metadata
| Configure_from_filenames (regex : jvalue)
| Grid_coordinates_from_stage_positions
| Grid_coordinates_from_layout
    (stitch_layout stitch_major_axis : jvalue) (stitch_dimensions : jvalue * jvalue)
| Reconfigure_for_projection
| Update_channel_ids
| Update_plane_ids
| Build_image_filenames
| Create_image_file_mapper.

(** The state of a run job: its handler, the handler methods called so far
    and the files written so far. *)
Record run_state (H : Type) := {
  handler : H;
  calls : list handler_call;
  written : list (string * file);
}.
Arguments handler {H} _.
Arguments calls {H} _.
Arguments written {H} _.

(** Truth value of an argument or dictionary. *)
Definition truthy (v : jvalue) : bool :=
  match v with
  | JArg PyNone => false
  | JArg (PyBool b) => b
  | JArg (PyInt z) | JArg (PyLong z) => negb (bool_decide (z = 0))
  | JArg (PyFloat q) => negb (bool_decide (QArith_base.Qnum q = 0))
  | JArg (PyStr s) => negb (bool_decide (s = ""))
  | JFiles m => negb (bool_decide (m = ∅))
  end.

(** [batch[section][field]] *)
Definition batch_files (batch : description) (section field : string)
    : result (list string) :=
  rbind (dict_get batch section) (λ v,
  match v with
  | JFiles m => dict_get m field
  | JArg _ => Raise TypeError
  end).

(** [l[0]] *)
Definition first_of {A} (l : list A) : result A := getitem l 0.

(** Steps of a job: they read and change a state and may raise; the state
    stays as the exception found it. *)
Definition stateful (St A : Type) : Type := St → St * result A.

Definition sret {St A} (a : A) : stateful St A := λ st, (st, Ok a).
Definition sraise {St A} (e : exn) : stateful St A := λ st, (st, Raise e).
Definition slift {St A} (r : result A) : stateful St A := λ st, (st, r).
Definition sbind {St A B} (m : stateful St A) (k : A → stateful St B)
    : stateful St B :=
  λ st, match m st with
        | (st', Ok a) => k a st'
        | (st', Raise e) => (st', Raise e)
        end.

(** [try: m except e: h] *)
Definition try_except {St A} (m : stateful St A) (e : exn) (h : stateful St A)
    : stateful St A :=
  λ st, match m st with
        | (st', Raise e') => if decide (e' = e) then h st' else (st', Raise e')
        | ok => ok
        end.

(** A [for] loop over [l] that threads the loop variables [a]. *)
Fixpoint sfold {St A B} (f : B → A → stateful St B) (l : list A) (b : B)
    : stateful St B :=
  match l with
  | [] => sret b
  | x :: l' => sbind (f b x) (sfold f l')
  end.

Section run_job.

Context {H : Type} `{MetadataHandler H} `{Environment} `{Writers}.

Definition step (A : Type) : Type := stateful (run_state H) A.

(** A call of a handler method. *)
Definition call {A} (c : handler_call) (method : H → H * result A) : step A :=
  λ st, let '(h, r) := method (handler st) in
        ({| handler := h; calls := calls st ++ [c]; written := written st |}, r).

(** [_write_metadata_to_file] and [_write_mapper_to_file]: the file is
    written, unless the writer raises. *)
Definition write (filename : string) (data : file) : step unit :=
  λ st, match write_error filename data with
        | Some e => (st, Raise e)
        | None =>
            ({| handler := handler st; calls := calls st;
                written := written st ++ [(filename, data)] |}, Ok tt)
        end.

(** From the first method call to the second check for missing metadata. *)
Definition configure (batch : description) : step unit :=
  sbind (call Configure_from_image_files
              configure_ome_metadata_from_image_files) (λ _,
  sbind (call Configure_from_additional_files
              configure_ome_metadata_from_additional_files) (λ _,
  sbind (call Determine_missing_metadata determine_missing_metadata)
        (λ missing_md,
  sbind (if bool_decide (missing_md ≠ []) then
           sbind (slift (dict_get batch "regex")) (λ regex,
           λ st,
             if truthy regex || negb (bool_decide (REGEX (handler st) = ""))
             then sbind (slift (dict_get batch "regex")) (λ regex,
                  call (Configure_from_filenames regex)
                       (configure_metadata_from_filenames regex)) st
             else sraise MetadataError st)
         else sret tt) (λ _,
  sbind (call Determine_missing_metadata determine_missing_metadata)
        (λ missing_md,
  if bool_decide (missing_md ≠ []) then sraise MetadataError else sret tt))))).

(** The [except] branch: the grid coordinates from the stitch layout. *)
Definition layout_fallback (batch : description) : step unit :=
  sbind (slift (dict_get batch "stitch_layout")) (λ stitch_layout,
  sbind (slift (dict_get batch "stitch_major_axis")) (λ stitch_major_axis,
  sbind (slift (dict_get batch "stitch_vertical")) (λ stitch_vertical,
  sbind (slift (dict_get batch "stitch_horizontal")) (λ stitch_horizontal,
  call (Grid_coordinates_from_layout stitch_layout stitch_major_axis
          (stitch_vertical, stitch_horizontal))
       (determine_grid_coordinates_from_layout stitch_layout stitch_major_axis
          (stitch_vertical, stitch_horizontal)))))).

(** The [try] statement. *)
Definition grid_coordinates (batch : description) : step unit :=
  try_except
    (call Grid_coordinates_from_stage_positions
          determine_grid_coordinates_from_stage_positions)
    MetadataError
    (layout_fallback batch).

(** From the projection to the two output files. *)
Definition finish (batch : description) : step unit :=
  sbind (slift (dict_get batch "z_stacks")) (λ z_stacks,
  sbind (if truthy z_stacks
         then call Reconfigure_for_projection
                   reconfigure_ome_metadata_for_projection
         else sret tt) (λ _,
  sbind (call Update_channel_ids update_channel_ids) (λ _,
  sbind (call Update_plane_ids update_plane_ids) (λ _,
  sbind (call Build_image_filenames (build_image_filenames IMAGE_FILE)) (λ md,
  sbind (call Create_image_file_mapper create_image_file_mapper) (λ fmap,
  sbind (slift (rbind (batch_files batch "outputs" "metadata_files") first_of))
        (λ metadata_file,
  sbind (write metadata_file (XmlFile md)) (λ _,
  sbind (slift (rbind (batch_files batch "outputs" "mapper_files") first_of))
        (λ mapper_file,
  write mapper_file (JsonFile fmap)))))))))).

Definition run_body (batch : description) : step unit :=
  sbind (configure batch) (λ _,
  sbind (grid_coordinates batch) (λ _,
  finish batch)).

(** [handler_class = self._handler_factory(batch['format'])] and the
    instantiation of the handler. *)
Definition new_handler (experiment : Experiment) (batch : description)
    : result H :=
  rbind (dict_get batch "format") (λ format,
  rbind (handler_factory format) (λ handler_class,
  rbind (batch_files batch "inputs" "uploaded_image_files") (λ image_files,
  rbind (batch_files batch "inputs" "uploaded_additional_files")
        (λ additional_files,
  rbind (batch_files batch "inputs" "ome_xml_files") (λ ome_xml_files,
  handler_class image_files additional_files ome_xml_files experiment))))).

(** [run_job]: the state the job ended in, if it got a handler, and how it
    ended. *)
Definition run_job (experiment : Experiment) (batch : description)
    : option (run_state H) * result unit :=
  match new_handler experiment batch with
  | Raise e => (None, Raise e)
  | Ok h =>
      let '(st, r) :=
        run_body batch {| handler := h; calls := []; written := [] |} in
      (Some st, r)
  end.

End run_job.

Arguments step H A : clear implicits.

(** *** [collect_job_output] *)

(** The keys [(w, y, x, c, t)] of the lookup table of samples. *)
Abbreviation sample_key := (nat * Z * Z * string * Z)%type.

Definition key_w (k : sample_key) : nat := k.1.1.1.1.
Definition key_y (k : sample_key) : Z := k.1.1.1.2.
Definition key_x (k : sample_key) : Z := k.1.1.2.
Definition key_t (k : sample_key) : Z := k.2.

(** [tpoint_samples[k].append(ref_id)] on the [defaultdict(list)], kept in
    the order of first insertion. *)
Fixpoint dd_append (d : list (sample_key * list nat)) (k : sample_key)
    (ref_id : nat) : list (sample_key * list nat) :=
  match d with
  | [] => [(k, [ref_id])]
  | (k', refs) :: d' =>
      if decide (k' = k) then (k', refs ++ [ref_id]) :: d'
      else (k', refs) :: dd_append d' k ref_id
  end.

(** What happens to the state of collect: messages of [logger.info] and
    files written. *)
Inductive event :=
| Info_time_points (n : nat) (upload : string)
| Info_update_cycle (cycle_count : nat)
| Written (filename : string) (data : file).

(** The state of collect: the cycles of the experiment and what happened. *)
Record collect_state := {
  cycles : list Cycle;
  events : list event;
}.

(** The [Image] elements that [cycle_metadata.image_count = n] makes. *)
Definition default_image : OmeImage :=
  {| image_ID := 0; image_Name := ""; AcquiredDate := ""; Channel_Name := "";
     PixelType := ""; SizeX := 0; SizeY := 0; SizeT := 1; SizeC := 1;
     SizeZ := 1; plane_count := 1; TheT := 0; TheZ := 0; TheC := 0;
     Plane_PositionY := QArith_base.Qmake 0 1;
     Plane_PositionX := QArith_base.Qmake 0 1 |}.

(** [lut[cond].index.tolist()] *)
Definition index_where (cond : sample_key → bool) (lut : list sample_key)
    : list nat :=
  fst <$> filter (λ ik, cond ik.2 = true) (zip (seq 0 (length lut)) lut).

(** [l[i]] for an index that is a natural number *)
Definition nth_item {A} (l : list A) (i : nat) : result A :=
  match l !! i with Some a => Ok a | None => Raise IndexError end.

Section collect_job_output.

Context `{Environment}.

(** The loop that fills [tpoint_samples]. *)
Definition sample_step (md : OMEXML) (w : nat)
    (d : list (sample_key * list nat)) (s : WellSample)
    : result (list (sample_key * list nat)) :=
  let ref_id := ImageRef s in
  rbind (ome_image md ref_id) (λ ref_im,
  let c := Channel_Name ref_im in
  let t := TheT ref_im in
  let k := (w, PositionY s, PositionX s, c, t) in
  Ok (dd_append d k ref_id)).

Definition tpoint_samples (md : OMEXML) (plate : Plate)
    : result (list (sample_key * list nat)) :=
  rfold (λ d '(w, well), rfold (sample_step md w) (Sample well) d)
        (zip (seq 0 (length (plate_Well plate))) (plate_Well plate)) [].

(** Loop variables of the loops that build the metadata of a cycle: the
    [Image] elements, [fm_lut] and [im_count]. *)
Record build_state := {
  bs_images : list OmeImage;
  bs_fm_lut : gmap nat nat;
  bs_im_count : nat;
}.

(** The body of [for s, ix in enumerate(well_ix)]. *)
Definition build_sample (experiment : Experiment) (md : OMEXML)
    (lut : list sample_key) (ids : list nat) (cycle_count : nat)
    (wid : string) (st : build_state * list WellSample) (six : nat * nat)
    : result (build_state * list WellSample) :=
  let '(bs, samples) := st in
  let '(s, ix) := six in
  rbind (nth_item lut ix) (λ row,
  rbind (nth_item ids ix) (λ ref_id,
  let ref_ix := ref_id in
  rbind (ome_image md ref_ix) (λ ref_im,
  let im_count := bs_im_count bs in
  rbind (nth_item (bs_images bs) im_count) (λ _,
  let fn :=
    {| fn_experiment_name := experiment_name experiment;
       fn_well_id := wid;
       fn_well_y := key_y row;
       fn_well_x := key_x row;
       fn_channel := TheC ref_im;
       fn_plane := TheZ ref_im;
       fn_time := Z.of_nat cycle_count |} in
  let im :=
    {| image_ID := im_count;
       image_Name := IMAGE_FILE fn;
       AcquiredDate := AcquiredDate ref_im;
       Channel_Name := Channel_Name ref_im;
       PixelType := PixelType ref_im;
       SizeX := SizeX ref_im; SizeY := SizeY ref_im;
       SizeT := 1; SizeC := 1; SizeZ := 1;
       plane_count := 1;
       TheT := Z.of_nat cycle_count;
       TheZ := TheZ ref_im; TheC := TheC ref_im;
       Plane_PositionY := Plane_PositionY ref_im;
       Plane_PositionX := Plane_PositionX ref_im |} in
  let sample :=
    {| sample_index := s; PositionY := key_y row; PositionX := key_x row;
       ImageRef := im_count |} in
  Ok ({| bs_images := <[im_count := im]> (bs_images bs);
         bs_fm_lut := <[ref_ix := im_count]> (bs_fm_lut bs);
         bs_im_count := im_count + 1 |},
      samples ++ [sample]))))).

(** The body of [for w, well_id in enumerate(plate.Well)]. *)
Definition build_well (experiment : Experiment) (md : OMEXML)
    (lut : list sample_key) (ids : list nat) (t : Z) (cycle_count : nat)
    (st : build_state * list Well) (wwell : nat * Well)
    : result (build_state * list Well) :=
  let '(bs, wells) := st in
  let '(w, well) := wwell in
  let well_ix :=
    index_where (λ k, bool_decide (key_w k = w) && bool_decide (key_t k = t))
                lut in
  rbind (rfold (build_sample experiment md lut ids cycle_count (well_id well))
               (zip (seq 0 (length well_ix)) well_ix) (bs, []))
        (λ '(bs, samples),
  Ok (bs, wells ++ [{| well_id := well_id well; well_Row := well_Row well;
                       well_Column := well_Column well;
                       Sample := samples |}])).

(** The metadata of the cycle of one time point of an upload, with the
    table [fm_lut] from the image numbers of the upload to those of the
    cycle. *)
Definition build_cycle_metadata (experiment : Experiment) (md : OMEXML)
    (plate : Plate) (lut : list sample_key) (ids : list nat) (t : Z)
    (cycle_count : nat) (cycle : Cycle) : result (OMEXML * gmap nat nat) :=
  let cycle_indices := index_where (λ k, bool_decide (key_t k = t)) lut in
  rbind (nth_item (plates md) 0) (λ p,
  rbind (rfold (build_well experiment md lut ids t cycle_count)
               (zip (seq 0 (length (plate_Well plate))) (plate_Well plate))
               ({| bs_images := replicate (length cycle_indices) default_image;
                   bs_fm_lut := ∅; bs_im_count := 0 |}, []))
        (λ '(bs, wells),
  Ok ({| plates :=
           [{| plate_name := cycle_plate_name cycle;
               RowNamingConvention := RowNamingConvention p;
               ColumnNamingConvention := ColumnNamingConvention p;
               Rows := Rows p; Columns := Columns p;
               plate_Well := wells |}];
         images := bs_images bs |},
      bs_fm_lut bs))).

(** The body of [for element in file_mapper]. *)
Definition rewrite_element (upload : Upload) (cycle : Cycle)
    (cycle_metadata : OMEXML) (fm_lut : gmap nat nat)
    (new_elements : list ImageFileMapper) (element : ImageFileMapper)
    : result (list ImageFileMapper) :=
  rbind (match fm_lut !! ref_index element with
         | Some ix => Ok ix
         | None => Raise KeyError
         end) (λ ix,
  rbind (ome_image cycle_metadata ix) (λ im,
  Ok (new_elements ++
      [{| series := series element;
          planes := planes element;
          mapper_files :=
            (λ f, posixpath.join (upload_dir upload) [image_dir upload; f])
              <$> mapper_files element;
          ref_index := ix;
          ref_id := image_ID im;
          ref_file :=
            posixpath.join (cycle_dir cycle)
              [cycle_image_dir cycle; image_Name im] |}]))).

Definition rewrite_mapper (upload : Upload) (cycle : Cycle)
    (cycle_metadata : OMEXML) (fm_lut : gmap nat nat)
    : result (list ImageFileMapper) :=
  rfold (rewrite_element upload cycle cycle_metadata fm_lut)
        (image_mapper upload) [].

Definition cstep (A : Type) : Type := stateful collect_state A.

Definition record (e : event) : cstep unit :=
  λ st, ({| cycles := cycles st; events := events st ++ [e] |}, Ok tt).

(** [self.experiment.cycles[cycle_count]] *)
Definition get_cycle (cycle_count : nat) : cstep Cycle :=
  λ st, (st, nth_item (cycles st) cycle_count).

(** [self.experiment.append_cycle()] *)
Definition append_cycle : cstep Cycle :=
  λ st, let cycle := new_cycle (length (cycles st)) in
        ({| cycles := cycles st ++ [cycle]; events := events st |}, Ok cycle).

(** Loop variables of the loops over uploads and time points:
    [cycle_count] and [global_file_mapper]. *)
Abbreviation collect_vars := (nat * list ImageFileMapper)%type.

(** The body of [for t in unique_tpoints]. *)
Definition process_tpoint (experiment : Experiment) (upload : Upload)
    (plate : Plate) (lut : list sample_key) (ids : list nat)
    (vars : collect_vars) (t : Z) : cstep collect_vars :=
  let '(cycle_count, global_file_mapper) := vars in
  sbind (record (Info_update_cycle cycle_count)) (λ _,
  sbind (try_except (get_cycle cycle_count) IndexError append_cycle) (λ cycle,
  sbind (slift (build_cycle_metadata experiment (image_metadata upload) plate
                  lut ids t cycle_count cycle)) (λ '(cycle_metadata, fm_lut),
  sbind (record (Written
                   (posixpath.join (cycle_dir cycle)
                      [cycle_image_metadata_file cycle])
                   (XmlFile cycle_metadata))) (λ _,
  sbind (slift (rewrite_mapper upload cycle cycle_metadata fm_lut))
        (λ new_elements,
  sret (cycle_count + 1, global_file_mapper ++ new_elements)%nat))))).

(** The lookup table of an upload: the keys and the flattened values of
    [tpoint_samples], as the dictionary yields them. *)
Definition lookup_table (upload : Upload) : result (list sample_key * list nat) :=
  rbind (nth_item (plates (image_metadata upload)) 0) (λ plate,
  rbind (tpoint_samples (image_metadata upload) plate) (λ tpoint_samples,
  let items := dict_order tpoint_samples in
  let ids := concat (snd <$> items) in
  let lut := fst <$> items in
  if bool_decide (lut = []) then Raise (ValueError Length_mismatch)
  else Ok (lut, ids))).

(** [set(lut['t'].tolist())], as the set yields it. *)
Definition unique_tpoints (lut : list sample_key) : list Z :=
  set_order (key_t <$> lut).

(** The body of [for upload in self.experiment.uploads]. *)
Definition process_upload (experiment : Experiment) (vars : collect_vars)
    (upload : Upload) : cstep collect_vars :=
  sbind (slift (nth_item (plates (image_metadata upload)) 0)) (λ plate,
  sbind (slift (lookup_table upload)) (λ '(lut, ids),
  sbind (record (Info_time_points (length (unique_tpoints lut))
                   (posixpath.basename (upload_dir upload)))) (λ _,
  sbind (sfold (process_tpoint experiment upload plate lut ids)
               (unique_tpoints lut) vars) (λ '(cycle_count, global_file_mapper),
  sbind (record (Written
                   (posixpath.join (uploads_dir experiment)
                      [experiment_image_mapper_file experiment])
                   (JsonFile global_file_mapper))) (λ _,
  sret (cycle_count, global_file_mapper)))))).

Definition collect_uploads (experiment : Experiment) (us : list Upload)
    : cstep collect_vars :=
  sfold (process_upload experiment) us (0%nat, []).

Definition collect_job_output (experiment : Experiment) (batch : description)
    : cstep unit :=
  sbind (collect_uploads experiment (uploads experiment)) (λ _, sret tt).

End collect_job_output.

End MetadataConfigurator.

(** ** The names of channel image files and of illumination statistics
    files ([tmlib/models/file.py]) *)

(** [n] times the character [c]. *)
Fixpoint fill (n : nat) (c : ascii) : string :=
  match n with
  | O => ""
  | S n' => String c (fill n' c)
  end.

(** The format specification ['0>3'] on an integer: its decimal digits,
    aligned to the right and filled with zeros up to three characters. *)
Definition format_0_right_3 (z : Z) : string :=
  fill (3 - String.length (pretty z)) "0" +:+ pretty z.

Module IllumstatsFile.

(** A row of the table [illumstats_files]. *)
Record t := {
  name : string;
  channel_id : Z;
  cycle_id : Z;
}.

(** [FILENAME_FORMAT = 'illumstats_{channel_id}.h5'] *)
Definition FILENAME_FORMAT (channel_id : Z) : string :=
  "illumstats_" +:+ pretty channel_id +:+ ".h5".

Definition __init__ (channel_id cycle_id : Z) : t :=
  {| channel_id := channel_id; cycle_id := cycle_id;
     name := FILENAME_FORMAT channel_id |}.

(** [IllumstatsFile.location], with the [illumstats_location] of the cycles
    by their id. *)
Definition location (cycles : gmap Z string) (f : t) : result string :=
  match cycles !! cycle_id f with
  | Some illumstats_location => Ok (posixpath.join illumstats_location [name f])
  | None => Raise AttributeError
  end.

End IllumstatsFile.

Module ChannelImageFile.

(** What [name] and [location] read of the site, the cycle and the channel
    of a row of the table [channel_image_files]. *)
Record t := {
  _name : option string;
  tpoint : Z;
  well_name : string;
  site_y : Z;
  site_x : Z;
  channel_index : Z;
  channel_images_location : string;
}.

(** [FILENAME_FORMAT =
    'channel_image_t{t:0>3}_{w}_y{y:0>3}_x{x:0>3}_c{c:0>3}.h5'] *)
Definition FILENAME_FORMAT (t : Z) (w : string) (y x c : Z) : string :=
  "channel_image_t" +:+ format_0_right_3 t +:+ "_" +:+ w
  +:+ "_y" +:+ format_0_right_3 y +:+ "_x" +:+ format_0_right_3 x
  +:+ "_c" +:+ format_0_right_3 c +:+ ".h5".

(** The property [name]: the stored name, made on first use. *)
Definition name (f : t) : t * string :=
  match _name f with
  | Some n => (f, n)
  | None =>
      let n := FILENAME_FORMAT (tpoint f) (well_name f) (site_y f) (site_x f)
                 (channel_index f) in
      ({| _name := Some n; tpoint := tpoint f; well_name := well_name f;
          site_y := site_y f; site_x := site_x f;
          channel_index := channel_index f;
          channel_images_location := channel_images_location f |}, n)
  end.

(** [ChannelImageFile.location] *)
Definition location (f : t) : t * string :=
  let '(f, n) := name f in
  (f, posixpath.join (channel_images_location f) [n]).

End ChannelImageFile.

(** ** Notions the specification uses *)

(** A non-negative integer argument: an instance of [int] whose value is not
    below zero. *)
Definition nonneg_int (v : value) : Prop :=
  ∃ z, int_value v = Some z ∧ 0 ≤ z.

(** The invalid-argument error of the stitching code: the [ValueError] about
    the first of [dx], [dy] that is not a non-negative integer. *)
Definition invalid_argument (dx dy : value) : exn :=
  ValueError (Not_a_positive_integer
    (match int_value dx with
     | Some z => if decide (0 ≤ z) then "dy" else "dx"
     | None => "dx"
     end)).

(** A computation ends in the [ValueError] of the argument check, about
    either argument. *)
Definition raises_invalid_argument {A} (m : comp A) : Prop :=
  ∃ argument, outcome m = Raise (ValueError (Not_a_positive_integer argument)).

(** The side the specification asks of the collage grid: [ceil(n / 2)]. *)
Definition spec_side (n : nat) : nat :=
  Z.to_nat (Qround.Qceiling (QArith_base.Qmake (Z.of_nat n) 2)).

(** Images that differ in the attribute [f]. *)
Definition span_several {A} (f : ChannelImage → A) (images : list ChannelImage)
    : Prop :=
  ∃ im1 im2, im1 ∈ images ∧ im2 ∈ images ∧ f im1 ≠ f im2.

(** A grid of the given shape. *)
Definition wf_grid (h w : nat) (g : grid) : Prop :=
  length g = h ∧ Forall (λ r, length r = w) g.

(** What a cell of the collage grid holds once the filling loops went over
    it: the image whose number is the cell's row-major rank, when there is
    one. *)
Definition filled (images : list ChannelImage)
    (old : result (option ChannelImage)) (k : nat)
    : result (option ChannelImage) :=
  match images !! k with Some im => Ok (Some im) | None => old end.

(** A computation that does not end in the exception [e0]. *)
Definition never {A} (e0 : exn) (m : comp A) : Prop := outcome m ≠ Raise e0.

(** The well position of an image, row first. *)
Definition position (im : ChannelImage) : nat * nat :=
  (well_position_y (metadata im), well_position_x (metadata im)).

(** The largest recorded row and column. *)
Definition max_row (images : list ChannelImage) : nat :=
  max_list (well_position_y ∘ metadata <$> images).
Definition max_column (images : list ChannelImage) : nat :=
  max_list (well_position_x ∘ metadata <$> images).

(** The last of the images recorded at a position, if any. *)
Definition occupant (images : list ChannelImage) (r c : nat)
    : option ChannelImage :=
  last (filter (λ im, position im = (r, c)) images).

(** Every position up to the largest row and column is occupied. *)
Definition dense (images : list ChannelImage) : Prop :=
  ∀ r c, (r ≤ max_row images)%nat → (c ≤ max_column images)%nat →
    ∃ im, im ∈ images ∧ position im = (r, c).

(** Whether the grid holds an image at a cell, in a whole row. *)
Definition cell_full (g : grid) (r c : nat) : bool :=
  match grid_get g r c with Ok (Some _) => true | _ => false end.
Definition row_full (g : grid) (w r : nat) : bool :=
  forallb (cell_full g r) (seq 0 w).

(** Loop invariants of [Mosaic.create] after [n] columns, after [n] rows:
    an odd position finds the previous plane bound, and the list of pairs is
    not empty once two positions, or all of them, are done. *)
Definition col_inv (w n : nat) (st : Mosaic.col_state) : Prop :=
  (Z.of_nat n `mod` 2 ≠ 0 → is_Some st.1)
  ∧ ((2 ≤ n)%nat ∨ (n = w ∧ 0 < n)%nat → st.2 ≠ []).
Definition row_inv (h n : nat) (st : Mosaic.row_state) : Prop :=
  (Z.of_nat n `mod` 2 ≠ 0 → is_Some st.1.2)
  ∧ ((2 ≤ n)%nat ∨ (n = h ∧ 0 < n)%nat → st.2 ≠ []).

(** Whether a string has a path separator in it. *)
Abbreviation has_slash := posixpath.contains_slash.

(** No two rows of the table share the columns of the unique constraint. *)
Definition unique_keys (table : list PyramidTileFile.t) : Prop :=
  NoDup (PyramidTileFile.key <$> table).

(** The list of paths a job description declares under [section]
    ([inputs] or [outputs]) and [field]. *)
Definition files_of (d : MetadataConfigurator.description)
    (section field : string) : list string :=
  match d !! section with
  | Some (MetadataConfigurator.JFiles m) => default [] (m !! field)
  | _ => []
  end.

(** *** Notions for the collect step *)

Section collect_notions.

Import MetadataConfigurator.
Context `{Environment} (experiment : Experiment).

(** The cycles of the experiment once positions [0 .. n-1] are in use: those
    it had, and new ones appended behind them. *)
Definition grow (cycles0 : list Cycle) (n : nat) : list Cycle :=
  cycles0 ++ (new_cycle <$> seq (length cycles0) (n - length cycles0)).

(** The cycle at position [c]: the one the experiment had there, or the one
    appended for it. *)
Definition cycle_for (cycles0 : list Cycle) (c : nat) : Cycle :=
  default (new_cycle c) (cycles0 !! c).

(** What one cycle is made from: one time point of one upload. *)
Record cycle_source := {
  src_upload : Upload;
  src_plate : Plate;
  src_lut : list sample_key;
  src_ids : list nat;
  src_tpoint : Z;
}.

(** The cycles an upload gives rise to, in the order of the loop. *)
Definition plan_of (u : Upload) : list cycle_source :=
  match nth_item (plates (image_metadata u)) 0, lookup_table u with
  | Ok plate, Ok (lut, ids) =>
      (λ t, {| src_upload := u; src_plate := plate; src_lut := lut;
               src_ids := ids; src_tpoint := t |}) <$> unique_tpoints lut
  | _, _ => []
  end.


Definition source_metadata (cycles0 : list Cycle) (c : nat)
    (src : cycle_source) : result (OMEXML * gmap nat nat) :=
  build_cycle_metadata experiment (image_metadata (src_upload src))
    (src_plate src) (src_lut src) (src_ids src) (src_tpoint src) c
    (cycle_for cycles0 c).


Definition metadata_path (cycles0 : list Cycle) (c : nat) : string :=
  posixpath.join (cycle_dir (cycle_for cycles0 c))
    [cycle_image_metadata_file (cycle_for cycles0 c)].


(** The events of the loop body for the cycle at [c], and the mapper
    entries it adds. *)
Definition source_events (cycles0 : list Cycle) (c : nat)
    (src : cycle_source) : list event :=
  match source_metadata cycles0 c src with
  | Ok (cycle_metadata, _) =>
      [Info_update_cycle c;
       Written (metadata_path cycles0 c) (XmlFile cycle_metadata)]
  | Raise _ => [Info_update_cycle c]
  end.


(** The events of the cycles [c0, c0 + 1, ...] made from a plan. *)
Definition plan_events (cycles0 : list Cycle) (c0 : nat)
    (p : list cycle_source) : list event :=
  concat (imap (λ j src, source_events cycles0 (c0 + j) src) p).




End collect_notions.


(** What Python guarantees of the two iteration orders that the environment
    stands for: iterating over a dictionary yields its items, each once, and
    iterating over a set yields the elements it was made from. *)
Definition iterates_items `{Environment} : Prop :=
  ∀ items, dict_order items ≡ₚ items.
Definition iterates_elements `{Environment} : Prop :=
  ∀ l x, x ∈ set_order l ↔ x ∈ l.

(** The cycle numbers announced, the metadata files and the mapper files
    written, in the order of the events. *)
Definition cycle_updates (evs : list MetadataConfigurator.event) : list nat :=
  omap (λ e, match e with
             | MetadataConfigurator.Info_update_cycle c => Some c
             | _ => None
             end) evs.


Definition mapper_writes (evs : list MetadataConfigurator.event)
    : list (string * list ImageFileMapper) :=
  omap (λ e, match e with
             | MetadataConfigurator.Written f (MetadataConfigurator.JsonFile m) =>
                 Some (f, m)
             | _ => None
             end) evs.


(** The [format] argument passes the check of [create_job_descriptions]: it
    is ['default'] or one of the supported formats. *)
Definition accepted_format `{Environment} (kwargs : gmap string value) : Prop :=
  ∃ format, kwargs !! "format" = Some format
    ∧ (format = PyStr "default"
       ∨ MetadataConfigurator.format_supported format = true).

(** A step of a run job that leaves the files written as they are. *)
Definition writes_nothing {H A} (m : MetadataConfigurator.step H A) : Prop :=
  ∀ st, MetadataConfigurator.written (m st).1 = MetadataConfigurator.written st.

(** Whether the character [c] occurs in a string. *)
Fixpoint has_char (c : ascii) (s : string) : bool :=
  match s with
  | EmptyString => false
  | String a s' => bool_decide (a = c) || has_char c s'
  end.

(** An [Image] element of a cycle that was copied from one of an upload:
    what [collect_job_output] takes over from the reference. *)
Definition copied_from (ref_im im : OmeImage) : Prop :=
  AcquiredDate im = AcquiredDate ref_im
  ∧ Channel_Name im = Channel_Name ref_im
  ∧ PixelType im = PixelType ref_im
  ∧ SizeX im = SizeX ref_im ∧ SizeY im = SizeY ref_im
  ∧ TheZ im = TheZ ref_im ∧ TheC im = TheC ref_im
  ∧ Plane_PositionY im = Plane_PositionY ref_im
  ∧ Plane_PositionX im = Plane_PositionX ref_im.

(** An [Image] element as the cycle at [c] needs it at position [i]. *)
Definition cycle_image (c i : nat) (im : OmeImage) : Prop :=
  image_ID im = i ∧ TheT im = Z.of_nat c
  ∧ SizeT im = 1 ∧ SizeC im = 1 ∧ SizeZ im = 1 ∧ plane_count im = 1.

(** The loop variables of the loops that build the metadata of the cycle at
    [c] for the time point [t]: the images made so far are in place, and
    [fm_lut] sends images of the upload that belong to [t] to their copies. *)
Definition built (md : OMEXML) (lut : list MetadataConfigurator.sample_key)
    (ids : list nat) (t : Z) (c n : nat)
    (bs : MetadataConfigurator.build_state) : Prop :=
  length (MetadataConfigurator.bs_images bs) = n
  ∧ (MetadataConfigurator.bs_im_count bs ≤ n)%nat
  ∧ (∀ i, (i < MetadataConfigurator.bs_im_count bs)%nat →
       ∃ im, MetadataConfigurator.bs_images bs !! i = Some im
           ∧ cycle_image c i im)
  ∧ (∀ r i, MetadataConfigurator.bs_fm_lut bs !! r = Some i →
       (i < MetadataConfigurator.bs_im_count bs)%nat
       ∧ (∃ ref_im im, images md !! r = Some ref_im
            ∧ MetadataConfigurator.bs_images bs !! i = Some im
            ∧ copied_from ref_im im)
       ∧ ∃ ix k, lut !! ix = Some k ∧ MetadataConfigurator.key_t k = t
               ∧ ids !! ix = Some r).

(** The key under which [collect_job_output] files a sample of the well
    number [w]: the well, the position of the sample, and the channel and
    the time point of the image that the sample refers to. *)
Definition key_of (md : OMEXML) (w : nat) (s : WellSample)
    : option MetadataConfigurator.sample_key :=
  im ← images md !! ImageRef s;
  Some (w, PositionY s, PositionX s, Channel_Name im, TheT im).

(** The keys of the samples of a plate, well by well. *)
Definition plate_keys (md : OMEXML) (plate : Plate)
    : list MetadataConfigurator.sample_key :=
  concat (imap (λ w well, omap (key_of md w) (Sample well)) (plate_Well plate)).

(** The dictionary [tpoint_samples] after the samples with the keys [ks]
    were filed: it has these keys, each once, and when no two of the
    samples share a key every key has one sample. *)
Definition filed (ks : list MetadataConfigurator.sample_key)
    (d : list (MetadataConfigurator.sample_key * list nat)) : Prop :=
  NoDup (fst <$> d)
  ∧ (∀ k, k ∈ fst <$> d ↔ k ∈ ks)
  ∧ (NoDup ks → Forall (λ kv, length kv.2 = 1%nat) d).

(** What [Mosaic.create] does to the image of a cell before it joins it. *)
Definition cell_ops (stats : option IllumstatsImages) (al : bool)
    (im : ChannelImage) : list pixel_op :=
  match stats with Some _ => [OpCorrect (name (metadata im))] | None => [] end
  ++ (if al then [OpAlign (name (metadata im))] else []).

(** The joins in direction [d] with shim [shim] among the pixel operations,
    and the operations that are neither a horizontal join with shim [sx] nor
    a vertical join with shim [sy]. *)
Definition is_join (d : Vips.Direction) (shim : Z) (o : pixel_op) : bool :=
  match o, d with
  | OpJoin Vips.horizontal s, Vips.horizontal
  | OpJoin Vips.vertical s, Vips.vertical => bool_decide (s = shim)
  | _, _ => false
  end.

Definition n_joins (d : Vips.Direction) (shim : Z) (t : list pixel_op) : nat :=
  length (filter (λ o, is_join d shim o = true) t).

Definition preparations (sx sy : Z) (t : list pixel_op) : list pixel_op :=
  filter (λ o, is_join Vips.horizontal sx o = false
               ∧ is_join Vips.vertical sy o = false) t.

(** The images of the cells of the mosaic grid, row by row. *)
Definition row_major (images : list ChannelImage) : list ChannelImage :=
  r ← seq 0 (max_row images + 1);
  omap (occupant images r) (seq 0 (max_column images + 1)).

(** The extent of a sequence of planes that overlap by [overlap], less one
    overlap. *)
Definition extent (f : Vips.Image → Z) (overlap : Z) (l : list Vips.Image) : Z :=
  foldr (λ p acc, f p - overlap + acc) 0 l.

(** The images [cell r c] of an [R] by [C] grid all have height [H] and
    width [W]. *)
Definition uniform (R C : nat) (cell : nat → nat → ChannelImage) (H W : Z)
    : Prop :=
  ∀ r c, (r < R)%nat → (c < C)%nat → dimensions (cell r c) = (H, W).

(** ** Sample data *)

Module Sample.

Definition image (n cy ch : string) (y x : nat) (h w : Z)
    (f : Vips.BandFormat) : ChannelImage :=
  {| metadata := {| name := n; cycle_name := cy; channel_name := ch;
                    well_position_y := y; well_position_x := x |};
     pixels := {| Vips.height := h; Vips.width := w; Vips.format := f |} |}.

Definition a : ChannelImage := image "a" "cycle0" "dapi" 0 0 10 20 Vips.UCHAR.
Definition b : ChannelImage := image "b" "cycle0" "dapi" 0 1 10 20 Vips.UCHAR.
Definition c : ChannelImage := image "c" "cycle0" "dapi" 1 0 10 20 Vips.UCHAR.
Definition d : ChannelImage := image "d" "cycle0" "dapi" 1 1 10 20 Vips.UCHAR.
(** the same site as [b], from another cycle, channel, type *)
Definition b_cycle1 : ChannelImage := image "b1" "cycle1" "dapi" 0 1 10 20 Vips.UCHAR.
Definition b_gfp : ChannelImage := image "b2" "cycle0" "gfp" 0 1 10 20 Vips.UCHAR.
Definition b_ushort : ChannelImage := image "b3" "cycle0" "dapi" 0 1 10 20 Vips.USHORT.

Definition layer1 : PyramidTileFile.store :=
  {| PyramidTileFile.layers := {[ 1 := "/data/layers/1" ]};
     PyramidTileFile.files := ∅ |}.

Definition tile (g : Z) : PyramidTileFile.t :=
  {| PyramidTileFile.name := "0-0-0.jpg"; PyramidTileFile.group := g;
     PyramidTileFile.level := 0; PyramidTileFile.row := 0;
     PyramidTileFile.column := 0; PyramidTileFile.channel_layer_id := 1 |}.

Definition dark : PyramidTileFile.plane8 := [[Byte.x00; Byte.x00]].
Definition bright : PyramidTileFile.plane8 := [[Byte.xff; Byte.xff]].

(** An environment: insertion order for dictionaries, first-seen order for
    sets. *)
Definition environment : Environment :=
  {| SUPPORT_FOR_ADDITIONAL_FILES := ["cellvoyager"; "visiview"];
     IMAGE_FILE := λ fn,
       fn_experiment_name fn +:+ "_" +:+ fn_well_id fn
       +:+ "_y" +:+ pretty (fn_well_y fn) +:+ "_x" +:+ pretty (fn_well_x fn)
       +:+ "_c" +:+ pretty (fn_channel fn) +:+ "_z" +:+ pretty (fn_plane fn)
       +:+ "_t" +:+ pretty (fn_time fn) +:+ ".png";
     new_cycle := λ i,
       {| cycle_index := i;
          cycle_dir := "/exp/cycles/cycle_" +:+ pretty i;
          cycle_image_dir := "images";
          cycle_image_metadata_file := "image_metadata.ome.xml";
          cycle_plate_name := "cycle_" +:+ pretty i |};
     dict_order := λ items, items;
     set_order := remove_dups |}.

(** Two uploads of one image each, both acquired at time point 0, and an
    upload of two images at the time points 0 and 1. *)
Definition raw_image (t : Z) : OmeImage :=
  {| image_ID := 0; image_Name := "raw"; AcquiredDate := "2016-01-01";
     Channel_Name := "dapi"; PixelType := "uint16";
     SizeX := 20; SizeY := 10; SizeT := 1; SizeC := 1; SizeZ := 1;
     plane_count := 1; TheT := t; TheZ := 0; TheC := 0;
     Plane_PositionY := QArith_base.Qmake 0 1;
     Plane_PositionX := QArith_base.Qmake 0 1 |}.

Definition upload_of (d : string) (tpoints : list Z) : Upload :=
  {| upload_dir := d; image_dir := "images"; additional_dir := "additional";
     ome_xml_dir := "omexml";
     image_files := (λ i, "site" +:+ pretty i +:+ ".tif")
                      <$> seq 0 (length tpoints);
     additional_files := [];
     ome_xml_files := (λ i, "site" +:+ pretty i +:+ ".ome.xml")
                        <$> seq 0 (length tpoints);
     image_metadata_file := "image_metadata.ome.xml";
     image_mapper_file := "image_file_mapper.json";
     image_metadata :=
       {| plates :=
            [{| plate_name := "plate"; RowNamingConvention := "letter";
                ColumnNamingConvention := "number"; Rows := 1; Columns := 1;
                plate_Well :=
                  [{| well_id := "A01"; well_Row := 0; well_Column := 0;
                      Sample := (λ i, {| sample_index := i; PositionY := 0;
                                         PositionX := Z.of_nat i;
                                         ImageRef := i |})
                                  <$> seq 0 (length tpoints) |}] |}];
          images := raw_image <$> tpoints |};
     image_mapper :=
       (λ i, {| series := Z.of_nat i; planes := [0];
                mapper_files := ["site" +:+ pretty i +:+ ".tif"];
                ref_index := i; ref_id := i; ref_file := "" |})
         <$> seq 0 (length tpoints) |}.

Definition upload1 : Upload := upload_of "/exp/uploads/upload_1" [0].
Definition upload2 : Upload := upload_of "/exp/uploads/upload_2" [0].
Definition upload3 : Upload := upload_of "/exp/uploads/upload_3" [0; 1].

Definition experiment_of (us : list Upload) : Experiment :=
  {| experiment_name := "exp"; uploads := us;
     cycles_dir := "/exp/cycles"; uploads_dir := "/exp/uploads";
     experiment_image_mapper_file := "image_file_mapper.json" |}.

Definition fresh : MetadataConfigurator.collect_state :=
  {| MetadataConfigurator.cycles := []; MetadataConfigurator.events := [] |}.

(** A handler that knows no stage positions: the stage-position strategy
    raises [MetadataError], everything else succeeds.  The handler records
    where its grid coordinates came from. *)
Definition no_stage_positions : MetadataConfigurator.MetadataHandler string :=
  {| MetadataConfigurator.handler_factory := λ _, Ok (λ _ _ _ _, Ok "");
     MetadataConfigurator.REGEX := λ _, "";
     MetadataConfigurator.configure_ome_metadata_from_image_files :=
       λ h, (h, Ok tt);
     MetadataConfigurator.configure_ome_metadata_from_additional_files :=
       λ h, (h, Ok tt);
     MetadataConfigurator.determine_missing_metadata := λ h, (h, Ok []);
     MetadataConfigurator.configure_metadata_from_filenames :=
       λ _ h, (h, Ok tt);
     MetadataConfigurator.determine_grid_coordinates_from_stage_positions :=
       λ h, (h, Raise MetadataError);
     MetadataConfigurator.determine_grid_coordinates_from_layout :=
       λ _ _ _ _, ("layout", Ok tt);
     MetadataConfigurator.reconfigure_ome_metadata_for_projection :=
       λ h, (h, Ok tt);
     MetadataConfigurator.update_channel_ids := λ h, (h, Ok tt);
     MetadataConfigurator.update_plane_ids := λ h, (h, Ok tt);
     MetadataConfigurator.build_image_filenames :=
       λ _ h, (h, Ok {| plates := []; images := [] |});
     MetadataConfigurator.create_image_file_mapper := λ h, (h, Ok []) |}.

(** Writers that never raise, and writers that cannot write JSON files. *)
Definition writers : MetadataConfigurator.Writers :=
  {| MetadataConfigurator.write_error := λ _ _, None |}.

Definition no_json : MetadataConfigurator.Writers :=
  {| MetadataConfigurator.write_error := λ _ data,
       match data with
       | MetadataConfigurator.JsonFile _ => Some IOError
       | MetadataConfigurator.XmlFile _ => None
       end |}.

Definition run_batch : MetadataConfigurator.description :=
  {[ "id" := MetadataConfigurator.JArg (PyInt 1);
     "format" := MetadataConfigurator.JArg (PyStr "default");
     "regex" := MetadataConfigurator.JArg (PyStr "");
     "z_stacks" := MetadataConfigurator.JArg (PyBool false);
     "stitch_layout" := MetadataConfigurator.JArg (PyStr "zigzag_horizontal");
     "stitch_major_axis" := MetadataConfigurator.JArg (PyStr "vertical");
     "stitch_vertical" := MetadataConfigurator.JArg (PyInt 2);
     "stitch_horizontal" := MetadataConfigurator.JArg (PyInt 2);
     "inputs" := MetadataConfigurator.JFiles
        {[ "uploaded_image_files" := ["/exp/uploads/u1/images/a.tif"];
           "uploaded_additional_files" := [];
           "ome_xml_files" := ["/exp/uploads/u1/omexml/a.ome.xml"] ]};
     "outputs" := MetadataConfigurator.JFiles
        {[ "metadata_files" := ["/exp/uploads/u1/metadata.ome.xml"];
           "mapper_files" := ["/exp/uploads/u1/mapper.json"] ]} ]}.

End Sample.

(** * Properties *)

(** ** Object grids: shape and cell lemmas *)

Section grids.

Lemma np_empty_wf h w : wf_grid h w (np_empty h w).
Proof.
  split; [apply length_replicate|].
  apply Forall_replicate, length_replicate.
Qed.

Lemma np_empty_get h w i j :
  (i < h)%nat → (j < w)%nat → grid_get (np_empty h w) i j = Ok None.
Proof.
  intros Hi Hj. unfold grid_get, np_empty.
  rewrite lookup_replicate_2 by done. simpl.
  by rewrite lookup_replicate_2.
Qed.

Lemma wf_grid_row h w g i row :
  wf_grid h w g → g !! i = Some row → length row = w.
Proof.
  intros [_ Hall] Hrow. rewrite Forall_lookup in Hall. eauto.
Qed.

Lemma wf_grid_shape h w g : (0 < h)%nat → wf_grid h w g → shape g = (h, w).
Proof.
  intros Hh [Hlen Hall]. unfold shape. destruct g as [|r g]; simpl in *.
  - lia.
  - inversion Hall; subst. done.
Qed.

Lemma wf_grid_get h w g i j :
  wf_grid h w g → (i < h)%nat → (j < w)%nat →
  ∃ c, grid_get g i j = Ok c.
Proof.
  intros Hwf Hi Hj. unfold grid_get.
  destruct (lookup_lt_is_Some_2 g i) as [row Hrow]; [destruct Hwf; lia|].
  rewrite Hrow. pose proof (wf_grid_row _ _ _ _ _ Hwf Hrow) as Hl.
  destruct (lookup_lt_is_Some_2 row j) as [c Hc]; [lia|].
  rewrite Hc. eauto.
Qed.

(** Writing a cell inside the grid succeeds, keeps the shape and changes
    that cell only. *)
Lemma grid_set_spec h w g i j im :
  wf_grid h w g → (i < h)%nat → (j < w)%nat →
  ∃ g', grid_set g i j im = Ok g' ∧ wf_grid h w g' ∧
    ∀ i' j', grid_get g' i' j' =
             if decide (i' = i ∧ j' = j) then Ok (Some im)
             else grid_get g i' j'.
Proof.
  intros Hwf Hi Hj. unfold grid_set.
  destruct (lookup_lt_is_Some_2 g i) as [row Hrow]; [destruct Hwf; lia|].
  rewrite Hrow. pose proof (wf_grid_row _ _ _ _ _ Hwf Hrow) as Hl.
  rewrite decide_True by lia. eexists; split; [done|]. split.
  - destruct Hwf as [Hlen Hall]. split; [by rewrite length_insert|].
    apply Forall_insert; [done|]. by rewrite length_insert.
  - intros i' j'. unfold grid_get.
    destruct (decide (i' = i)) as [->|Hne].
    + rewrite list_lookup_insert_eq by (destruct Hwf; lia).
      rewrite Hrow. destruct (decide (j' = j)) as [->|Hnj].
      * rewrite list_lookup_insert_eq by lia.
        by rewrite decide_True.
      * rewrite list_lookup_insert_ne by done.
        rewrite decide_False by (intros [_ ?]; done). done.
    + rewrite list_lookup_insert_ne by done.
      rewrite decide_False by (intros [? _]; done). done.
Qed.

End grids.

(** ** Python list indexing *)

Lemma getitem_nonneg {A} (l : list A) (i : Z) :
  0 ≤ i < Z.of_nat (length l) →
  ∃ a, l !! Z.to_nat i = Some a ∧ getitem l i = Ok a.
Proof.
  intros Hi. unfold getitem.
  rewrite (decide_False (P := i < 0)) by lia.
  rewrite decide_True by lia.
  destruct (lookup_lt_is_Some_2 l (Z.to_nat i)) as [a Ha]; [lia|].
  rewrite Ha. eauto.
Qed.

(** ** The filling loops of [Collage._build_image_grid] *)

Section collage_grid.

Variable images : list ChannelImage.
Variable dim : nat.

Lemma fill_cells_spec i len : ∀ j0 count g,
  wf_grid dim dim g → (i < dim)%nat → (j0 + len ≤ dim)%nat →
  count = Z.of_nat (i * dim + j0) - 1 →
  ∃ g', rfold (Collage.fill_cell images i) (seq j0 len) (count, g)
        = Ok (count + Z.of_nat len, g')
    ∧ wf_grid dim dim g'
    ∧ ∀ i' j', grid_get g' i' j' =
        if decide (i' = i ∧ j0 ≤ j' < j0 + len)%nat
        then filled images (grid_get g i' j') (i * dim + j')
        else grid_get g i' j'.
Proof.
  induction len as [|len IH]; intros j0 count g Hwf Hi Hj Hc; simpl.
  - exists g. rewrite Z.add_0_r. split; [done|split; [done|]].
    intros i' j'. rewrite decide_False by lia. done.
  - destruct (decide (count + 1 < Z.of_nat (length images))) as [Hlt|Hge].
    + destruct (getitem_nonneg images (count + 1)) as (im & Him & ->); [lia|].
      simpl.
      destruct (grid_set_spec dim dim g i j0 im) as (g1 & -> & Hwf1 & Hg1);
        [done|lia|lia|]. simpl.
      destruct (IH (S j0) (count + 1) g1) as (g' & Hrun & Hwf' & Hg');
        [done|done|lia|lia|].
      exists g'. rewrite Hrun. split; [f_equal; f_equal; lia|].
      split; [done|]. intros i' j'. rewrite Hg', Hg1.
      replace (Z.to_nat (count + 1)) with (i * dim + j0)%nat in Him by lia.
      destruct (decide (i' = i ∧ j' = j0)) as [[-> ->]|Hne].
      * rewrite (decide_False (P := (_ ∧ S j0 ≤ j0 < _)%nat)) by lia.
        rewrite decide_True by lia. unfold filled. by rewrite Him.
      * destruct (decide (i' = i ∧ (S j0 ≤ j' < S j0 + len)%nat)) as [H1|H1].
        -- rewrite decide_True by lia. done.
        -- rewrite decide_False by lia. done.
    + simpl.
      destruct (IH (S j0) (count + 1) g) as (g' & Hrun & Hwf' & Hg');
        [done|done|lia|lia|].
      exists g'. rewrite Hrun. split; [f_equal; f_equal; lia|].
      split; [done|]. intros i' j'. rewrite Hg'.
      destruct (decide (i' = i ∧ j' = j0)) as [[-> ->]|Hne].
      * rewrite (decide_False (P := (_ ∧ S j0 ≤ j0 < _)%nat)) by lia.
        rewrite decide_True by lia. unfold filled.
        rewrite lookup_ge_None_2 by lia. done.
      * destruct (decide (i' = i ∧ (S j0 ≤ j' < S j0 + len)%nat)) as [H1|H1].
        -- rewrite decide_True by lia. done.
        -- rewrite decide_False by lia. done.
Qed.

Lemma fill_rows_spec len : ∀ i0 count g,
  wf_grid dim dim g → (i0 + len ≤ dim)%nat →
  count = Z.of_nat (i0 * dim) - 1 →
  ∃ g', rfold (Collage.fill_row images dim) (seq i0 len) (count, g)
        = Ok (count + Z.of_nat (len * dim), g')
    ∧ wf_grid dim dim g'
    ∧ ∀ i' j', (j' < dim)%nat → grid_get g' i' j' =
        if decide (i0 ≤ i' < i0 + len)%nat
        then filled images (grid_get g i' j') (i' * dim + j')
        else grid_get g i' j'.
Proof.
  induction len as [|len IH]; intros i0 count g Hwf Hi Hc; simpl.
  - exists g. rewrite Z.add_0_r. split; [done|split; [done|]].
    intros i' j' _. rewrite decide_False by lia. done.
  - unfold Collage.fill_row at 1.
    destruct (fill_cells_spec i0 dim 0%nat count g) as (g1 & -> & Hwf1 & Hg1);
      [done|lia|lia|lia|]. simpl.
    destruct (IH (S i0) (count + Z.of_nat dim) g1) as (g' & Hrun & Hwf' & Hg');
      [done|lia|lia|].
    exists g'. rewrite Hrun. split; [f_equal; f_equal; lia|].
    split; [done|]. intros i' j' Hj'. rewrite Hg', Hg1 by done.
    destruct (decide (i' = i0)) as [->|Hne].
    + rewrite (decide_False (P := (S i0 ≤ i0 < _)%nat)) by lia.
      rewrite !decide_True by lia. done.
    + rewrite (decide_False (P := (i' = i0 ∧ _))) by lia.
      destruct (decide (S i0 ≤ i' < S i0 + len)%nat) as [H1|H1].
      * rewrite decide_True by lia. done.
      * rewrite decide_False by lia. done.
Qed.

End collage_grid.

(** The grid that [Collage._build_image_grid] returns: square, of the side
    the code computed, and cell [(i, j)] holds image number [i * side + j]
    when there is one and [None] otherwise. *)
Lemma collage_grid_spec (images : list ChannelImage) :
  let side := Collage.grid_dim (length images) in
  ∃ g, Collage._build_image_grid images = Ok g
    ∧ wf_grid side side g
    ∧ ∀ i j, (i < side)%nat → (j < side)%nat →
        grid_get g i j = Ok (images !! (i * side + j)%nat).
Proof.
  intros side. unfold Collage._build_image_grid. fold side.
  destruct (fill_rows_spec images side side 0%nat (-1) (np_empty side side))
    as (g & -> & Hwf & Hg); [apply np_empty_wf|lia|lia|].
  exists g. simpl. split; [done|split; [done|]].
  intros i j Hi Hj. rewrite Hg by done.
  rewrite decide_True by lia. unfold filled.
  rewrite np_empty_get by done. by destruct (images !! _).
Qed.

(** The side is [len(images) / 2] rounded down: the ceiling is applied to a
    quotient that is already an integer. *)
Lemma grid_dim_floor (n : nat) : Collage.grid_dim n = (n / 2)%nat.
Proof.
  unfold Collage.grid_dim, Collage.np_ceil.
  rewrite Qround.Qceiling_Z. change 2 with (Z.of_nat 2).
  rewrite <- Nat2Z.inj_div. apply Nat2Z.id.
Qed.

(** ** C3: the collage grid *)

(** C3 (as amended).  [Collage._build_image_grid] returns a square grid whose
    cells are filled in row-major input order: cell [(i, j)] holds image number
    [i * side + j] when there is one and stays empty otherwise.  For an even
    number of images the side is half that number.  An image is in the grid
    exactly when its number is below [side * side]. *)
Theorem collage_grid_layout (images : list ChannelImage) :
  ∃ g, Collage._build_image_grid images = Ok g ∧
    let side := length g in
    Forall (λ row, length row = side) g
    ∧ (Nat.Even (length images) → (2 * side)%nat = length images)
    ∧ (∀ i j, (i < side)%nat → (j < side)%nat →
         grid_get g i j = Ok (images !! (i * side + j)%nat))
    ∧ (∀ k im, images !! k = Some im → (k < side * side)%nat →
         grid_get g (k / side) (k `mod` side) = Ok (Some im))
    ∧ (∀ i j im, grid_get g i j = Ok (Some im) →
         ∃ k, (k < side * side)%nat ∧ images !! k = Some im).
Proof.
  destruct (collage_grid_spec images) as (g & Hg & [Hlen Hall] & Hcell).
  exists g. split; [done|]. simpl. rewrite Hlen.
  set (side := Collage.grid_dim (length images)) in *.
  split; [done|]. split; [|split; [done|split]].
  - intros [m Hm]. subst side. rewrite grid_dim_floor, Hm.
    rewrite Nat.mul_comm, Nat.div_mul by done. lia.
  - intros k im Hk Hlt.
    assert (side ≠ 0)%nat as Hs by lia.
    rewrite Hcell.
    + rewrite Nat.mul_comm, <- Nat.div_mod_eq. by rewrite Hk.
    + apply Nat.Div0.div_lt_upper_bound. lia.
    + by apply Nat.mod_upper_bound.
  - intros i j im Hget.
    assert (i < side ∧ j < side)%nat as [Hi Hj].
    { unfold grid_get in Hget.
      destruct (g !! i) as [row|] eqn:Hrow; [|done].
      destruct (row !! j) as [c|] eqn:Hc; [|done].
      rewrite Forall_lookup in Hall.
      pose proof (Hall _ _ Hrow) as Hl.
      apply lookup_lt_Some in Hrow. apply lookup_lt_Some in Hc. lia. }
    rewrite Hcell in Hget by done. exists (i * side + j)%nat.
    split; [nia|]. congruence.
Qed.

(** C3 (as stated) fails for two images: the side is [ceil(2 / 2) = 1], as
    the claim wants it, and the one cell holds the first image; the second is
    nowhere in the grid. *)
Lemma collage_grid_two_images :
  ∃ g, Collage._build_image_grid [Sample.a; Sample.b] = Ok g
    ∧ length g = spec_side 2
    ∧ ¬ (∀ im, im ∈ [Sample.a; Sample.b] →
           ∃ i j, grid_get g i j = Ok (Some im)).
Proof.
  exists [[Some Sample.a]]. split; [reflexivity|]. split; [reflexivity|].
  intros H. destruct (H Sample.b) as (i & j & Hget); [set_solver|].
  destruct i as [|i]; [destruct j as [|j]|]; done.
Qed.

(** ** Outcomes of stitching computations *)

Lemma bind_ok {A B} (m : comp A) (k : A → comp B) t a :
  m = (t, Ok a) → Stitch.bind m k = (t ++ ops (k a), outcome (k a)).
Proof. intros ->. unfold Stitch.bind, ops, outcome. by destruct (k a). Qed.

Lemma bind_raise {A B} (m : comp A) (k : A → comp B) t e :
  m = (t, Raise e) → Stitch.bind m k = (t, Raise e).
Proof. by intros ->. Qed.

Lemma outcome_bind {A B} (m : comp A) (k : A → comp B) :
  outcome (Stitch.bind m k) =
    match outcome m with Ok a => outcome (k a) | Raise e => Raise e end.
Proof.
  unfold outcome. destruct m as [t [a|e]]; simpl; [|done].
  by destruct (k a).
Qed.

Lemma never_bind {A B} e0 (m : comp A) (k : A → comp B) :
  never e0 m → (∀ a, never e0 (k a)) → never e0 (Stitch.bind m k).
Proof.
  unfold never. intros Hm Hk. rewrite outcome_bind.
  destruct (outcome m) eqn:E; [apply Hk|congruence].
Qed.

Lemma never_ret {A} e0 (a : A) : never e0 (ret a).
Proof. done. Qed.

Lemma never_raise {A} e0 e : e ≠ e0 → never e0 (@raise A e).
Proof. unfold never, raise, outcome. simpl. congruence. Qed.

Lemma never_lift {A} e0 (r : result A) : r ≠ Raise e0 → never e0 (lift r).
Proof. done. Qed.

Lemma never_foldM {A B} e0 (f : B → A → comp B) (l : list A) :
  (∀ s x, never e0 (f s x)) → ∀ s, never e0 (foldM f l s).
Proof.
  intros Hf. induction l as [|x l IH]; intros s; simpl.
  - apply never_ret.
  - apply never_bind; [apply Hf|apply IH].
Qed.


Lemma never_tell e0 o : never e0 (tell o).
Proof. done. Qed.

Lemma never_reduceM {A} e0 (f : A → A → comp A) (l : list A) :
  e0 ≠ TypeError → (∀ x y, never e0 (f x y)) → never e0 (reduceM f l).
Proof.
  intros He Hf. destruct l as [|x l]; simpl.
  - by apply never_raise.
  - by apply never_foldM.
Qed.

Lemma rfold_raise {A S} (f : S → A → result S) e0 :
  (∀ s x, f s x ≠ Raise e0) → ∀ l s, rfold f l s ≠ Raise e0.
Proof.
  intros Hf l. induction l as [|x l IH]; intros s; simpl; [done|].
  pose proof (Hf s x). destruct (f s x); simpl; [apply IH|done].
Qed.

Lemma grid_get_raise g i j e : grid_get g i j = Raise e → e = IndexError.
Proof.
  unfold grid_get. destruct (g !! i) as [row|]; [|congruence].
  destruct (row !! j); congruence.
Qed.

Lemma grid_set_raise g i j im e : grid_set g i j im = Raise e → e = IndexError.
Proof.
  unfold grid_set. destruct (g !! i) as [row|]; [|congruence].
  case_decide; congruence.
Qed.

Lemma getitem_raise {A} (l : list A) i e : getitem l i = Raise e → e = IndexError.
Proof.
  unfold getitem. case_decide; [|congruence].
  destruct (l !! _); congruence.
Qed.

(** ** The argument check on [dx] and [dy] *)

Lemma check_displacement_ok (a : string) (v : value) (z : Z) :
  check_displacement a v = Ok z ↔ int_value v = Some z ∧ 0 ≤ z.
Proof.
  unfold check_displacement.
  destruct v as [|b|x|x|q|s]; simpl; try (split; [done|by intros [? _]]).
  - destruct b; simpl; (split; [intros [= <-]; split; [done|lia]|by intros [[= <-] _]]).
  - case_decide; (split; [intros [=]|intros [[=] ?]]); subst;
      try done; try lia. split; [done|lia].
Qed.

Lemma check_displacement_raise (a : string) (v : value) (e : exn) :
  check_displacement a v = Raise e →
  e = ValueError (Not_a_positive_integer a).
Proof.
  unfold check_displacement.
  destruct (isinstance_int v); simpl; [|congruence].
  destruct (int_value v); [|congruence]. case_decide; congruence.
Qed.

Lemma check_displacement_cases (a : string) (v : value) :
  (nonneg_int v ∧ ∃ z, check_displacement a v = Ok z)
  ∨ (¬ nonneg_int v
     ∧ check_displacement a v = Raise (ValueError (Not_a_positive_integer a))).
Proof.
  destruct (check_displacement a v) as [z|e] eqn:Hc.
  - left. split; [|eauto]. exists z. by apply (check_displacement_ok a).
  - right. rewrite (check_displacement_raise _ _ _ Hc). split; [|done].
    intros (z & Hz). apply (check_displacement_ok a) in Hz. congruence.
Qed.

Lemma check_displacements_ok (dx dy : value) :
  nonneg_int dx → nonneg_int dy →
  ∃ x y, check_displacements dx dy = Ok (x, y)
       ∧ int_value dx = Some x ∧ int_value dy = Some y ∧ 0 ≤ x ∧ 0 ≤ y.
Proof.
  intros (x & Hx & Hx0) (y & Hy & Hy0). exists x, y.
  unfold check_displacements.
  rewrite (proj2 (check_displacement_ok "dx" dx x)) by done. simpl.
  rewrite (proj2 (check_displacement_ok "dy" dy y)) by done. done.
Qed.

Lemma check_displacements_raise (dx dy : value) :
  ¬ (nonneg_int dx ∧ nonneg_int dy) →
  check_displacements dx dy = Raise (invalid_argument dx dy).
Proof.
  intros Hn. unfold check_displacements, invalid_argument.
  destruct (check_displacement_cases "dx" dx) as [[Hx [x Hcx]]|[Hx ->]].
  - rewrite Hcx. simpl. apply check_displacement_ok in Hcx as [-> Hx0].
    rewrite decide_True by done.
    destruct (check_displacement_cases "dy" dy) as [[Hy [y ->]]|[_ ->]];
      [tauto|done].
  - simpl. destruct (int_value dx) as [z|] eqn:Hz; [|done].
    rewrite decide_False; [done|]. intros Hz0. apply Hx. by exists z.
Qed.

Lemma invalid_argument_raised {A} (dx dy : value) :
  raises_invalid_argument (A := A) ([], Raise (invalid_argument dx dy)).
Proof. unfold raises_invalid_argument, invalid_argument. by eexists. Qed.

Lemma bind_lift_ok {A B} (a : A) (k : A → comp B) :
  Stitch.bind (lift (Ok a)) k = k a.
Proof. unfold lift, Stitch.bind. by destruct (k a). Qed.

Lemma bind_lift_raise {A B} (e : exn) (k : A → comp B) :
  Stitch.bind (lift (Raise e)) k = ([], Raise e).
Proof. done. Qed.

Ltac never_step :=
  match goal with
  | |- never _ (Stitch.bind _ _) => apply never_bind; [|intros ?]
  | |- never _ (ret _) => apply never_ret
  | |- never _ (raise _) => apply never_raise; discriminate
  | |- never _ (tell _) => apply never_tell
  | |- never _ (foldM _ _ _) => apply never_foldM; intros ? ?
  | |- never _ (reduceM _ _) => apply never_reduceM; [discriminate|intros ? ?]
  | |- never _ (lift _) => apply never_lift
  | |- never _ (if ?c then _ else _) => destruct c
  | |- never _ (match ?x with _ => _ end) => destruct x
  | |- grid_get _ _ _ ≠ Raise _ =>
      let H := fresh in intros H; apply grid_get_raise in H; discriminate
  | |- getitem _ _ ≠ Raise _ =>
      let H := fresh in intros H; apply getitem_raise in H; discriminate
  end.

Lemma never_spacer e0 h w dt :
  e0 ≠ VipsError → never e0 (create_spacer_image h w dt).
Proof.
  intros He. unfold create_spacer_image. case_decide; [repeat never_step|].
  apply never_raise. congruence.
Qed.

Lemma never_correct e0 im s : never e0 (correct im s).
Proof. unfold correct. repeat never_step. Qed.

Lemma never_align e0 im : never e0 (align im).
Proof. unfold align. repeat never_step. Qed.

Lemma never_join e0 a b d shim : never e0 (vips_join a b d shim).
Proof. unfold vips_join. repeat never_step. Qed.

Lemma never_merge e0 a b d dx dy : never e0 (Collage.vips_merge a b d dx dy).
Proof. unfold Collage.vips_merge. repeat never_step. Qed.

Create HintDb never.
#[local] Hint Resolve never_spacer never_correct never_align never_join
  never_merge : never.
#[local] Hint Extern 0 (_ ≠ VipsError) => discriminate : never.

(** Past its argument check, [Collage.create_from_images] has no way to end
    in the [ValueError] of an invalid argument. *)
Lemma collage_body_never_invalid_argument images dx dy stats al x y a :
  check_displacements dx dy = Ok (x, y) →
  never (ValueError (Not_a_positive_integer a))
        (Collage.create_from_images images dx dy stats al).
Proof.
  intros Hc. unfold Collage.create_from_images. rewrite Hc, bind_lift_ok.
  destruct (collage_grid_spec images) as (g & Hg & _).
  repeat case_decide; try (apply never_raise; discriminate).
  rewrite Hg, bind_lift_ok.
  repeat (first
    [ solve [auto with never]
    | progress unfold Collage.row_step, Collage.cell_step, Collage.padded_cell
    | never_step ]).
  all: try (unfold Collage.np_max_column;
            match goal with |- context [match ?l with [] => _ | _ => _ end] =>
              destruct l end; discriminate).
Qed.

(** The same for [Mosaic.create]: without images it ends in a [ValueError],
    but in the one of numpy. *)
Lemma mosaic_body_never_invalid_argument images dx dy stats al x y a :
  check_displacements dx dy = Ok (x, y) →
  never (ValueError (Not_a_positive_integer a))
        (Mosaic.create images dx dy stats al).
Proof.
  intros Hc. unfold Mosaic.create. rewrite Hc, bind_lift_ok.
  apply never_bind.
  - apply never_lift. unfold Mosaic._build_image_grid.
    destruct (Mosaic.np_max_axis0 (Mosaic.coordinates images))
      as [[h w]|e] eqn:Hmax; [|by destruct images; simplify_eq/=].
    cbn [rbind]. apply rfold_raise. intros s [i [r c]]. unfold Mosaic.place. simpl.
    destruct (_ !! i); [|discriminate].
    intros H. apply grid_set_raise in H. discriminate.
  - intros g.
    repeat (first
      [ solve [auto with never]
      | progress unfold Mosaic.row_step, Mosaic.col_step, Mosaic.cell_pixels
      | never_step ]).
Qed.

(** ** C6: the displacement arguments *)

(** Without images, [Mosaic.create] gets past the argument check and ends in
    numpy's [ValueError], whatever the displacements. *)
Lemma mosaic_without_images (dx dy : value)
    (stats : option IllumstatsImages) (al : bool) :
  nonneg_int dx → nonneg_int dy →
  outcome (Mosaic.create [] dx dy stats al) = Raise (ValueError Zero_size_array).
Proof.
  intros Hx Hy.
  destruct (check_displacements_ok dx dy Hx Hy) as (x & y & Hc & _).
  unfold Mosaic.create. by rewrite Hc.
Qed.

(** C6.  [Mosaic.create] and [Collage.create_from_images] fail with the
    invalid-argument error, the [ValueError] of their argument check, exactly
    when [dx] or [dy] is not a non-negative integer; they then stop before
    doing anything else.  For every pair of non-negative integers the
    argument check passes. *)
Theorem displacement_check (images : list ChannelImage) (dx dy : value)
    (stats : option IllumstatsImages) (al : bool) :
  (raises_invalid_argument (Mosaic.create images dx dy stats al)
     ↔ ¬ (nonneg_int dx ∧ nonneg_int dy))
  ∧ (raises_invalid_argument
       (Collage.create_from_images images dx dy stats al)
     ↔ ¬ (nonneg_int dx ∧ nonneg_int dy))
  ∧ (¬ (nonneg_int dx ∧ nonneg_int dy) →
     Mosaic.create images dx dy stats al
       = ([], Raise (invalid_argument dx dy))
     ∧ Collage.create_from_images images dx dy stats al
       = ([], Raise (invalid_argument dx dy)))
  ∧ (is_ok (check_displacements dx dy) = true
     ↔ nonneg_int dx ∧ nonneg_int dy).
Proof.
  assert (nonneg_int dx ∧ nonneg_int dy →
          ∃ x y, check_displacements dx dy = Ok (x, y)) as Hok.
  { intros [Hx Hy].
    destruct (check_displacements_ok dx dy Hx Hy) as (x & y & ? & _). eauto. }
  assert (¬ (nonneg_int dx ∧ nonneg_int dy) →
     Mosaic.create images dx dy stats al
       = ([], Raise (invalid_argument dx dy))
     ∧ Collage.create_from_images images dx dy stats al
       = ([], Raise (invalid_argument dx dy))) as Hfail.
  { intros Hn. apply check_displacements_raise in Hn.
    unfold Mosaic.create, Collage.create_from_images. by rewrite Hn. }
  split; [|split; [|split]].
  - split.
    + intros [a Ha] Hn. destruct (Hok Hn) as (x & y & Hc).
      by apply (mosaic_body_never_invalid_argument images dx dy stats al x y a Hc).
    + intros Hn. destruct (Hfail Hn) as [-> _]. apply invalid_argument_raised.
  - split.
    + intros [a Ha] Hn. destruct (Hok Hn) as (x & y & Hc).
      by apply (collage_body_never_invalid_argument images dx dy stats al x y a Hc).
    + intros Hn. destruct (Hfail Hn) as [_ ->]. apply invalid_argument_raised.
  - done.
  - split.
    + intros Hr.
      destruct (check_displacement_cases "dx" dx) as [[Hx _]|[Hx _]];
        destruct (check_displacement_cases "dy" dy) as [[Hy _]|[Hy _]];
        try done; rewrite check_displacements_raise in Hr by tauto; done.
    + intros Hn. destruct (Hok Hn) as (x & y & ->). done.
Qed.

(** ** C7: the checks on the images of a collage *)

Lemma two_distinct {A} (l : list A) :
  NoDup l → (1 < length l)%nat ↔ ∃ x y, x ∈ l ∧ y ∈ l ∧ x ≠ y.
Proof.
  intros Hnd. destruct l as [|x [|y l]]; simpl.
  - split; [lia|]. intros (x & _ & Hx & _). by apply elem_of_nil in Hx.
  - split; [lia|]. intros (a & b & Ha & Hb & Hab).
    apply list_elem_of_singleton in Ha, Hb. congruence.
  - split; [|lia]. intros _. exists x, y.
    split; [set_solver|]. split; [set_solver|].
    apply NoDup_cons in Hnd as [Hx _]. set_solver.
Qed.

(** The length test on [set([...])] is the test whether two images differ. *)
Lemma span_several_length {A} `{EqDecision A} (f : ChannelImage → A) images :
  span_several f images ↔ (1 < length (remove_dups (f <$> images)))%nat.
Proof.
  rewrite two_distinct by apply NoDup_remove_dups. split.
  - intros (im1 & im2 & H1 & H2 & Hne). exists (f im1), (f im2).
    rewrite !elem_of_remove_dups. split; [|split; [|done]];
      by apply list_elem_of_fmap_2.
  - intros (x & y & Hx & Hy & Hne). rewrite !elem_of_remove_dups in Hx, Hy.
    apply list_elem_of_fmap in Hx as (im1 & -> & H1).
    apply list_elem_of_fmap in Hy as (im2 & -> & H2).
    by exists im1, im2.
Qed.

(** C7.  With valid displacements, [Collage.create_from_images] raises
    [MetadataError] when the images span several cycles, [MetadataError] when
    they span several channels, and [TypeError] when they differ in element
    type, the checks being made in this order; in each case no pixel
    operation (correction, alignment, spacer, insertion or merge) has taken
    place. *)
Theorem collage_input_checks (images : list ChannelImage) (dx dy : value)
    (stats : option IllumstatsImages) (al : bool) :
  nonneg_int dx → nonneg_int dy →
  let r := Collage.create_from_images images dx dy stats al in
  let cycles := span_several (λ im, cycle_name (metadata im)) images in
  let channels := span_several (λ im, channel_name (metadata im)) images in
  let dtypes := span_several dtype images in
  (cycles → r = ([], Raise MetadataError))
  ∧ (¬ cycles → channels → r = ([], Raise MetadataError))
  ∧ (¬ cycles → ¬ channels → dtypes → r = ([], Raise TypeError))
  ∧ (cycles ∨ channels ∨ dtypes →
     ops r = [] ∧ (outcome r = Raise MetadataError ∨ outcome r = Raise TypeError)).
Proof.
  intros Hx Hy r cycles channels dtypes.
  destruct (check_displacements_ok dx dy Hx Hy) as (x & y & Hc & _).
  assert (r =
    if decide (1 < length (remove_dups ((λ im, cycle_name (metadata im)) <$> images)))%nat
    then ([], Raise MetadataError)
    else if decide (1 < length (remove_dups ((λ im, channel_name (metadata im)) <$> images)))%nat
    then ([], Raise MetadataError)
    else if decide (1 < length (remove_dups (dtype <$> images)))%nat
    then ([], Raise TypeError)
    else r) as Hr.
  { subst r. unfold Collage.create_from_images. rewrite Hc, bind_lift_ok.
    by repeat case_decide. }
  unfold cycles, channels, dtypes. rewrite !span_several_length.
  split; [|split; [|split]].
  - intros H. rewrite Hr. by rewrite decide_True.
  - intros H1 H2. rewrite Hr. by rewrite decide_False, decide_True.
  - intros H1 H2 H3. rewrite Hr.
    by rewrite decide_False, decide_False, decide_True.
  - intros H. rewrite Hr. repeat case_decide; simpl; try tauto.
Qed.

(** The sample images [a] and [b_cycle1] differ in their cycle, [a] and
    [b_gfp] in their channel, [a] and [b_ushort] in their type. *)
Lemma collage_input_checks_witness :
  Collage.create_from_images [Sample.a; Sample.b_cycle1] (PyInt 100) (PyInt 100)
      None false = ([], Raise MetadataError)
  ∧ Collage.create_from_images [Sample.a; Sample.b_gfp] (PyInt 100) (PyInt 100)
      None false = ([], Raise MetadataError)
  ∧ Collage.create_from_images [Sample.a; Sample.b_ushort] (PyInt 100) (PyInt 100)
      None false = ([], Raise TypeError).
Proof.
  assert (nonneg_int (PyInt 100)) as H100 by (exists 100; split; [done|lia]).
  assert (∀ x y : ChannelImage, ∀ A (f : ChannelImage → A),
            f x = f y → ¬ span_several f [x; y]) as Hsame.
  { intros x y A f Hf (u & v & Hu & Hv & Hne). apply Hne.
    apply elem_of_cons in Hu as [->|Hu]; apply elem_of_cons in Hv as [->|Hv];
      rewrite ?list_elem_of_singleton in *; subst; congruence. }
  assert (∀ x y : ChannelImage, ∀ A (f : ChannelImage → A),
            f x ≠ f y → span_several f [x; y]) as Hdiff.
  { intros x y A f Hf. exists x, y. set_solver. }
  split; [|split].
  - pose proof (collage_input_checks [Sample.a; Sample.b_cycle1] _ _ None false
                  H100 H100) as (H & _).
    apply H, Hdiff. done.
  - pose proof (collage_input_checks [Sample.a; Sample.b_gfp] _ _ None false
                  H100 H100) as (_ & H & _).
    apply H; [apply Hsame|apply Hdiff]; done.
  - pose proof (collage_input_checks [Sample.a; Sample.b_ushort] _ _ None false
                  H100 H100) as (_ & _ & H & _).
    apply H; [apply Hsame|apply Hsame|apply Hdiff]; done.
Defined.

(** A collage of four images of one cycle, channel and type is composed:
    the pixel operations are there when the checks pass. *)
Lemma collage_composes_when_checks_pass :
  ∃ t p, Collage.create_from_images [Sample.a; Sample.b; Sample.c; Sample.d]
           (PyInt 100) (PyInt 100) None false = (t, Ok p)
       ∧ (8 ≤ length t)%nat.
Proof. vm_compute. eexists _, _. split; [reflexivity|]. simpl. lia. Qed.

(** ** The grid of [Mosaic._build_image_grid] *)

Lemma np_max_axis0_spec (images : list ChannelImage) :
  images ≠ [] →
  Mosaic.np_max_axis0 (Mosaic.coordinates images)
  = Ok (max_row images, max_column images).
Proof.
  destruct images as [|im images]; [done|]. intros _. simpl. f_equal.
  unfold max_row, max_column. simpl.
  generalize (well_position_y (metadata im)) (well_position_x (metadata im)).
  induction images as [|im' images IH]; intros y x; simpl.
  - f_equal; lia.
  - rewrite IH. f_equal; unfold compose; lia.
Qed.

Lemma occupant_cons im images r c :
  occupant (im :: images) r c =
    match occupant images r c with
    | Some im' => Some im'
    | None => if decide (position im = (r, c)) then Some im else None
    end.
Proof.
  unfold occupant. rewrite filter_cons.
  destruct (decide (position im = (r, c))) as [Heq|Hne];
    [|by destruct (last _)].
  destruct (filter _ images) as [|x l]; [done|].
  change (im :: x :: l) with ([im] ++ x :: l).
  rewrite last_app. by destruct (last (x :: l)) eqn:E.
Qed.

Lemma occupant_Some images r c im :
  occupant images r c = Some im → im ∈ images ∧ position im = (r, c).
Proof.
  unfold occupant. intros H. apply last_Some_elem_of in H.
  by apply list_elem_of_filter in H as [? ?].
Qed.

Lemma occupant_None images r c :
  occupant images r c = None → ∀ im, im ∈ images → position im ≠ (r, c).
Proof.
  unfold occupant. intros H im Him Hpos. apply last_None in H.
  assert (im ∈ filter (λ im, position im = (r, c)) images) as Hin
    by (by apply list_elem_of_filter).
  rewrite H in Hin. by apply elem_of_nil in Hin.
Qed.

(** The placing loop from image number [k] on. *)
Lemma place_spec images h w : ∀ rest prefix g,
  images = prefix ++ rest →
  wf_grid h w g →
  (∀ im, im ∈ rest → (well_position_y (metadata im) < h)%nat
                   ∧ (well_position_x (metadata im) < w)%nat) →
  ∃ g', rfold (Mosaic.place images)
              (zip (seq (length prefix) (length (Mosaic.coordinates rest)))
                   (Mosaic.coordinates rest)) g = Ok g'
    ∧ wf_grid h w g'
    ∧ ∀ r c, grid_get g' r c =
        match occupant rest r c with
        | Some im => Ok (Some im)
        | None => grid_get g r c
        end.
Proof.
  unfold Mosaic.coordinates.
  induction rest as [|im rest IH]; intros prefix g Himg Hwf Hin; simpl.
  - exists g. done.
  - unfold Mosaic.place at 1. simpl.
    assert (images !! length prefix = Some im) as ->.
    { rewrite Himg. by rewrite list_lookup_middle. }
    destruct (Hin im) as [Hy Hx]; [by apply elem_of_cons; left|].
    destruct (grid_set_spec h w g _ _ im Hwf Hy Hx) as (g1 & -> & Hwf1 & Hg1).
    simpl.
    destruct (IH (prefix ++ [im]) g1) as (g' & Hrun & Hwf' & Hg').
    { by rewrite <- app_assoc. }
    { done. }
    { intros im' Him'. by apply Hin, elem_of_cons; right. }
    rewrite length_app in Hrun. simpl in Hrun.
    rewrite Nat.add_1_r in Hrun. exists g'. split; [done|]. split; [done|].
    intros r c. rewrite Hg', occupant_cons, Hg1.
    destruct (occupant rest r c); [done|]. unfold position.
    destruct (decide (r = well_position_y (metadata im)
                      ∧ c = well_position_x (metadata im))) as [[-> ->]|Hne].
    + by rewrite decide_True.
    + rewrite decide_False; [done|]. intros [= <- <-]. by apply Hne.
Qed.

Lemma max_list_elem_le (l : list nat) (n : nat) : n ∈ l → (n ≤ max_list l)%nat.
Proof.
  induction l as [|x l IH]; simpl.
  - intros H. by apply elem_of_nil in H.
  - intros [->|H]%elem_of_cons; [lia|]. specialize (IH H). lia.
Qed.

(** [Mosaic._build_image_grid] on at least one image: the grid spans the
    positions up to the largest row and column, and each cell holds the last
    image recorded there, or [None]. *)
Lemma mosaic_grid_spec (images : list ChannelImage) :
  images ≠ [] →
  ∃ g, Mosaic._build_image_grid images = Ok g
    ∧ wf_grid (max_row images + 1) (max_column images + 1) g
    ∧ ∀ r c, (r ≤ max_row images)%nat → (c ≤ max_column images)%nat →
        grid_get g r c = Ok (occupant images r c).
Proof.
  intros Hne. unfold Mosaic._build_image_grid.
  rewrite np_max_axis0_spec by done. cbn [rbind].
  destruct (place_spec images (max_row images + 1) (max_column images + 1)
              images [] (np_empty (max_row images + 1) (max_column images + 1)))
    as (g & Hrun & Hwf & Hg); [done|apply np_empty_wf| |].
  { intros im Him. split.
    - assert (well_position_y (metadata im) ≤ max_row images)%nat; [|lia].
      apply max_list_elem_le. apply list_elem_of_fmap.
      exists im. done.
    - assert (well_position_x (metadata im) ≤ max_column images)%nat; [|lia].
      apply max_list_elem_le. apply list_elem_of_fmap.
      exists im. done. }
  exists g. split; [done|]. split; [done|]. intros r c Hr Hc.
  rewrite Hg, np_empty_get by lia. by destruct (occupant images r c).
Qed.

(** ** Loops that stop at the first bad element *)

(** A loop whose body keeps an invariant on good elements and raises [e0] on
    bad ones runs to its end when all elements are good, and ends in [e0]
    otherwise. *)
Lemma foldM_cases {A St} (e0 : exn) (good : A → bool) (f : St → A → comp St) :
  ∀ (l : list A) (I : nat → St → Prop) (s : St),
    (∀ i x s, l !! i = Some x → I i s →
       if good x then ∃ t s', f s x = (t, Ok s') ∧ I (S i) s'
       else ∃ t, f s x = (t, Raise e0)) →
    I 0%nat s →
    if forallb good l
    then ∃ t s', foldM f l s = (t, Ok s') ∧ I (length l) s'
    else ∃ t, foldM f l s = (t, Raise e0).
Proof.
  induction l as [|x l IH]; intros I s Hstep H0; simpl.
  - by exists [], s.
  - pose proof (Hstep 0%nat x s eq_refl H0) as Hx.
    destruct (good x); simpl.
    + destruct Hx as (t & s' & Hf & HI).
      specialize (IH (λ i, I (S i)) s').
      destruct (forallb good l).
      * destruct IH as (t' & s'' & Hrun & HI'); [|done|].
        { intros i y s0 Hy. by apply (Hstep (S i)). }
        exists (t ++ t'), s''. rewrite (bind_ok _ _ t s' Hf), Hrun. done.
      * destruct IH as (t' & Hrun); [|done|].
        { intros i y s0 Hy. by apply (Hstep (S i)). }
        exists (t ++ t'). by rewrite (bind_ok _ _ t s' Hf), Hrun.
    + destruct Hx as (t & Hf). exists t. by rewrite (bind_raise _ _ t e0 Hf).
Qed.

Lemma foldM_total {A S} (f : S → A → comp S) :
  (∀ s x, ∃ t s', f s x = (t, Ok s')) →
  ∀ l s, ∃ t s', foldM f l s = (t, Ok s').
Proof.
  intros Hf. induction l as [|x l IH]; intros s; simpl.
  - by exists [], s.
  - destruct (Hf s x) as (t & s' & Hs). destruct (IH s') as (t' & s'' & Hr).
    exists (t ++ t'), s''. by rewrite (bind_ok _ _ t s' Hs), Hr.
Qed.

Lemma reduceM_join_ok d shim (l : list Vips.Image) :
  l ≠ [] → ∃ t p, reduceM (λ x y, vips_join x y d shim) l = (t, Ok p).
Proof.
  destruct l as [|x l]; [done|]. intros _. simpl.
  apply foldM_total. intros s y. by eexists _, _.
Qed.

(** ** The stitching loops of [Mosaic.create] *)

Lemma cell_pixels_ok stats al img :
  ∃ t, Mosaic.cell_pixels stats al (Some img) = (t, Ok (pixels img)).
Proof. destruct stats, al; by eexists. Qed.

Section mosaic_loops.

Variables (g : grid) (h w : nat).
Variables (x_overlap y_overlap : Z).
Variables (stats : option IllumstatsImages) (al : bool).
Hypothesis Hwf : wf_grid h w g.
Hypothesis Hh : (0 < h)%nat.

Lemma col_step_cases r c st :
  (r < h)%nat → (c < w)%nat → col_inv w c st →
  if cell_full g r c
  then ∃ t st', Mosaic.col_step g x_overlap stats al r st c = (t, Ok st')
              ∧ col_inv w (S c) st'
  else ∃ t, Mosaic.col_step g x_overlap stats al r st c = (t, Raise AttributeError).
Proof.
  intros Hr Hc [Hprev Hpairs]. destruct st as [previous_img col_pairs].
  unfold Mosaic.col_step, cell_full. rewrite (wf_grid_shape h w g Hh Hwf).
  destruct (wf_grid_get h w g r c Hwf Hr Hc) as [cell ->].
  rewrite bind_lift_ok. destruct cell as [img|]; [|by exists []].
  destruct (cell_pixels_ok stats al img) as [t Ht].
  rewrite (bind_ok _ _ t _ Ht). simpl in *.
  destruct (decide (Z.of_nat c `mod` 2 = 0)) as [Heven|Hodd].
  - case_decide; simpl; eexists _, _; (split; [done|]); split; simpl;
      [by eauto| |by eauto|]; intros Hn.
    + by destruct col_pairs.
    + apply Hpairs. left. destruct Hn as [?|[? _]]; [|lia].
      destruct c as [|[|c]]; [lia|done|lia].
  - destruct (Hprev Hodd) as [p ->]. simpl.
    eexists _, _. split; [done|]. split; simpl; [by eauto|].
    intros _. by destruct col_pairs.
Qed.

Lemma col_loop_cases r previous_img :
  (r < h)%nat → (0 < w)%nat →
  if row_full g w r
  then ∃ t st', foldM (Mosaic.col_step g x_overlap stats al r) (seq 0 w)
                  (previous_img, []) = (t, Ok st') ∧ st'.2 ≠ []
  else ∃ t, foldM (Mosaic.col_step g x_overlap stats al r) (seq 0 w)
              (previous_img, []) = (t, Raise AttributeError).
Proof.
  intros Hr Hw. unfold row_full.
  pose proof (foldM_cases AttributeError (cell_full g r)
                (Mosaic.col_step g x_overlap stats al r) (seq 0 w)
                (col_inv w) (previous_img, [])) as H.
  destruct (forallb _ _).
  - destruct H as (t & st' & Hrun & [_ Hinv]).
    + intros i c st [-> Hi]%lookup_seq Hst. by apply col_step_cases.
    + split; simpl; [done|lia].
    + exists t, st'. split; [done|]. apply Hinv. rewrite length_seq. lia.
  - apply H.
    + intros i c st [-> Hi]%lookup_seq Hst. by apply col_step_cases.
    + split; simpl; [done|lia].
Qed.

Lemma row_step_cases r st :
  (r < h)%nat → (0 < w)%nat → row_inv h r st →
  if row_full g w r
  then ∃ t st', Mosaic.row_step g x_overlap y_overlap stats al st r = (t, Ok st')
              ∧ row_inv h (S r) st'
  else ∃ t, Mosaic.row_step g x_overlap y_overlap stats al st r
            = (t, Raise AttributeError).
Proof.
  intros Hr Hw [Hprev Hpairs].
  destruct st as [[previous_img previous_row] row_pairs].
  unfold Mosaic.row_step. rewrite (wf_grid_shape h w g Hh Hwf). simpl in *.
  pose proof (col_loop_cases r previous_img Hr Hw) as Hcols.
  destruct (row_full g w r).
  - destruct Hcols as (t & [previous_img' col_pairs] & Hrun & Hne).
    rewrite (bind_ok _ _ t _ Hrun).
    destruct (reduceM_join_ok Vips.horizontal x_overlap col_pairs Hne)
      as (t' & row & Hrow).
    rewrite (bind_ok _ _ t' _ Hrow).
    destruct (decide (Z.of_nat r `mod` 2 = 0)) as [Heven|Hodd].
    + case_decide; simpl; eexists _, _; (split; [done|]); split; simpl;
        [by eauto| |by eauto|]; intros Hn.
      * by destruct row_pairs.
      * apply Hpairs. left. destruct Hn as [?|[? _]]; [|lia].
        destruct r as [|[|r]]; [lia|done|lia].
    + destruct (Hprev Hodd) as [p ->]. simpl.
      eexists _, _. split; [done|]. split; simpl; [by eauto|].
      intros _. by destruct row_pairs.
  - destruct Hcols as (t & Hrun). exists t. by rewrite (bind_raise _ _ t _ Hrun).
Qed.

Lemma row_loop_cases :
  (0 < w)%nat →
  if forallb (row_full g w) (seq 0 h)
  then ∃ t st', foldM (Mosaic.row_step g x_overlap y_overlap stats al) (seq 0 h)
                  (None, None, []) = (t, Ok st') ∧ st'.2 ≠ []
  else ∃ t, foldM (Mosaic.row_step g x_overlap y_overlap stats al) (seq 0 h)
              (None, None, []) = (t, Raise AttributeError).
Proof.
  intros Hw.
  pose proof (foldM_cases AttributeError (row_full g w)
                (Mosaic.row_step g x_overlap y_overlap stats al) (seq 0 h)
                (row_inv h) (None, None, [])) as H.
  destruct (forallb _ _).
  - destruct H as (t & st' & Hrun & [_ Hinv]).
    + intros i r st [-> Hi]%lookup_seq Hst. by apply row_step_cases.
    + split; simpl; [done|lia].
    + exists t, st'. split; [done|]. apply Hinv. rewrite length_seq. lia.
  - apply H.
    + intros i r st [-> Hi]%lookup_seq Hst. by apply row_step_cases.
    + split; simpl; [done|lia].
Qed.

End mosaic_loops.

(** ** C10: [Mosaic.create] and dense grids *)

Lemma all_full_spec (g : grid) (h w : nat) :
  forallb (row_full g w) (seq 0 h) = true
  ↔ ∀ r c, (r < h)%nat → (c < w)%nat → cell_full g r c = true.
Proof.
  rewrite forallb_forall. unfold row_full. split.
  - intros H r c Hr Hc. specialize (H r). rewrite forallb_forall in H.
    apply H; apply in_seq; lia.
  - intros H r Hr%in_seq. apply forallb_forall. intros c Hc%in_seq.
    apply H; lia.
Qed.

Lemma cell_full_occupant images g r c :
  grid_get g r c = Ok (occupant images r c) →
  cell_full g r c = true ↔ ∃ im, im ∈ images ∧ position im = (r, c).
Proof.
  intros Hget. unfold cell_full. rewrite Hget.
  destruct (occupant images r c) as [im|] eqn:Hocc.
  - split; [|done]. intros _. exists im. by apply occupant_Some.
  - split; [done|]. intros (im & Him & Hpos).
    by destruct (occupant_None images r c Hocc im Him).
Qed.

Lemma dense_nonempty images : dense images → images ≠ [].
Proof.
  intros Hd ->. destruct (Hd 0%nat 0%nat) as (im & Him & _); [done|done|].
  by apply elem_of_nil in Him.
Qed.

(** Past the argument check and with at least one image, [Mosaic.create]
    returns a plane when every cell of its grid holds an image and ends in
    [AttributeError] otherwise. *)
Lemma mosaic_create_cases images dx dy stats al x y :
  images ≠ [] →
  check_displacements dx dy = Ok (x, y) →
  ∃ g, Mosaic._build_image_grid images = Ok g
    ∧ shape g = (max_row images + 1, max_column images + 1)%nat
    ∧ (∀ r c, (r ≤ max_row images)%nat → (c ≤ max_column images)%nat →
         grid_get g r c = Ok (occupant images r c))
    ∧ if forallb (row_full g (max_column images + 1))
                 (seq 0 (max_row images + 1))
      then ∃ t p, Mosaic.create images dx dy stats al = (t, Ok p)
      else ∃ t, Mosaic.create images dx dy stats al = (t, Raise AttributeError).
Proof.
  intros Hne Hc. destruct (mosaic_grid_spec images Hne) as (g & Hg & Hwf & Hcell).
  pose proof (wf_grid_shape (max_row images + 1) _ g ltac:(lia) Hwf) as Hshape.
  exists g. split; [done|]. split; [done|]. split; [done|].
  unfold Mosaic.create. rewrite Hc, bind_lift_ok, Hg, bind_lift_ok, Hshape.
  cbn [fst snd].
  pose proof (row_loop_cases g (max_row images + 1) (max_column images + 1)
                (- x) (- y) stats al Hwf ltac:(lia) ltac:(lia)) as Hloop.
  destruct (forallb _ _).
  - destruct Hloop as (t & [[pi pr] row_pairs] & Hrun & Hpairs).
    rewrite (bind_ok _ _ t _ Hrun). simpl in *.
    destruct (reduceM_join_ok Vips.vertical (- y) row_pairs Hpairs)
      as (t' & p & ->).
    by eexists _, _.
  - destruct Hloop as (t & Hrun). exists t. by rewrite (bind_raise _ _ t _ Hrun).
Qed.

(** C10.  Let [dx] and [dy] be valid.  When every position up to the largest
    recorded row and column is occupied by some input image, every cell of
    the grid of [Mosaic.create] holds an image and the stitching returns a
    plane: no empty cell is dereferenced.  When the occupied positions leave a
    gap, [Mosaic.create] fails: it ends in the [AttributeError] of the access
    to the empty cell. *)
Theorem mosaic_needs_dense_grid (images : list ChannelImage) (dx dy : value)
    (stats : option IllumstatsImages) (al : bool) :
  nonneg_int dx → nonneg_int dy →
  (dense images →
     ∃ g, Mosaic._build_image_grid images = Ok g
       ∧ (∀ r c, (r < (shape g).1)%nat → (c < (shape g).2)%nat →
            ∃ im, grid_get g r c = Ok (Some im))
       ∧ ∃ t p, Mosaic.create images dx dy stats al = (t, Ok p))
  ∧ (images ≠ [] →
     (∃ r c, (r ≤ max_row images)%nat ∧ (c ≤ max_column images)%nat
           ∧ ∀ im, im ∈ images → position im ≠ (r, c)) →
     outcome (Mosaic.create images dx dy stats al) = Raise AttributeError).
Proof.
  intros Hx Hy.
  destruct (check_displacements_ok dx dy Hx Hy) as (x & y & Hc & _).
  split.
  - intros Hd. pose proof (dense_nonempty images Hd) as Hne.
    destruct (mosaic_create_cases images dx dy stats al x y Hne Hc)
      as (g & Hg & Hshape & Hcell & Hrun).
    assert (∀ r c, (r < max_row images + 1)%nat → (c < max_column images + 1)%nat →
                   cell_full g r c = true) as Hfull.
    { intros r c Hr Hcc. apply (cell_full_occupant images).
      - apply Hcell; lia.
      - apply Hd; lia. }
    exists g. split; [done|]. split.
    + rewrite Hshape. intros r c Hr Hcc. specialize (Hfull r c Hr Hcc).
      unfold cell_full in Hfull.
      destruct (grid_get g r c) as [[im|]|]; try done. by exists im.
    + apply all_full_spec in Hfull. by rewrite Hfull in Hrun.
  - intros Hne (r & c & Hr & Hcc & Hgap).
    destruct (mosaic_create_cases images dx dy stats al x y Hne Hc)
      as (g & Hg & Hshape & Hcell & Hrun).
    destruct (forallb _ _) eqn:Hall.
    + exfalso. rewrite all_full_spec in Hall.
      specialize (Hall r c ltac:(lia) ltac:(lia)).
      apply (cell_full_occupant images) in Hall as (im & Him & Hpos);
        [|by apply Hcell].
      by apply (Hgap im).
    + destruct Hrun as (t & ->). done.
Qed.

(** Four images on a full two-by-two grid are stitched; without the image at
    [(1, 0)] the stitching fails. *)
Lemma mosaic_needs_dense_grid_witness :
  (∃ t p, Mosaic.create [Sample.a; Sample.b; Sample.c; Sample.d]
            (PyInt 0) (PyInt 0) None false = (t, Ok p))
  ∧ outcome (Mosaic.create [Sample.a; Sample.b; Sample.d]
               (PyInt 0) (PyInt 0) None false) = Raise AttributeError.
Proof.
  assert (nonneg_int (PyInt 0)) as H0 by (exists 0; split; [done|lia]).
  split.
  - pose proof (mosaic_needs_dense_grid [Sample.a; Sample.b; Sample.c; Sample.d]
                  _ _ None false H0 H0) as [H _].
    destruct H as (g & _ & _ & Hrun); [|done].
    intros r c Hr Hc. change (r ≤ 1)%nat in Hr. change (c ≤ 1)%nat in Hc.
    destruct r as [|[|r]]; [| |lia]; (destruct c as [|[|c]]; [| |lia]).
    + exists Sample.a. split; [|done]. repeat constructor.
    + exists Sample.b. split; [|done]. repeat constructor.
    + exists Sample.c. split; [|done]. repeat constructor.
    + exists Sample.d. split; [|done]. repeat constructor.
  - pose proof (mosaic_needs_dense_grid [Sample.a; Sample.b; Sample.d]
                  _ _ None false H0 H0) as [_ H].
    apply H; [done|]. exists 1%nat, 0%nat.
    split; [done|]. split; [apply Nat.le_0_l|].
    intros im Him.
    apply elem_of_cons in Him as [->|Him]; [done|].
    apply elem_of_cons in Him as [->|Him]; [done|].
    apply list_elem_of_singleton in Him as ->. done.
Defined.

(** ** C8: the stitch dimension law *)

Lemma check_displacements_PyInt (dx dy : Z) :
  0 ≤ dx → 0 ≤ dy →
  check_displacements (PyInt dx) (PyInt dy) = Ok (dx, dy).
Proof.
  intros Hx Hy. unfold check_displacements, check_displacement. simpl.
  rewrite !decide_False by lia. done.
Qed.

(** C8.  Two planes of height [H] and width [W], joined horizontally with
    shim [-dx], give a plane of width [2 W - dx] and height [H]; joined
    vertically with shim [-dy], a plane of height [2 H - dy] and width [W].
    These are the joins [Mosaic.create] makes for two images side by side,
    and for two images one above the other. *)
Theorem stitch_dimension_law (im1 im2 : ChannelImage) (dx dy H W : Z) :
  0 ≤ dx → 0 ≤ dy →
  dimensions im1 = (H, W) → dimensions im2 = (H, W) →
  position im1 = (0, 0)%nat →
  (let p := Vips.join (pixels im1) (pixels im2) Vips.horizontal (- dx) in
   Vips.width p = 2 * W - dx ∧ Vips.height p = H
   ∧ (position im2 = (0, 1)%nat →
      Mosaic.create [im1; im2] (PyInt dx) (PyInt dy) None false
      = ([OpJoin Vips.horizontal (- dx)], Ok p)))
  ∧ (let p := Vips.join (pixels im1) (pixels im2) Vips.vertical (- dy) in
     Vips.height p = 2 * H - dy ∧ Vips.width p = W
     ∧ (position im2 = (1, 0)%nat →
        Mosaic.create [im1; im2] (PyInt dx) (PyInt dy) None false
        = ([OpJoin Vips.vertical (- dy)], Ok p))).
Proof.
  intros Hdx Hdy.
  destruct im1 as [[n1 cy1 ch1 y1 x1] [h1 w1 f1]].
  destruct im2 as [[n2 cy2 ch2 y2 x2] [h2 w2 f2]].
  unfold dimensions, position. simpl.
  intros [= -> ->] [= -> ->] [= -> ->].
  split; (split; [lia|split; [lia|]]); intros [= -> ->];
    unfold Mosaic.create;
    rewrite check_displacements_PyInt, bind_lift_ok by done; reflexivity.
Qed.

Lemma stitch_dimension_law_witness :
  Mosaic.create [Sample.a; Sample.b] (PyInt 3) (PyInt 2) None false
  = ([OpJoin Vips.horizontal (-3)],
     Ok {| Vips.height := 10; Vips.width := 37; Vips.format := Vips.UCHAR |})
  ∧ Mosaic.create [Sample.a; Sample.c] (PyInt 3) (PyInt 2) None false
  = ([OpJoin Vips.vertical (-2)],
     Ok {| Vips.height := 18; Vips.width := 20; Vips.format := Vips.UCHAR |}).
Proof.
  split.
  - pose proof (stitch_dimension_law Sample.a Sample.b 3 2 10 20
                  ltac:(lia) ltac:(lia) eq_refl eq_refl eq_refl) as [(_ & _ & H) _].
    exact (H eq_refl).
  - pose proof (stitch_dimension_law Sample.a Sample.c 3 2 10 20
                  ltac:(lia) ltac:(lia) eq_refl eq_refl eq_refl) as [_ (_ & _ & H)].
    exact (H eq_refl).
Defined.

(** ** C4: pyramid tiles, their key and their location *)

Lemma string_app_nil (t : string) : "" +:+ t = t.
Proof. reflexivity. Qed.

Lemma string_app_cons (c : ascii) (s t : string) :
  String c s +:+ t = String c (s +:+ t).
Proof. reflexivity. Qed.

Ltac string_app := rewrite ?string_app_cons, ?string_app_nil in *.

Lemma string_app_assoc (s1 s2 s3 : string) :
  (s1 +:+ s2) +:+ s3 = s1 +:+ s2 +:+ s3.
Proof. induction s1 as [|c s1 IH]; string_app; [done|]. by rewrite IH. Qed.

Lemma has_slash_app s1 s2 : has_slash (s1 +:+ s2) = has_slash s1 || has_slash s2.
Proof.
  induction s1 as [|c s1 IH]; string_app; simpl; [done|].
  rewrite IH. by rewrite orb_assoc.
Qed.

Lemma endswith_slash_has_slash s :
  posixpath.endswith_slash s = true → has_slash s = true.
Proof.
  induction s as [|c s IH]; simpl; [done|]. destruct s as [|c' s].
  - intros ->. done.
  - intros H. rewrite (IH H). apply orb_true_r.
Qed.

Lemma endswith_slash_app s1 s2 :
  s2 ≠ "" → posixpath.endswith_slash (s1 +:+ s2) = posixpath.endswith_slash s2.
Proof.
  intros Hne. induction s1 as [|c s1 IH]; string_app; [done|].
  simpl. destruct (s1 +:+ s2) eqn:E; [|done].
  destruct s1; string_app; [done|discriminate].
Qed.

(** Strings without a separator are determined by what precedes the first
    separator. *)
Lemma split_at_slash d1 d2 r1 r2 :
  has_slash d1 = false → has_slash d2 = false →
  d1 +:+ "/" +:+ r1 = d2 +:+ "/" +:+ r2 → d1 = d2.
Proof.
  revert d2. induction d1 as [|c d1 IH]; intros [|c' d2]; string_app; simpl;
    try done.
  - intros _ [Hc _]%orb_false_elim [= <- _]. by apply bool_decide_eq_false in Hc.
  - intros [Hc _]%orb_false_elim _ [= -> _]. by apply bool_decide_eq_false in Hc.
  - intros [_ H1]%orb_false_elim [_ H2]%orb_false_elim [= -> Heq].
    f_equal. by apply IH.
Qed.

Lemma pretty_N_go_no_slash (x : N) (s : string) :
  has_slash (pretty_N_go x s) = has_slash s.
Proof.
  revert s. induction (N.lt_wf_0 x) as [x _ IH]; intros s.
  assert (x = 0 ∨ 0 < x)%N as [->|Hx] by lia.
  - by rewrite pretty_N_go_0.
  - rewrite pretty_N_go_step by done. rewrite IH by (by apply N.div_lt).
    simpl. unfold pretty_N_char. by repeat case_match.
Qed.

Lemma pretty_Z_no_slash (z : Z) : has_slash (pretty z) = false.
Proof.
  assert (∀ p : positive, has_slash (pretty p) = false) as Hpos.
  { intros p. unfold pretty, pretty_positive, pretty, pretty_N.
    case_decide; [done|]. by rewrite pretty_N_go_no_slash. }
  unfold pretty, pretty_Z. destruct z as [|p|p]; [done|apply Hpos|].
  rewrite has_slash_app, Hpos. done.
Qed.

Lemma tile_group_no_slash f : has_slash (PyramidTileFile.tile_group f) = false.
Proof.
  unfold PyramidTileFile.tile_group. rewrite has_slash_app, pretty_Z_no_slash. done.
Qed.

(** The location of a tile whose name is a relative path: the location of
    the layer, the tile group and the name, in this order. *)
Lemma location_relative (st : PyramidTileFile.store) (f : PyramidTileFile.t) loc :
  PyramidTileFile.layers st !! PyramidTileFile.channel_layer_id f = Some loc →
  posixpath.startswith_slash (PyramidTileFile.name f) = false →
  PyramidTileFile.location st f =
    Ok ((if bool_decide (loc = "") || posixpath.endswith_slash loc
         then loc else loc +:+ "/")
        +:+ PyramidTileFile.tile_group f +:+ "/" +:+ PyramidTileFile.name f).
Proof.
  intros Hl Hn. unfold PyramidTileFile.location. rewrite Hl. f_equal.
  unfold posixpath.join. simpl.
  set (P := if bool_decide (loc = "") || posixpath.endswith_slash loc
            then loc else loc +:+ "/").
  assert (PyramidTileFile.tile_group f ≠ "") as Htg.
  { unfold PyramidTileFile.tile_group. by string_app. }
  assert (posixpath.join2 loc (PyramidTileFile.tile_group f) =
          P +:+ PyramidTileFile.tile_group f) as ->.
  { unfold posixpath.join2, P.
    assert (posixpath.startswith_slash (PyramidTileFile.tile_group f) = false)
      as -> by (unfold PyramidTileFile.tile_group; by string_app).
    destruct (bool_decide (loc = "") || posixpath.endswith_slash loc); [done|].
    by rewrite string_app_assoc. }
  unfold posixpath.join2. rewrite Hn.
  rewrite (bool_decide_eq_false_2 (P +:+ _ = "")).
  2:{ destruct P; string_app; done. }
  rewrite endswith_slash_app by done.
  destruct (posixpath.endswith_slash (PyramidTileFile.tile_group f)) eqn:E.
  - apply endswith_slash_has_slash in E. by rewrite tile_group_no_slash in E.
  - simpl. by rewrite !string_app_assoc.
Qed.

(** Tiles of one layer with one name lie at different locations when their
    groups differ. *)
Lemma location_group_inj (st : PyramidTileFile.store) (f1 f2 : PyramidTileFile.t) l1 l2 :
  PyramidTileFile.channel_layer_id f1 = PyramidTileFile.channel_layer_id f2 →
  PyramidTileFile.name f1 = PyramidTileFile.name f2 →
  posixpath.startswith_slash (PyramidTileFile.name f1) = false →
  PyramidTileFile.location st f1 = Ok l1 →
  PyramidTileFile.location st f2 = Ok l2 →
  l1 = l2 → PyramidTileFile.group f1 = PyramidTileFile.group f2.
Proof.
  intros Hid Hname Hrel H1 H2 <-.
  destruct (PyramidTileFile.layers st !! PyramidTileFile.channel_layer_id f1)
    as [loc|] eqn:Hl; [|unfold PyramidTileFile.location in H1; by rewrite Hl in H1].
  rewrite (location_relative st f1 loc Hl Hrel) in H1.
  rewrite (location_relative st f2 loc) in H2 by congruence.
  rewrite <- H2 in H1. injection H1 as H1.
  apply String.app_inj in H1.
  apply split_at_slash in H1; try apply tile_group_no_slash.
  unfold PyramidTileFile.tile_group in H1. apply String.app_inj in H1.
  by apply pretty_Z_inj in H1.
Qed.

Lemma put_spec (f : PyramidTileFile.t) p st loc :
  PyramidTileFile.location st f = Ok loc →
  PyramidTileFile.put f p st =
    Ok {| PyramidTileFile.layers := PyramidTileFile.layers st;
          PyramidTileFile.files := <[loc := p]> (PyramidTileFile.files st) |}.
Proof. intros H. unfold PyramidTileFile.put. by rewrite H. Qed.

Lemma location_layers st st' (f : PyramidTileFile.t) :
  PyramidTileFile.layers st' = PyramidTileFile.layers st →
  PyramidTileFile.location st' f = PyramidTileFile.location st f.
Proof. intros H. unfold PyramidTileFile.location. by rewrite H. Qed.

Lemma get_spec (f : PyramidTileFile.t) st st' loc :
  PyramidTileFile.layers st' = PyramidTileFile.layers st →
  PyramidTileFile.location st f = Ok loc →
  PyramidTileFile.get f st' =
    match PyramidTileFile.files st' !! loc with
    | Some pixels => Ok pixels
    | None => Raise IOError
    end.
Proof.
  intros Hl H. unfold PyramidTileFile.get.
  by rewrite (location_layers st st' f Hl), H.
Qed.

Lemma add_spec (f : PyramidTileFile.t) (table : list PyramidTileFile.t) :
  (PyramidTileFile.key f ∈ (PyramidTileFile.key <$> table)
   ∧ PyramidTileFile.add f table = Raise IntegrityError)
  ∨ ((PyramidTileFile.key f ∉ (PyramidTileFile.key <$> table))
     ∧ PyramidTileFile.add f table = Ok (table ++ [f])).
Proof.
  unfold PyramidTileFile.add. case_decide as H.
  - left. split; [|done]. apply Exists_exists in H as (f' & Hin & Hk).
    apply list_elem_of_fmap. by exists f'.
  - right. split; [|done]. intros (f' & Hk & Hin)%list_elem_of_fmap.
    apply H, Exists_exists. by exists f'.
Qed.

(** C4 (as amended).  The table holds at most one row for a tuple (level,
    row, column, channel-layer id), whatever the group: a second row with the
    tuple is refused.  [put] writes at the location made of the layer's
    location, the tile group and the name.  Two [put]s at one location (same
    layer, group and name) leave the later plane there.  Two [put]s of tiles
    of one layer and one relative name but of different groups go to
    different locations, and both planes stay in the store. *)
Theorem tile_key_and_location :
  (∀ table f table',
     unique_keys table → PyramidTileFile.add f table = Ok table' →
     table' = table ++ [f] ∧ unique_keys table')
  ∧ (∀ table f f',
       f' ∈ table → PyramidTileFile.key f' = PyramidTileFile.key f →
       PyramidTileFile.add f table = Raise IntegrityError)
  ∧ (∀ st f1 f2 p1 p2 loc,
       PyramidTileFile.location st f1 = Ok loc →
       PyramidTileFile.location st f2 = Ok loc →
       ∃ st1 st2,
         PyramidTileFile.put f1 p1 st = Ok st1
         ∧ PyramidTileFile.put f2 p2 st1 = Ok st2
         ∧ PyramidTileFile.files st2 = <[loc := p2]> (PyramidTileFile.files st)
         ∧ PyramidTileFile.get f1 st2 = Ok p2
         ∧ PyramidTileFile.get f2 st2 = Ok p2)
  ∧ (∀ st f1 f2 p1 p2,
       is_Some (PyramidTileFile.layers st !! PyramidTileFile.channel_layer_id f1) →
       PyramidTileFile.channel_layer_id f1 = PyramidTileFile.channel_layer_id f2 →
       PyramidTileFile.name f1 = PyramidTileFile.name f2 →
       posixpath.startswith_slash (PyramidTileFile.name f1) = false →
       PyramidTileFile.group f1 ≠ PyramidTileFile.group f2 →
       ∃ st1 st2 l1 l2,
         PyramidTileFile.put f1 p1 st = Ok st1
         ∧ PyramidTileFile.put f2 p2 st1 = Ok st2
         ∧ PyramidTileFile.location st f1 = Ok l1
         ∧ PyramidTileFile.location st f2 = Ok l2
         ∧ l1 ≠ l2
         ∧ PyramidTileFile.get f1 st2 = Ok p1
         ∧ PyramidTileFile.get f2 st2 = Ok p2).
Proof.
  split; [|split; [|split]].
  - intros table f table' Hu Hadd.
    destruct (add_spec f table) as [[_ H]|[Hk H]]; rewrite H in Hadd; [done|].
    injection Hadd as <-. split; [done|].
    unfold unique_keys in *. rewrite fmap_app. simpl.
    apply NoDup_app. split; [done|]. split; [|apply NoDup_singleton].
    intros k Hin Hk'%list_elem_of_singleton. by subst.
  - intros table f f' Hin Hk.
    destruct (add_spec f table) as [[_ H]|[Hn _]]; [done|].
    destruct Hn. rewrite <- Hk. by apply list_elem_of_fmap_2.
  - intros st f1 f2 p1 p2 loc H1 H2.
    eexists _, _. rewrite (put_spec f1 p1 st loc H1).
    split; [done|]. rewrite (put_spec f2 p2 _ loc) by done. simpl.
    split; [done|]. split; [by rewrite insert_insert_eq|].
    rewrite (get_spec f1 st _ loc), (get_spec f2 st _ loc) by done. simpl.
    by rewrite !lookup_insert_eq.
  - intros st f1 f2 p1 p2 [loc Hl] Hid Hname Hrel Hg.
    destruct (PyramidTileFile.location st f1) as [l1|] eqn:H1;
      [|unfold PyramidTileFile.location in H1; by rewrite Hl in H1].
    destruct (PyramidTileFile.location st f2) as [l2|] eqn:H2;
      [|unfold PyramidTileFile.location in H2; by rewrite <- Hid, Hl in H2].
    assert (l1 ≠ l2) as Hne.
    { intros Heq. by apply Hg, (location_group_inj st f1 f2 l1 l2). }
    eexists _, _, l1, l2. rewrite (put_spec f1 p1 st l1 H1).
    split; [done|]. rewrite (put_spec f2 p2 _ l2) by done. simpl.
    do 4 (split; [done|]).
    rewrite (get_spec f1 st _ l1), (get_spec f2 st _ l2) by done. simpl.
    rewrite lookup_insert_eq. rewrite lookup_insert_ne by done.
    by rewrite lookup_insert_eq.
Qed.

(** C4 (as stated) fails.  The same tile, first in group 0 and then in group
    1: both [put]s succeed, the store holds two files, and reading the tile
    of group 0 still gives the plane written first. *)
Lemma tile_written_under_two_groups :
  PyramidTileFile.key (Sample.tile 0) = PyramidTileFile.key (Sample.tile 1)
  ∧ ∃ st1 st2,
      PyramidTileFile.put (Sample.tile 0) Sample.dark Sample.layer1 = Ok st1
      ∧ PyramidTileFile.put (Sample.tile 1) Sample.bright st1 = Ok st2
      ∧ size (PyramidTileFile.files st2) = 2%nat
      ∧ PyramidTileFile.get (Sample.tile 0) st2 = Ok Sample.dark
      ∧ PyramidTileFile.get (Sample.tile 1) st2 = Ok Sample.bright
      ∧ Sample.dark ≠ Sample.bright.
Proof.
  split; [done|]. eexists _, _.
  split; [reflexivity|]. split; [reflexivity|].
  split; [by vm_compute|]. split; [by vm_compute|]. split; [by vm_compute|done].
Qed.

(** ** C2: run and collect job descriptions *)

Section job_descriptions.

Context `{Environment}.
Import MetadataConfigurator.

Lemma run_loop_spec (kwargs : gmap string value) (z_stacks : value) :
  kwargs !! "z_stacks" = Some z_stacks →
  ∀ (us : list Upload) (k : nat) (acc : list description),
    rfold (λ run_jobs '(i, upload),
           rbind (dict_get kwargs "z_stacks") (λ z_stacks,
           Ok (run_jobs ++ [run_description i upload z_stacks kwargs])))
          (zip (seq k (length us)) us) acc
    = Ok (acc ++ ((λ iu, run_description iu.1 iu.2 z_stacks kwargs)
                    <$> zip (seq k (length us)) us)).
Proof.
  intros Hz. induction us as [|u us IH]; intros k acc; simpl.
  - by rewrite app_nil_r.
  - unfold dict_get at 1. rewrite Hz. simpl. rewrite IH.
    by rewrite <- app_assoc.
Qed.

Lemma run_description_section (i : nat) (u : Upload) z_stacks
    (kwargs : gmap string value) (section : string) :
  kwargs !! section = None →
  run_description i u z_stacks kwargs !! section
  = run_description i u z_stacks ∅ !! section.
Proof.
  intros Hk. unfold run_description, update.
  rewrite !lookup_union_r; [done| |].
  - by rewrite fmap_empty.
  - by rewrite lookup_fmap, Hk.
Qed.

Lemma run_description_files (i : nat) (u : Upload) z_stacks
    (kwargs : gmap string value) :
  kwargs !! "inputs" = None → kwargs !! "outputs" = None →
  (∀ field,
     files_of (run_description i u z_stacks kwargs) "inputs" field
     = if decide (field = "uploaded_image_files")
       then (λ f, posixpath.join (image_dir u) [f]) <$> image_files u
       else if decide (field = "uploaded_additional_files")
       then (λ f, posixpath.join (additional_dir u) [f]) <$> additional_files u
       else if decide (field = "ome_xml_files")
       then (λ f, posixpath.join (ome_xml_dir u) [f]) <$> ome_xml_files u
       else [])
  ∧ ∀ field,
      files_of (run_description i u z_stacks kwargs) "outputs" field
      = if decide (field = "metadata_files")
        then [posixpath.join (upload_dir u) [image_metadata_file u]]
        else if decide (field = "mapper_files")
        then [posixpath.join (upload_dir u) [image_mapper_file u]]
        else [].
Proof.
  intros Hin Hout. unfold files_of.
  split; intros field;
    rewrite run_description_section by done;
    unfold run_description, update, paths_in;
    rewrite fmap_empty, (left_id_L ∅ (∪)).
  - rewrite lookup_insert_ne, lookup_insert_eq by done.
    destruct (decide (field = "uploaded_image_files")) as [->|H1];
      [by simplify_map_eq|].
    destruct (decide (field = "uploaded_additional_files")) as [->|H2];
      [by simplify_map_eq|].
    destruct (decide (field = "ome_xml_files")) as [->|H3];
      by simplify_map_eq.
  - rewrite lookup_insert_ne, lookup_insert_ne, lookup_insert_eq by done.
    destruct (decide (field = "metadata_files")) as [->|H1];
      [by simplify_map_eq|].
    destruct (decide (field = "mapper_files")) as [->|H2]; by simplify_map_eq.
Qed.

Lemma collect_description_files (experiment : Experiment) (field : string) :
  files_of (collect_description experiment) "inputs" field
  = if decide (field = "metadata_files")
    then (λ u, posixpath.join (upload_dir u) [image_metadata_file u])
           <$> uploads experiment
    else if decide (field = "mapper_files")
    then (λ u, posixpath.join (upload_dir u) [image_mapper_file u])
           <$> uploads experiment
    else [].
Proof.
  unfold files_of, collect_description. rewrite lookup_insert_eq.
  destruct (decide (field = "metadata_files")) as [->|H1]; [by simplify_map_eq|].
  destruct (decide (field = "mapper_files")) as [->|H2]; by simplify_map_eq.
Qed.

(** C2.  For an experiment with U uploads and supported arguments that
    leave [inputs] and [outputs] to the job descriptions,
    [create_job_descriptions] returns U run descriptions.  The i-th has the
    raw files of the i-th upload as inputs: every image file, additional
    file and OME-XML file of the upload, in the order of the upload, each as
    the path of the file in its directory, and nothing else; its outputs are
    the metadata file and the mapper file in the directory of the upload.
    There is one collect description, whose input files are, field by
    field, the output files of the run descriptions one after the other:
    none missing, none added. *)
Theorem partition_completeness (experiment : Experiment)
    (kwargs : gmap string value) (format z_stacks : value) :
  kwargs !! "format" = Some format →
  format = PyStr "default" ∨ format_supported format = true →
  kwargs !! "z_stacks" = Some z_stacks →
  kwargs !! "inputs" = None → kwargs !! "outputs" = None →
  ∃ jd, create_job_descriptions experiment kwargs = Ok jd
    ∧ length (run jd) = length (uploads experiment)
    ∧ (∀ i u, uploads experiment !! i = Some u →
         ∃ d, run jd !! i = Some d
           ∧ files_of d "inputs" "uploaded_image_files"
             = (λ f, posixpath.join (image_dir u) [f]) <$> image_files u
           ∧ files_of d "inputs" "uploaded_additional_files"
             = (λ f, posixpath.join (additional_dir u) [f])
                 <$> additional_files u
           ∧ files_of d "inputs" "ome_xml_files"
             = (λ f, posixpath.join (ome_xml_dir u) [f]) <$> ome_xml_files u
           ∧ (∀ field,
                field ≠ "uploaded_image_files" →
                field ≠ "uploaded_additional_files" →
                field ≠ "ome_xml_files" →
                files_of d "inputs" field = [])
           ∧ files_of d "outputs" "metadata_files"
             = [posixpath.join (upload_dir u) [image_metadata_file u]]
           ∧ files_of d "outputs" "mapper_files"
             = [posixpath.join (upload_dir u) [image_mapper_file u]])
    ∧ (∀ field,
         files_of (collect jd) "inputs" field
         = concat ((λ d, files_of d "outputs" field) <$> run jd)).
Proof.
  intros Hf Hsup Hz Hin Hout. unfold create_job_descriptions.
  unfold dict_get at 1. rewrite Hf. simpl.
  assert ((if bool_decide (format ≠ PyStr "default")
           then if negb (format_supported format)
                then Raise NotSupportedError else Ok ()
           else Ok ()) = Ok ()) as ->.
  { destruct Hsup as [-> | ->]; [|by case_bool_decide].
    by rewrite bool_decide_eq_false_2 by (intros ?; done). }
  simpl. rewrite (run_loop_spec kwargs z_stacks Hz). simpl.
  eexists. split; [done|]. simpl.
  set (us := uploads experiment).
  split; [|split].
  - rewrite length_fmap, length_zip, length_seq. lia.
  - intros i u Hu. eexists. rewrite list_lookup_fmap.
    assert (zip (seq 0 (length us)) us !! i = Some (i, u)) as ->.
    { apply lookup_zip_with_Some. exists i, u. split; [done|].
      split; [|done]. apply lookup_seq. split; [done|].
      by apply lookup_lt_Some in Hu. }
    simpl. split; [done|].
    destruct (run_description_files i u z_stacks kwargs Hin Hout)
      as [Hinputs Houtputs].
    rewrite !Hinputs, !Houtputs. repeat split.
    intros field H1 H2 H3. rewrite Hinputs. by rewrite !decide_False.
  - intros field. rewrite collect_description_files. fold us.
    generalize 0%nat. induction us as [|u us IH]; intros k.
    + by repeat case_decide.
    + cbn [length seq zip zip_with fmap list_fmap concat fst snd].
      destruct (run_description_files k u z_stacks kwargs Hin Hout)
        as [_ ->].
      specialize (IH (S k)). cbn [fmap] in IH. rewrite <- IH.
      by repeat case_decide.
Qed.

End job_descriptions.

(** ** C5: the fallback to the stitch layout *)

Section run_job_properties.

Import MetadataConfigurator.
Context {H : Type} `{MetadataHandler H} `{Environment} `{Writers}.

Lemma sbind_ok {St A B} (m : stateful St A) (k : A → stateful St B) st st' a :
  m st = (st', Ok a) → sbind m k st = k a st'.
Proof. intros Hm. unfold sbind. by rewrite Hm. Qed.

Lemma sbind_raise {St A B} (m : stateful St A) (k : A → stateful St B) st st' e :
  m st = (st', Raise e) → sbind m k st = (st', Raise e).
Proof. intros Hm. unfold sbind. by rewrite Hm. Qed.

(** An exception of the stage-position strategy other than [MetadataError]
    is not caught. *)
Lemma other_errors_propagate (batch : description) (st : run_state H) h' e :
  determine_grid_coordinates_from_stage_positions (handler st) = (h', Raise e) →
  e ≠ MetadataError →
  (grid_coordinates batch st).2 = Raise e.
Proof.
  intros Hs He. unfold grid_coordinates, try_except, call. rewrite Hs.
  by rewrite decide_False.
Qed.

(** C5.  When, in a run job that got as far as the grid coordinates, the
    stage-position strategy raises [MetadataError], the error is caught and
    the layout strategy is called on the handler instead; the job goes on
    from there, so that it ends the way the layout strategy and the steps
    after it end, and succeeds when they do. *)
Theorem stage_position_error_is_caught (batch : description)
    (st st1 : run_state H) (h' : H) :
  configure batch st = (st1, Ok tt) →
  determine_grid_coordinates_from_stage_positions (handler st1)
    = (h', Raise MetadataError) →
  let st2 := {| handler := h';
                calls := calls st1 ++ [Grid_coordinates_from_stage_positions];
                written := written st1 |} in
  grid_coordinates batch st1 = layout_fallback batch st2
  ∧ run_body batch st = sbind (layout_fallback batch) (λ _, finish batch) st2
  ∧ (∀ layout axis vertical horizontal,
       batch !! "stitch_layout" = Some layout →
       batch !! "stitch_major_axis" = Some axis →
       batch !! "stitch_vertical" = Some vertical →
       batch !! "stitch_horizontal" = Some horizontal →
       grid_coordinates batch st1
       = call (Grid_coordinates_from_layout layout axis (vertical, horizontal))
              (determine_grid_coordinates_from_layout layout axis
                 (vertical, horizontal)) st2)
  ∧ (∀ st3 st4,
       layout_fallback batch st2 = (st3, Ok tt) →
       finish batch st3 = (st4, Ok tt) →
       run_body batch st = (st4, Ok tt)).
Proof.
  intros Hc Hs st2.
  assert (grid_coordinates batch st1 = layout_fallback batch st2) as Hg.
  { unfold grid_coordinates, try_except, call. rewrite Hs.
    by rewrite decide_True. }
  assert (run_body batch st = sbind (layout_fallback batch) (λ _, finish batch) st2)
    as Hr.
  { unfold run_body. rewrite (sbind_ok _ _ _ _ _ Hc).
    unfold sbind at 1. rewrite Hg. done. }
  split; [done|]. split; [done|]. split.
  - intros layout axis vertical horizontal Hl Ha Hv Hh. rewrite Hg.
    unfold layout_fallback, sbind, slift, dict_get.
    by rewrite Hl, Ha, Hv, Hh.
  - intros st3 st4 Hl Hf. rewrite Hr. by rewrite (sbind_ok _ _ _ _ _ Hl).
Qed.

End run_job_properties.

(** A run job whose handler has no stage positions: the stage-position
    strategy is called and raises, the layout strategy is called next, and
    the job ends well with its two files written. *)
Lemma stage_position_error_is_caught_witness :
  ∃ st,
    @MetadataConfigurator.run_body string Sample.no_stage_positions
      Sample.environment Sample.writers Sample.run_batch
      {| MetadataConfigurator.handler := "";
         MetadataConfigurator.calls := [];
         MetadataConfigurator.written := [] |} = (st, Ok tt)
    ∧ MetadataConfigurator.handler st = "layout"
    ∧ length (MetadataConfigurator.written st) = 2%nat.
Proof.
  eexists. split.
  - eapply (@stage_position_error_is_caught string Sample.no_stage_positions
              Sample.environment Sample.writers Sample.run_batch _ _ "");
      [reflexivity|reflexivity|reflexivity|reflexivity].
  - split; reflexivity.
Defined.

(** ** The collect step: cycles, events and the global file mapper *)

Section collect_properties.

Import MetadataConfigurator.
Context `{Environment} (experiment : Experiment).

Lemma grow_length (cycles0 : list Cycle) (n : nat) :
  length (grow cycles0 n) = (length cycles0 `max` n)%nat.
Proof. unfold grow. rewrite length_app, length_fmap, length_seq. lia. Qed.




Lemma plan_events_cons cycles0 c src p :
  plan_events experiment cycles0 c (src :: p)
  = source_events experiment cycles0 c src
    ++ plan_events experiment cycles0 (S c) p.
Proof.
  unfold plan_events. rewrite imap_cons. simpl. rewrite Nat.add_0_r.
  do 2 f_equal. apply imap_ext. intros j x _. simpl. f_equal. lia.
Qed.


Lemma plan_events_app cycles0 c p1 p2 :
  plan_events experiment cycles0 c (p1 ++ p2)
  = plan_events experiment cycles0 c p1
    ++ plan_events experiment cycles0 (c + length p1) p2.
Proof.
  revert c. induction p1 as [|src p1 IH]; intros c; simpl.
  - by rewrite Nat.add_0_r.
  - rewrite !plan_events_cons, IH, <- app_assoc. do 3 f_equal. lia.
Qed.



Lemma cycle_updates_app evs1 evs2 :
  cycle_updates (evs1 ++ evs2) = cycle_updates evs1 ++ cycle_updates evs2.
Proof. apply omap_app. Qed.


Lemma mapper_writes_app evs1 evs2 :
  mapper_writes (evs1 ++ evs2) = mapper_writes evs1 ++ mapper_writes evs2.
Proof. apply omap_app. Qed.







(** ** C1: cycles are made per upload and time point *)


(** ** C9: the global file mapper is written after each upload *)




End collect_properties.


(** An upload with two time points and a file mapper over both: the loop
    fails with [KeyError] in the first cycle, before any write of the global
    file mapper. *)
Lemma two_tpoints_upload_fails :
  ∃ st',
    @MetadataConfigurator.collect_job_output Sample.environment
      (Sample.experiment_of [Sample.upload1; Sample.upload3]) ∅ Sample.fresh
    = (st', Raise KeyError)
    ∧ cycle_updates (MetadataConfigurator.events st') = [0; 1]%nat
    ∧ length (mapper_writes (MetadataConfigurator.events st')) = 1%nat.
Proof. eexists. split; [by vm_compute|]. by vm_compute. Qed.


(** Two uploads and the default format: two run jobs, the first with the
    files of the first upload, and the collect job takes their metadata
    files. *)
Lemma partition_completeness_witness :
  ∃ jd d,
    @MetadataConfigurator.create_job_descriptions Sample.environment
      (Sample.experiment_of [Sample.upload1; Sample.upload2])
      {[ "format" := PyStr "default"; "z_stacks" := PyBool false ]} = Ok jd
    ∧ length (MetadataConfigurator.run jd) = 2%nat
    ∧ MetadataConfigurator.run jd !! 0%nat = Some d
    ∧ files_of d "inputs" "uploaded_image_files" = ["images/site0.tif"]
    ∧ files_of d "inputs" "uploaded_additional_files" = []
    ∧ files_of d "inputs" "ome_xml_files" = ["omexml/site0.ome.xml"]
    ∧ files_of d "outputs" "metadata_files"
      = ["/exp/uploads/upload_1/image_metadata.ome.xml"]
    ∧ files_of d "outputs" "mapper_files"
      = ["/exp/uploads/upload_1/image_file_mapper.json"]
    ∧ files_of (MetadataConfigurator.collect jd) "inputs" "metadata_files"
      = concat ((λ d, files_of d "outputs" "metadata_files")
                  <$> MetadataConfigurator.run jd).
Proof.
  destruct (@partition_completeness Sample.environment
              (Sample.experiment_of [Sample.upload1; Sample.upload2])
              {[ "format" := PyStr "default"; "z_stacks" := PyBool false ]}
              (PyStr "default") (PyBool false))
    as (jd & Hjd & Hlen & Hrun & Hcollect).
  - by simplify_map_eq.
  - by left.
  - by simplify_map_eq.
  - by simplify_map_eq.
  - by simplify_map_eq.
  - destruct (Hrun 0%nat Sample.upload1 eq_refl)
      as (d & Hd & Hi1 & Hi2 & Hi3 & _ & Ho1 & Ho2).
    exists jd, d. split; [exact Hjd|]. split; [exact Hlen|].
    split; [exact Hd|]. split; [exact Hi1|]. split; [exact Hi2|].
    split; [exact Hi3|]. split; [exact Ho1|]. split; [exact Ho2|].
    apply Hcollect.
Defined.

(** * Further properties of the embedded code *)

(** ** [Mosaic._build_image_grid]: which image a cell holds *)

Lemma last_filter_middle {A} (P : A → Prop) `{∀ x, Decision (P x)}
    (l1 l2 : list A) (x : A) :
  P x → Forall (λ y, ¬ P y) l2 →
  last (filter P (l1 ++ x :: l2)) = Some x.
Proof.
  intros Hx Hl2. rewrite filter_app, filter_cons_True by done.
  assert (filter P l2 = []) as ->.
  { induction Hl2 as [|y l2 Hy _ IH]; [done|]. by rewrite filter_cons_False. }
  by rewrite last_snoc.
Qed.

Lemma last_filter_Some {A} (P : A → Prop) `{∀ x, Decision (P x)}
    (l : list A) (x : A) :
  last (filter P l) = Some x →
  ∃ l1 l2, l = l1 ++ x :: l2 ∧ P x ∧ Forall (λ y, ¬ P y) l2.
Proof.
  induction l as [|y l IH] using rev_ind; [done|].
  rewrite filter_app. destruct (decide (P y)) as [Hy|Hy].
  - rewrite (filter_cons_True P y []) by done. rewrite filter_nil, last_snoc.
    intros [= ->]. by exists l, [].
  - rewrite (filter_cons_False P y []) by done. rewrite filter_nil, app_nil_r.
    intros (l1 & l2 & -> & Hx & Hl2)%IH. exists l1, (l2 ++ [y]).
    rewrite <- app_assoc. split; [done|]. split; [done|].
    apply Forall_app. split; [done|]. by constructor.
Qed.

(** X1.  On at least one image, [Mosaic._build_image_grid] returns a grid
    that spans the rows and columns up to the largest recorded well position.
    Of the images recorded at one position the last of the list is the one in
    the grid: an image that no later image shares its position with is found
    at its position, an image found in a cell is the last one recorded there,
    and an empty cell is a position that no image records. *)
Theorem mosaic_grid_last_image_wins (images : list ChannelImage) :
  images ≠ [] →
  ∃ g, Mosaic._build_image_grid images = Ok g
    ∧ shape g = (max_row images + 1, max_column images + 1)%nat
    ∧ (∀ k im, images !! k = Some im →
         (∀ k' im', images !! k' = Some im' → (k < k')%nat →
            position im' ≠ position im) →
         grid_get g (position im).1 (position im).2 = Ok (Some im))
    ∧ (∀ r c im, grid_get g r c = Ok (Some im) →
         ∃ k, images !! k = Some im ∧ position im = (r, c)
            ∧ ∀ k' im', images !! k' = Some im' → (k < k')%nat →
                position im' ≠ (r, c))
    ∧ (∀ r c, grid_get g r c = Ok None →
         ∀ im, im ∈ images → position im ≠ (r, c)).
Proof.
  intros Hne. destruct (mosaic_grid_spec images Hne) as (g & Hg & Hwf & Hcell).
  exists g. split; [done|]. split.
  { apply wf_grid_shape; [lia|done]. }
  assert (∀ im, im ∈ images →
            ((position im).1 ≤ max_row images)%nat
            ∧ ((position im).2 ≤ max_column images)%nat) as Hbound.
  { intros im Him. split; apply max_list_elem_le, list_elem_of_fmap;
      by exists im. }
  assert (∀ r c x, grid_get g r c = Ok x →
            (r ≤ max_row images)%nat ∧ (c ≤ max_column images)%nat) as Hin.
  { intros r c x Hget. destruct Hwf as [Hlen Hall]. unfold grid_get in Hget.
    destruct (g !! r) as [row|] eqn:Hrow; [|done].
    destruct (row !! c) as [y|] eqn:Hc; [|done].
    rewrite Forall_lookup in Hall. pose proof (Hall _ _ Hrow) as Hl.
    apply lookup_lt_Some in Hrow. apply lookup_lt_Some in Hc. lia. }
  split; [|split].
  - intros k im Hk Hlast.
    destruct (Hbound im) as [Hr Hc]; [by eapply list_elem_of_lookup_2|].
    rewrite Hcell by done. f_equal. unfold occupant.
    rewrite <- (take_drop_middle images k im Hk).
    apply last_filter_middle; [by destruct (position im)|].
    apply Forall_lookup. intros j im' Hj Hpos.
    rewrite lookup_drop in Hj.
    apply (Hlast (S k + j)%nat im' Hj); [lia|].
    rewrite Hpos. by destruct (position im).
  - intros r c im Hget. destruct (Hin r c _ Hget) as [Hr Hc].
    rewrite Hcell in Hget by done. injection Hget as Hocc.
    apply last_filter_Some in Hocc as (l1 & l2 & -> & Hpos & Hl2).
    exists (length l1). split; [by rewrite list_lookup_middle|].
    split; [done|]. intros k' im' Hk' Hlt.
    rewrite lookup_app_r in Hk' by lia.
    destruct (k' - length l1)%nat as [|j] eqn:Hj; [lia|]. simpl in Hk'.
    rewrite Forall_lookup in Hl2. by apply (Hl2 j).
  - intros r c Hget im Him Hpos. destruct (Hin r c _ Hget) as [Hr Hc].
    rewrite Hcell in Hget by done. injection Hget as Hocc.
    by destruct (occupant_None images r c Hocc im Him).
Qed.

(** The sample images [b] and [b_gfp] are both recorded at row 0, column 1:
    the grid holds [b_gfp], the later one. *)
Lemma mosaic_grid_last_image_wins_witness :
  ∃ g, Mosaic._build_image_grid [Sample.a; Sample.b; Sample.b_gfp] = Ok g
     ∧ grid_get g 0 1 = Ok (Some Sample.b_gfp).
Proof.
  destruct (mosaic_grid_last_image_wins [Sample.a; Sample.b; Sample.b_gfp])
    as (g & Hg & _ & Hlast & _); [done|].
  exists g. split; [done|]. apply (Hlast 2%nat Sample.b_gfp); [done|].
  intros k' im' Hk' Hlt. destruct k' as [|[|[|k']]]; simpl in Hk'; try lia; done.
Defined.

(** ** [Collage.create_from_images]: how many images make a collage *)









Section collage_loops.

Variables (g : grid) (side : nat) (dx : Z).
Variables (stats : option IllumstatsImages) (al : bool).
Variables (im_height im_width : Z) (column_spacer row_spacer : Vips.Image).
Hypothesis Hwf : wf_grid side side g.
Hypothesis Hside : (0 < side)%nat.


Hypothesis Hheight : 0 < im_height.
Hypothesis Hwidth : 0 < im_width.




End collage_loops.








(** ** [PyramidTileFile.location]: when two tiles share a file *)

(** X3.  Two tiles of one channel layer whose names are relative paths lie
    at the same location only if they agree in group and in name: within a
    layer, [put] never writes a tile over the file of a tile of another
    group or of another name. *)
Theorem tile_location_injective (st : PyramidTileFile.store)
    (f1 f2 : PyramidTileFile.t) (loc : string) :
  PyramidTileFile.channel_layer_id f1 = PyramidTileFile.channel_layer_id f2 →
  posixpath.startswith_slash (PyramidTileFile.name f1) = false →
  posixpath.startswith_slash (PyramidTileFile.name f2) = false →
  PyramidTileFile.location st f1 = Ok loc →
  PyramidTileFile.location st f2 = Ok loc →
  PyramidTileFile.group f1 = PyramidTileFile.group f2
  ∧ PyramidTileFile.name f1 = PyramidTileFile.name f2.
Proof.
  intros Hid Hrel1 Hrel2 H1 H2.
  destruct (PyramidTileFile.layers st !! PyramidTileFile.channel_layer_id f1)
    as [l|] eqn:Hl; [|unfold PyramidTileFile.location in H1; by rewrite Hl in H1].
  rewrite (location_relative st f1 l Hl Hrel1) in H1.
  rewrite (location_relative st f2 l) in H2 by congruence.
  rewrite <- H2 in H1. injection H1 as H1.
  apply String.app_inj in H1.
  pose proof H1 as Hg.
  apply split_at_slash in Hg; try apply tile_group_no_slash.
  rewrite Hg in H1. do 2 apply String.app_inj in H1. split; [|done].
  unfold PyramidTileFile.tile_group in Hg. apply String.app_inj in Hg.
  by apply pretty_Z_inj in Hg.
Qed.

(** The hypotheses hold for the sample tile of group 0. *)
Lemma tile_location_injective_witness :
  PyramidTileFile.group (Sample.tile 0) = PyramidTileFile.group (Sample.tile 0)
  ∧ PyramidTileFile.name (Sample.tile 0) = PyramidTileFile.name (Sample.tile 0).
Proof.
  apply (tile_location_injective Sample.layer1 (Sample.tile 0) (Sample.tile 0)
           "/data/layers/1/TileGroup0/0-0-0.jpg"); reflexivity.
Defined.

(** X4.  A tile whose name is an absolute path lies at that path, whatever
    its channel layer and group: [os.path.join] drops what precedes an
    absolute component.  Tiles of any layers and groups that share such a
    name share one file, and a [put] of one replaces the plane of the
    other. *)
Theorem tile_with_absolute_name_ignores_layer (st : PyramidTileFile.store)
    (f1 f2 : PyramidTileFile.t) (p1 p2 : PyramidTileFile.plane8) :
  posixpath.startswith_slash (PyramidTileFile.name f1) = true →
  PyramidTileFile.name f2 = PyramidTileFile.name f1 →
  is_Some (PyramidTileFile.layers st !! PyramidTileFile.channel_layer_id f1) →
  is_Some (PyramidTileFile.layers st !! PyramidTileFile.channel_layer_id f2) →
  PyramidTileFile.location st f1 = Ok (PyramidTileFile.name f1)
  ∧ PyramidTileFile.location st f2 = Ok (PyramidTileFile.name f1)
  ∧ ∃ st1 st2,
      PyramidTileFile.put f1 p1 st = Ok st1
      ∧ PyramidTileFile.put f2 p2 st1 = Ok st2
      ∧ PyramidTileFile.get f1 st2 = Ok p2.
Proof.
  intros Habs Hname [l1 Hl1] [l2 Hl2].
  assert (∀ f, PyramidTileFile.name f = PyramidTileFile.name f1 →
               ∀ l, PyramidTileFile.layers st !! PyramidTileFile.channel_layer_id f
                    = Some l →
               PyramidTileFile.location st f = Ok (PyramidTileFile.name f1))
    as Hloc.
  { intros f Hf l Hl. unfold PyramidTileFile.location. rewrite Hl, Hf.
    unfold posixpath.join. simpl. unfold posixpath.join2 at 1.
    by rewrite Habs. }
  pose proof (Hloc f1 eq_refl l1 Hl1) as H1.
  pose proof (Hloc f2 Hname l2 Hl2) as H2.
  split; [done|]. split; [done|].
  eexists _, _. rewrite (put_spec f1 p1 st _ H1). split; [done|].
  rewrite (put_spec f2 p2 _ (PyramidTileFile.name f1)) by done.
  split; [done|]. rewrite (get_spec f1 st _ (PyramidTileFile.name f1)) by done.
  simpl.
  by rewrite lookup_insert_eq.
Qed.

(** Two tiles named ["/tmp/0-0-0.jpg"], of the groups 0 and 3: the plane put
    for the second is read back for the first. *)
Lemma tile_with_absolute_name_ignores_layer_witness :
  let f1 := {| PyramidTileFile.name := "/tmp/0-0-0.jpg";
               PyramidTileFile.group := 0; PyramidTileFile.level := 0;
               PyramidTileFile.row := 0; PyramidTileFile.column := 0;
               PyramidTileFile.channel_layer_id := 1 |} in
  let f2 := {| PyramidTileFile.name := "/tmp/0-0-0.jpg";
               PyramidTileFile.group := 3; PyramidTileFile.level := 2;
               PyramidTileFile.row := 1; PyramidTileFile.column := 1;
               PyramidTileFile.channel_layer_id := 1 |} in
  PyramidTileFile.location Sample.layer1 f1 = Ok "/tmp/0-0-0.jpg"
  ∧ PyramidTileFile.location Sample.layer1 f2 = Ok "/tmp/0-0-0.jpg"
  ∧ ∃ st1 st2,
      PyramidTileFile.put f1 Sample.dark Sample.layer1 = Ok st1
      ∧ PyramidTileFile.put f2 Sample.bright st1 = Ok st2
      ∧ PyramidTileFile.get f1 st2 = Ok Sample.bright.
Proof.
  intros f1 f2.
  apply (tile_with_absolute_name_ignores_layer Sample.layer1 f1 f2
           Sample.dark Sample.bright); [reflexivity|reflexivity|by eexists..].
Defined.

(** ** File names: channel images and illumination statistics *)

Lemma has_char_app c s1 s2 : has_char c (s1 +:+ s2) = has_char c s1 || has_char c s2.
Proof.
  induction s1 as [|a s1 IH]; string_app; simpl; [done|].
  rewrite IH. by rewrite orb_assoc.
Qed.

Lemma has_char_fill c a n : a ≠ c → has_char c (fill n a) = false.
Proof.
  intros Hne. induction n as [|n IH]; simpl; [done|].
  by rewrite IH, bool_decide_eq_false_2.
Qed.

(** A string is determined by what precedes and what follows the first
    occurrence of a character, and likewise for the last occurrence. *)
Lemma split_at_first c d1 d2 r1 r2 :
  has_char c d1 = false → has_char c d2 = false →
  d1 +:+ String c r1 = d2 +:+ String c r2 → d1 = d2 ∧ r1 = r2.
Proof.
  revert d2. induction d1 as [|a d1 IH]; intros [|a' d2]; string_app; simpl.
  - by intros _ _ [= ->].
  - intros _ [Hc _]%orb_false_elim [= <- _]. by apply bool_decide_eq_false in Hc.
  - intros [Hc _]%orb_false_elim _ [= -> _]. by apply bool_decide_eq_false in Hc.
  - intros [_ H1]%orb_false_elim [_ H2]%orb_false_elim [= -> Heq].
    destruct (IH d2 H1 H2 Heq) as [-> ->]. done.
Qed.

Lemma split_at_last c w1 w2 t1 t2 :
  has_char c t1 = false → has_char c t2 = false →
  w1 +:+ String c t1 = w2 +:+ String c t2 → w1 = w2 ∧ t1 = t2.
Proof.
  intros H1 H2. revert w2.
  induction w1 as [|a w1 IH]; intros [|a' w2];
    rewrite ?string_app_nil; rewrite ?string_app_cons.
  - by intros [= ->].
  - intros [= <- ->]. rewrite has_char_app in H1. simpl in H1.
    rewrite bool_decide_eq_true_2 in H1 by done.
    by rewrite orb_true_r in H1.
  - intros [= -> <-]. rewrite has_char_app in H2. simpl in H2.
    rewrite bool_decide_eq_true_2 in H2 by done.
    by rewrite orb_true_r in H2.
  - intros [= -> Heq]. destruct (IH w2 Heq) as [-> ->]. done.
Qed.

(** The decimal notation of a number has digits and a sign only. *)
Lemma pretty_N_go_has_char c (x : N) (s : string) :
  (∀ d, pretty_N_char d ≠ c) →
  has_char c (pretty_N_go x s) = has_char c s.
Proof.
  intros Hc. revert s. induction (N.lt_wf_0 x) as [x _ IH]; intros s.
  assert (x = 0 ∨ 0 < x)%N as [->|Hx] by lia.
  - by rewrite pretty_N_go_0.
  - rewrite pretty_N_go_step by done. rewrite IH by (by apply N.div_lt).
    simpl. by rewrite bool_decide_eq_false_2.
Qed.

Lemma pretty_Z_has_char c (z : Z) :
  (∀ d, pretty_N_char d ≠ c) → c ≠ "-"%char →
  has_char c (pretty z) = false.
Proof.
  intros Hc Hdash.
  assert (has_char c "0" = false) as H0.
  { simpl. rewrite bool_decide_eq_false_2; [done|]. apply (Hc 0%N). }
  assert (∀ p : positive, has_char c (pretty p) = false) as Hpos.
  { intros p. unfold pretty, pretty_positive, pretty, pretty_N.
    case_decide; [done|]. by rewrite pretty_N_go_has_char. }
  unfold pretty, pretty_Z. destruct z as [|p|p]; [done|apply Hpos|].
  rewrite has_char_app, Hpos. simpl.
  by rewrite bool_decide_eq_false_2 by done.
Qed.

Lemma format_0_right_3_has_char c (z : Z) :
  (∀ d, pretty_N_char d ≠ c) → c ≠ "-"%char →
  has_char c (format_0_right_3 z) = false.
Proof.
  intros Hc Hdash. unfold format_0_right_3.
  rewrite has_char_app, pretty_Z_has_char by done.
  rewrite has_char_fill; [done|]. apply (Hc 0%N).
Qed.

(** The decimal notation of a number starts with a zero only when it is
    ["0"]. *)
Lemma pretty_N_go_leading (x : N) (s : string) :
  (0 < x)%N → ∃ a s', pretty_N_go x s = String a s' ∧ a ≠ "0"%char.
Proof.
  revert s. induction (N.lt_wf_0 x) as [x _ IH]; intros s Hx.
  rewrite pretty_N_go_step by done.
  destruct (N.eq_0_gt_0_cases (x `div` 10)) as [Hd|Hd].
  - rewrite Hd, pretty_N_go_0. eexists _, _. split; [done|].
    apply N.div_small_iff in Hd; [|done]. rewrite N.mod_small by done.
    assert (x = 1 ∨ x = 2 ∨ x = 3 ∨ x = 4 ∨ x = 5 ∨ x = 6
            ∨ x = 7 ∨ x = 8 ∨ x = 9)%N
      as [-> | [-> | [-> | [-> | [-> | [-> | [-> | [-> | ->]]]]]]]] by lia;
      done.
  - apply IH; [|done]. by apply N.div_lt.
Qed.

Lemma pretty_Z_leading_zero (z : Z) (s : string) :
  pretty z = String "0" s → s = "".
Proof.
  unfold pretty, pretty_Z. destruct z as [|p|p].
  - by intros [= <-].
  - unfold pretty, pretty_positive, pretty, pretty_N.
    case_decide; [done|].
    destruct (pretty_N_go_leading (N.pos p) "") as (a & s' & -> & Ha); [lia|].
    intros [= -> _]. done.
  - by string_app.
Qed.

Lemma pretty_Z_nonempty (z : Z) : pretty z ≠ "".
Proof.
  unfold pretty, pretty_Z. destruct z as [|p|p]; [done| |by string_app].
  unfold pretty, pretty_positive, pretty, pretty_N.
  case_decide; [done|].
  destruct (pretty_N_go_leading (N.pos p) "") as (a & s' & -> & _); [lia|done].
Qed.

Lemma fill_add n m c : fill (n + m) c = fill n c +:+ fill m c.
Proof. induction n as [|n IH]; simpl; string_app; [done|]. by rewrite IH. Qed.

Lemma format_0_right_3_inj (z1 z2 : Z) :
  format_0_right_3 z1 = format_0_right_3 z2 → z1 = z2.
Proof.
  unfold format_0_right_3.
  assert (∀ (y1 y2 : Z) k1 d,
            fill k1 "0" +:+ pretty y1 = fill (k1 + S d) "0" +:+ pretty y2 →
            False) as Hlt.
  { intros y1 y2 k1 d. rewrite fill_add, string_app_assoc.
    intros Heq%String.app_inj. simpl in Heq. string_app.
    pose proof (pretty_Z_leading_zero _ _ Heq) as Hnil.
    destruct (fill d "0"); string_app; [|done].
    by apply pretty_Z_nonempty in Hnil. }
  set (k1 := (3 - String.length (pretty z1))%nat).
  set (k2 := (3 - String.length (pretty z2))%nat).
  destruct (lt_eq_lt_dec k1 k2) as [[Hk|Hk]|Hk].
  - replace k2 with (k1 + S (k2 - k1 - 1))%nat by lia.
    intros Heq. by destruct (Hlt _ _ _ _ Heq).
  - rewrite Hk. intros Heq%String.app_inj. by apply pretty_Z_inj in Heq.
  - replace k1 with (k2 + S (k1 - k2 - 1))%nat by lia.
    intros Heq. symmetry in Heq. by destruct (Hlt _ _ _ _ Heq).
Qed.

Lemma digit_not_underscore d : pretty_N_char d ≠ "_"%char.
Proof. unfold pretty_N_char. by repeat case_match. Qed.

Lemma digit_not_dot d : pretty_N_char d ≠ "."%char.
Proof. unfold pretty_N_char. by repeat case_match. Qed.

Ltac right_assoc :=
  repeat first [ rewrite string_app_assoc | rewrite string_app_nil
               | rewrite string_app_cons ].

Lemma channel_image_name_shape (T w Y X C : string) :
  T +:+ "_" +:+ w +:+ "_y" +:+ Y +:+ "_x" +:+ X +:+ "_c" +:+ C +:+ ".h5"
  = T +:+ String "_"
      (((w +:+ String "_" ("y" +:+ Y)) +:+ String "_" ("x" +:+ X))
       +:+ String "_" ("c" +:+ C +:+ ".h5")).
Proof. by right_assoc. Qed.

Lemma channel_image_name_inj (t t' : Z) (w w' : string)
    (y y' x x' c c' : Z) :
  ChannelImageFile.FILENAME_FORMAT t w y x c
  = ChannelImageFile.FILENAME_FORMAT t' w' y' x' c' →
  t = t' ∧ w = w' ∧ y = y' ∧ x = x' ∧ c = c'.
Proof.
  unfold ChannelImageFile.FILENAME_FORMAT.
  intros Heq%String.app_inj. rewrite !channel_image_name_shape in Heq.
  assert (∀ z, has_char "_" (format_0_right_3 z) = false) as Hus.
  { intros z. by apply format_0_right_3_has_char; [apply digit_not_underscore|]. }
  assert (∀ z, has_char "." (format_0_right_3 z) = false) as Hdot.
  { intros z. by apply format_0_right_3_has_char; [apply digit_not_dot|]. }
  apply split_at_first in Heq as [Ht Heq]; [|apply Hus..].
  apply split_at_last in Heq as [Heq Hc];
    [|by rewrite !has_char_app, Hus..].
  apply split_at_last in Heq as [Heq Hx];
    [|by rewrite !has_char_app, Hus..].
  apply split_at_last in Heq as [Hw Hy];
    [|by rewrite !has_char_app, Hus..].
  apply String.app_inj in Hy, Hx, Hc.
  apply (split_at_first "." _ _ "h5" "h5") in Hc as [Hc _]; [|apply Hdot..].
  apply format_0_right_3_inj in Ht, Hy, Hx, Hc. done.
Qed.

(** [basename] of a path that ends in a name without separator *)
Lemma basename_name (n : string) : has_slash n = false → posixpath.basename n = n.
Proof.
  destruct n as [|a n]; [done|].
  change (has_slash (String a n))
    with (bool_decide (a = "/"%char) || has_slash n).
  change (posixpath.basename (String a n))
    with (if has_slash n then posixpath.basename n
          else if bool_decide (a = "/"%char) then n else String a n).
  intros [-> ->]%orb_false_elim. done.
Qed.

Lemma basename_app (p n : string) :
  has_slash n = false → posixpath.basename (p +:+ "/" +:+ n) = n.
Proof.
  intros Hn. induction p as [|a p IH]; right_assoc.
  - change (posixpath.basename (String "/" n))
      with (if has_slash n then posixpath.basename n
            else if bool_decide ("/"%char = "/"%char) then n else String "/" n).
    by rewrite Hn.
  - change (posixpath.basename (String a (p +:+ String "/" n)))
      with (if has_slash (p +:+ String "/" n)
            then posixpath.basename (p +:+ String "/" n)
            else if bool_decide (a = "/"%char) then p +:+ String "/" n
                 else String a (p +:+ String "/" n)).
    rewrite has_slash_app.
    change (has_slash (String "/" n)) with (true || has_slash n).
    rewrite orb_true_r. revert IH. by right_assoc.
Qed.

Lemma join_name (d n : string) :
  posixpath.startswith_slash n = false →
  ∃ p, posixpath.join d [n] = p +:+ n
     ∧ (p = "" ∨ ∃ q, p = q +:+ "/")
     ∧ ∀ n', posixpath.startswith_slash n' = false →
             posixpath.join d [n'] = p +:+ n'.
Proof.
  intros Hn. unfold posixpath.join, posixpath.join2. simpl. rewrite Hn.
  destruct (bool_decide (d = "")) eqn:Hd; simpl.
  - apply bool_decide_eq_true in Hd as ->. exists "". split; [done|].
    split; [by left|]. by intros n' ->.
  - destruct (posixpath.endswith_slash d) eqn:He.
    + exists d. split; [done|]. split; [|by intros n' ->].
      right. clear Hd. induction d as [|a d IH]; [done|].
      simpl in He. destruct d as [|a' d].
      * apply bool_decide_eq_true in He as ->. by exists "".
      * destruct (IH He) as [q ->]. exists (String a q). by right_assoc.
    + exists (d +:+ "/"). rewrite string_app_assoc. split; [done|].
      split; [by eauto|]. intros n' ->. by rewrite string_app_assoc.
Qed.

(** X5.  Two channel image files of one cycle directory, neither with a
    stored name, lie at the same location only if they agree in time point,
    well name, site row, site column and channel index: the name made from
    [FILENAME_FORMAT] tells the five apart, whatever the well name is. *)
Theorem channel_image_file_names_differ (f1 f2 : ChannelImageFile.t) :
  ChannelImageFile._name f1 = None → ChannelImageFile._name f2 = None →
  ChannelImageFile.channel_images_location f1
    = ChannelImageFile.channel_images_location f2 →
  (ChannelImageFile.location f1).2 = (ChannelImageFile.location f2).2 →
  (ChannelImageFile.name f1).2 = (ChannelImageFile.name f2).2
  ∧ ChannelImageFile.tpoint f1 = ChannelImageFile.tpoint f2
  ∧ ChannelImageFile.well_name f1 = ChannelImageFile.well_name f2
  ∧ ChannelImageFile.site_y f1 = ChannelImageFile.site_y f2
  ∧ ChannelImageFile.site_x f1 = ChannelImageFile.site_x f2
  ∧ ChannelImageFile.channel_index f1 = ChannelImageFile.channel_index f2.
Proof.
  intros H1 H2 Hdir. unfold ChannelImageFile.location, ChannelImageFile.name.
  rewrite H1, H2. cbn [snd ChannelImageFile.channel_images_location].
  rewrite Hdir.
  destruct (join_name (ChannelImageFile.channel_images_location f2)
              (ChannelImageFile.FILENAME_FORMAT
                 (ChannelImageFile.tpoint f1) (ChannelImageFile.well_name f1)
                 (ChannelImageFile.site_y f1) (ChannelImageFile.site_x f1)
                 (ChannelImageFile.channel_index f1)) eq_refl)
    as (p & -> & _ & Hjoin).
  rewrite (Hjoin (ChannelImageFile.FILENAME_FORMAT _ _ _ _ _) eq_refl).
  intros Heq%String.app_inj.
  split; [done|]. by apply channel_image_name_inj.
Qed.

(** The name of a channel image file: numbers are filled with zeros to
    three digits. *)
Lemma channel_image_file_names_differ_witness :
  let f := {| ChannelImageFile._name := None; ChannelImageFile.tpoint := 7;
              ChannelImageFile.well_name := "A01";
              ChannelImageFile.site_y := 2; ChannelImageFile.site_x := 3;
              ChannelImageFile.channel_index := 1;
              ChannelImageFile.channel_images_location :=
                "/exp/cycle_1/channel_images" |} in
  (ChannelImageFile.location f).2
  = "/exp/cycle_1/channel_images/channel_image_t007_A01_y002_x003_c001.h5"
  ∧ (ChannelImageFile.name f).2 = (ChannelImageFile.name f).2.
Proof.
  intros f. split; [reflexivity|].
  by apply (channel_image_file_names_differ f f).
Defined.

(** X6.  The file of the illumination statistics of a channel lies directly
    in the directory of the illumination statistics of its cycle: its
    location is that directory, a slash unless the directory is empty or
    ends in one, and the name [illumstats_<channel id>.h5].  The files of
    two channels of one cycle are never at the same location: one file for
    every pair of channel and cycle, as the unique constraint of the table
    has it. *)
Theorem illumstats_file_per_channel_and_cycle (cycles : gmap Z string)
    (channel1 channel2 cycle : Z) (loc : string) :
  IllumstatsFile.location cycles (IllumstatsFile.__init__ channel1 cycle)
    = Ok loc →
  (∃ illumstats_location,
     cycles !! cycle = Some illumstats_location
     ∧ loc = illumstats_location
             +:+ (if bool_decide (illumstats_location = "")
                     || posixpath.endswith_slash illumstats_location
                  then "" else "/")
             +:+ "illumstats_" +:+ pretty channel1 +:+ ".h5")
  ∧ posixpath.basename loc = "illumstats_" +:+ pretty channel1 +:+ ".h5"
  ∧ (IllumstatsFile.location cycles (IllumstatsFile.__init__ channel2 cycle)
       = Ok loc → channel1 = channel2).
Proof.
  unfold IllumstatsFile.location, IllumstatsFile.__init__.
  cbn [IllumstatsFile.cycle_id IllumstatsFile.name].
  destruct (cycles !! cycle) as [d|]; [|done].
  assert (∀ ch, has_slash (IllumstatsFile.FILENAME_FORMAT ch) = false) as Hns.
  { intros ch. unfold IllumstatsFile.FILENAME_FORMAT.
    by rewrite !has_slash_app, pretty_Z_no_slash. }
  assert (∀ ch, posixpath.startswith_slash (IllumstatsFile.FILENAME_FORMAT ch)
                = false) as Hrel by done.
  intros Hloc.
  assert (loc = posixpath.join d [IllumstatsFile.FILENAME_FORMAT channel1])
    as -> by congruence.
  clear Hloc. split; [|split].
  - exists d. split; [done|].
    unfold posixpath.join, posixpath.join2. cbn [foldl]. rewrite Hrel.
    unfold IllumstatsFile.FILENAME_FORMAT.
    destruct (bool_decide (d = "") || posixpath.endswith_slash d);
      by right_assoc.
  - destruct (join_name d (IllumstatsFile.FILENAME_FORMAT channel1) (Hrel _))
      as (p & -> & Hp & Hjoin).
    change ("illumstats_" +:+ pretty channel1 +:+ ".h5")
      with (IllumstatsFile.FILENAME_FORMAT channel1).
    destruct Hp as [->|[q ->]]; [by apply basename_name|].
    rewrite string_app_assoc. by apply basename_app.
  - destruct (join_name d (IllumstatsFile.FILENAME_FORMAT channel1) (Hrel _))
      as (p & -> & Hp & Hjoin).
    rewrite (Hjoin _ (Hrel channel2)). intros [= Heq%String.app_inj].
    unfold IllumstatsFile.FILENAME_FORMAT in Heq.
    apply String.app_inj in Heq.
    apply (split_at_first "." _ _ "h5" "h5") in Heq as [Heq _];
      [by apply pretty_Z_inj in Heq|..];
      by apply pretty_Z_has_char; [apply digit_not_dot|].
Qed.

(** The statistics of channel 2 in the directory of cycle 1. *)
Lemma illumstats_file_per_channel_and_cycle_witness :
  IllumstatsFile.location {[ 1 := "/exp/cycle_1/illumstats" ]}
    (IllumstatsFile.__init__ 2 1)
  = Ok "/exp/cycle_1/illumstats/illumstats_2.h5"
  ∧ posixpath.basename "/exp/cycle_1/illumstats/illumstats_2.h5"
    = "illumstats_2.h5".
Proof.
  split; [reflexivity|].
  apply (illumstats_file_per_channel_and_cycle
           {[ 1 := "/exp/cycle_1/illumstats" ]} 2 2 1
           "/exp/cycle_1/illumstats/illumstats_2.h5").
  reflexivity.
Defined.

(** ** [create_job_descriptions]: errors and arguments *)

Section job_description_errors.

Context {env : Environment}.
Import MetadataConfigurator.

Lemma create_job_descriptions_closed (experiment : Experiment)
    (kwargs : gmap string value) :
  create_job_descriptions experiment kwargs =
    match kwargs !! "format" with
    | None => Raise KeyError
    | Some format =>
        if bool_decide (format ≠ PyStr "default")
           && negb (format_supported format)
        then Raise NotSupportedError
        else match kwargs !! "z_stacks" with
             | Some z_stacks =>
                 Ok {| run := (λ iu, run_description iu.1 iu.2 z_stacks kwargs)
                                <$> zip (seq 0 (length (uploads experiment)))
                                        (uploads experiment);
                       collect := collect_description experiment |}
             | None =>
                 match uploads experiment with
                 | [] => Ok {| run := [];
                               collect := collect_description experiment |}
                 | _ :: _ => Raise KeyError
                 end
             end
    end.
Proof.
  unfold create_job_descriptions, dict_get at 1.
  destruct (kwargs !! "format") as [format|]; [|done]. cbn [rbind].
  destruct (bool_decide (format ≠ PyStr "default")); cbn [andb];
    [destruct (format_supported format); cbn [negb]; [|done]|].
  all: cbn [rbind].
  all: destruct (kwargs !! "z_stacks") as [z_stacks|] eqn:Hz;
    [by rewrite (run_loop_spec kwargs z_stacks Hz)|].
  all: destruct (uploads experiment) as [|u us]; [done|].
  all: cbn [length seq zip zip_with rfold]; unfold dict_get at 1;
    by rewrite Hz.
Qed.

Local Ltac cases_solve :=
  lazymatch goal with
  | |- ∀ jd, _ = Ok jd → _ =>
      let Heq := fresh in
      intros ? Heq; try discriminate; injection Heq as <-; simpl;
      first [done | match goal with H : ∀ z, length _ = _ |- _ => apply H end]
  | |- _ ↔ _ =>
      split; intros;
        repeat match goal with
               | H : _ ∧ _ |- _ => destruct H
               | H : _ ∨ _ |- _ => destruct H
               | H : is_Some None |- _ => by destruct H
               end;
        try done; try congruence; eauto 6
  end.

(** X7.  How [create_job_descriptions] ends.  It raises [NotSupportedError]
    exactly when the [format] argument is given, is not ['default'] and is
    not among the supported formats.  It raises [KeyError] exactly when
    [format] is missing, or when the format is accepted, [z_stacks] is
    missing and there is at least one upload (the argument is read in the
    loop over the uploads).  It returns exactly when the format is accepted
    and either there is no upload or [z_stacks] is given; there is then one
    run description for every upload. *)
Theorem job_descriptions_errors (experiment : Experiment)
    (kwargs : gmap string value) :
  let r := create_job_descriptions experiment kwargs in
  (r = Raise NotSupportedError
   ↔ ∃ format, kwargs !! "format" = Some format
       ∧ format ≠ PyStr "default" ∧ format_supported format = false)
  ∧ (r = Raise KeyError
     ↔ kwargs !! "format" = None
       ∨ (accepted_format kwargs ∧ uploads experiment ≠ []
          ∧ kwargs !! "z_stacks" = None))
  ∧ (is_ok r = true
     ↔ accepted_format kwargs
       ∧ (uploads experiment = [] ∨ is_Some (kwargs !! "z_stacks")))
  ∧ (∀ jd, r = Ok jd → length (run jd) = length (uploads experiment)).
Proof.
  intros r. subst r. rewrite create_job_descriptions_closed.
  unfold accepted_format.
  destruct (kwargs !! "format") as [format|] eqn:Hf.
  2:{ split; [|split; [|split]]; try done.
      - split; [done|]. by intros (? & ? & _).
      - split; [by left|done].
      - split; [done|]. by intros [(? & ? & _) _]. }
  assert ((∃ f, Some format = Some f ∧ f ≠ PyStr "default"
                ∧ format_supported f = false)
          ↔ format ≠ PyStr "default" ∧ format_supported format = false)
    as ->.
  { split; [by intros (f & [= <-] & ?)|intros ?; by exists format]. }
  assert ((∃ f, Some format = Some f
                ∧ (f = PyStr "default" ∨ format_supported f = true))
          ↔ format = PyStr "default" ∨ format_supported format = true)
    as ->.
  { split; [by intros (f & [= <-] & ?)|intros ?; by exists format]. }
  assert (∀ z, length ((λ iu : nat * Upload, run_description iu.1 iu.2 z kwargs)
                         <$> zip (seq 0 (length (uploads experiment)))
                                 (uploads experiment))
               = length (uploads experiment)) as Hlen.
  { intros z. rewrite length_fmap, length_zip, length_seq. lia. }
  destruct (decide (format = PyStr "default")) as [Hd|Hd].
  - rewrite bool_decide_eq_false_2 by (by intros ?). cbn [andb].
    destruct (kwargs !! "z_stacks") as [z|];
      [|destruct (uploads experiment) as [|u us]];
      (split; [|split; [|split]]); cases_solve.
  - rewrite bool_decide_eq_true_2 by done. cbn [andb].
    destruct (format_supported format); cbn [negb];
      [destruct (kwargs !! "z_stacks") as [z|];
         [|destruct (uploads experiment) as [|u us]]|];
      (split; [|split; [|split]]); cases_solve.
Qed.

Lemma run_description_lookup (i : nat) (u : Upload) (z : value)
    (kwargs : gmap string value) (k : string) :
  run_description i u z kwargs !! k =
    match kwargs !! k with
    | Some v => Some (JArg v)
    | None => run_description i u z ∅ !! k
    end.
Proof.
  unfold run_description, update. rewrite fmap_empty, (left_id_L ∅ (∪)).
  rewrite lookup_union, lookup_fmap.
  destruct (kwargs !! k) as [v|]; simpl; [|by rewrite (left_id_L None _)].
  by destruct (_ !! k).
Qed.

(** X8.  Every argument of [create_job_descriptions] is handed to every
    run job: a run description binds each key of the arguments to the value
    given, also the keys [id], [inputs] and [outputs], which the arguments
    override.  When no argument is named [id], run job number [i] (counted
    from 0) has the id [i + 1].  A run description has no keys besides
    those of the arguments, [id], [inputs], [outputs] and [z_stacks]. *)
Theorem run_descriptions_carry_arguments (experiment : Experiment)
    (kwargs : gmap string value) (jd : job_descriptions) :
  create_job_descriptions experiment kwargs = Ok jd →
  ∀ i d, run jd !! i = Some d →
    (∀ k v, kwargs !! k = Some v → d !! k = Some (JArg v))
    ∧ (kwargs !! "id" = None →
       d !! "id" = Some (JArg (PyInt (Z.of_nat i + 1))))
    ∧ (∀ k, is_Some (d !! k)
            ↔ is_Some (kwargs !! k)
              ∨ k ∈ ["id"; "inputs"; "outputs"; "z_stacks"]).
Proof.
  rewrite create_job_descriptions_closed. intros Hjd i d Hd.
  destruct (kwargs !! "format") as [format|]; [|done].
  destruct (_ && _); [done|].
  destruct (kwargs !! "z_stacks") as [z|];
    [|destruct (uploads experiment); [|done]];
    injection Hjd as <-; simpl in Hd; [|done].
  rewrite list_lookup_fmap in Hd.
  destruct (zip _ _ !! i) as [[i' u]|] eqn:Hz; [|done].
  injection Hd as <-. simpl.
  apply lookup_zip_with_Some in Hz as (? & ? & [= <- <-] & [-> _]%lookup_seq & _).
  split; [|split].
  - intros k v Hk. by rewrite run_description_lookup, Hk.
  - intros Hid. rewrite run_description_lookup, Hid.
    unfold run_description, update. rewrite fmap_empty, (left_id_L ∅ (∪)).
    by rewrite lookup_insert_eq.
  - intros k. rewrite run_description_lookup.
    destruct (kwargs !! k) as [v|]; [split; eauto|].
    unfold run_description, update. rewrite fmap_empty, (left_id_L ∅ (∪)).
    rewrite !elem_of_cons, elem_of_nil.
    destruct (decide (k = "id")) as [->|?].
    { rewrite lookup_insert_eq. split; [auto 10|by eexists]. }
    rewrite lookup_insert_ne by done.
    destruct (decide (k = "inputs")) as [->|?].
    { rewrite lookup_insert_eq. split; [auto 10|by eexists]. }
    rewrite lookup_insert_ne by done.
    destruct (decide (k = "outputs")) as [->|?].
    { rewrite lookup_insert_eq. split; [auto 10|by eexists]. }
    rewrite lookup_insert_ne by done.
    destruct (decide (k = "z_stacks")) as [->|?].
    { rewrite lookup_singleton_eq. split; [auto 10|by eexists]. }
    rewrite lookup_singleton_ne by done.
    split; [by intros []|]. intros [[]|[?|[?|[?|[?|[]]]]]]; done.
Qed.

End job_description_errors.

(** Two uploads and two arguments: the second run description carries the
    format and has the id 2. *)
Lemma run_descriptions_carry_arguments_witness :
  ∃ jd d,
    @MetadataConfigurator.create_job_descriptions Sample.environment
      (Sample.experiment_of [Sample.upload1; Sample.upload2])
      {[ "format" := PyStr "default"; "z_stacks" := PyBool false ]} = Ok jd
    ∧ MetadataConfigurator.run jd !! 1%nat = Some d
    ∧ d !! "format" = Some (MetadataConfigurator.JArg (PyStr "default"))
    ∧ d !! "id" = Some (MetadataConfigurator.JArg (PyInt 2)).
Proof.
  set (kwargs := {[ "format" := PyStr "default";
                    "z_stacks" := PyBool false ]} : gmap string value).
  set (experiment := Sample.experiment_of [Sample.upload1; Sample.upload2]).
  assert (∃ jd, @MetadataConfigurator.create_job_descriptions
                  Sample.environment experiment kwargs = Ok jd
                ∧ MetadataConfigurator.run jd !! 1%nat
                  = Some (MetadataConfigurator.run_description 1 Sample.upload2
                            (PyBool false) kwargs)) as (jd & Hjd & Hd).
  { eexists. rewrite create_job_descriptions_closed.
    subst kwargs. by simplify_map_eq. }
  destruct (@run_descriptions_carry_arguments Sample.environment
              experiment kwargs jd Hjd 1%nat _ Hd) as (Hk & Hid & _).
  eexists _, _. split; [exact Hjd|]. split; [exact Hd|]. split.
  - apply Hk. subst kwargs. by simplify_map_eq.
  - apply Hid. subst kwargs. by simplify_map_eq.
Defined.

(** ** [run_job]: the files are written last *)

Section run_job_files.

Import MetadataConfigurator.
Context {H : Type} {handler_class : MetadataHandler H} {env : Environment}.
Context {writers : Writers}.

Lemma writes_nothing_sbind {A B} (m : step H A) (k : A → step H B) :
  writes_nothing m → (∀ a, writes_nothing (k a)) → writes_nothing (sbind m k).
Proof.
  intros Hm Hk st. unfold sbind. specialize (Hm st).
  destruct (m st) as [st1 [a|e]]; simpl in *; [|done].
  by rewrite Hk.
Qed.

Lemma writes_nothing_call {A} c (method : H → H * result A) :
  writes_nothing (call c method).
Proof. intros st. unfold call. by destruct (method (handler st)). Qed.

Lemma writes_nothing_slift {A} (r : result A) : writes_nothing (H := H) (slift r).
Proof. done. Qed.

Lemma writes_nothing_sret {A} (a : A) : writes_nothing (H := H) (sret a).
Proof. done. Qed.

Lemma writes_nothing_sraise {A} e : writes_nothing (H := H) (A := A) (sraise e).
Proof. done. Qed.

Lemma writes_nothing_try {A} (m h : step H A) e :
  writes_nothing m → writes_nothing h → writes_nothing (try_except m e h).
Proof.
  intros Hm Hh st. unfold try_except. specialize (Hm st).
  destruct (m st) as [st1 [a|e']]; simpl in *; [done|].
  case_decide; [|done]. by rewrite Hh.
Qed.

Local Ltac quiet :=
  repeat first
    [ match goal with |- writes_nothing (if ?c then _ else _) => destruct c end
    | apply writes_nothing_call
    | apply writes_nothing_slift
    | apply writes_nothing_sret
    | apply writes_nothing_sraise
    | apply writes_nothing_sbind; [|intros ?]
    | apply writes_nothing_try ].

Lemma configure_writes_nothing batch : writes_nothing (configure batch).
Proof.
  unfold configure. quiet.
  intros st. destruct (_ || _).
  - revert st. quiet.
  - done.
Qed.

Lemma grid_coordinates_writes_nothing batch :
  writes_nothing (grid_coordinates batch).
Proof. unfold grid_coordinates, layout_fallback. quiet. Qed.

(** How a run job that got to its last steps ends: with both files written,
    or with an exception that left nothing or only the metadata file
    written. *)
Lemma finish_files (batch : description) (st st' : run_state H) r :
  finish batch st = (st', r) →
  match r with
  | Ok _ =>
      ∃ metadata_file mapper_file md fmap,
        rbind (batch_files batch "outputs" "metadata_files") first_of
          = Ok metadata_file
        ∧ rbind (batch_files batch "outputs" "mapper_files") first_of
          = Ok mapper_file
        ∧ write_error metadata_file (XmlFile md) = None
        ∧ write_error mapper_file (JsonFile fmap) = None
        ∧ written st' = written st ++ [(metadata_file, XmlFile md);
                                       (mapper_file, JsonFile fmap)]
  | Raise e =>
      written st' = written st
      ∨ ∃ metadata_file md,
          written st' = written st ++ [(metadata_file, XmlFile md)]
          ∧ (rbind (batch_files batch "outputs" "mapper_files") first_of
               = Raise e
             ∨ ∃ mapper_file fmap,
                 rbind (batch_files batch "outputs" "mapper_files") first_of
                   = Ok mapper_file
                 ∧ write_error mapper_file (JsonFile fmap) = Some e)
  end.
Proof.
  remember (written st) as w0 eqn:H0. symmetry in H0. revert H0.
  unfold finish.
  repeat match goal with
  | |- written ?s = _ → sbind ?m _ ?s = _ → _ =>
      let Hw := fresh "Hw" in
      assert (writes_nothing m) as Hw by quiet;
      specialize (Hw s); unfold sbind at 1;
      destruct (m s) as [? [?|?]] eqn:?; simpl in Hw;
      intros H0; rewrite H0 in Hw; clear H0; revert Hw;
      [|intros ? [= <- <-]; by left]
  end.
  intros H0. unfold sbind at 1, write at 1.
  destruct (write_error _ (XmlFile _)) as [e1|] eqn:He1;
    [intros [= <- <-]; by left|].
  cbn [handler calls written].
  unfold sbind at 1, slift at 1.
  destruct (rbind (batch_files batch "outputs" "mapper_files") first_of)
    as [mapper_file|e] eqn:Hm.
  - match goal with E : slift _ _ = (_, Ok _) |- _ =>
      unfold slift in E; injection E as _ E end.
    unfold write. destruct (write_error _ (JsonFile _)) as [e2|] eqn:He2.
    + intros [= <- <-]. right. cbn [written]. rewrite H0.
      eexists _, _. split; [done|]. right. by eexists _, _.
    + intros [= <- <-]. cbn [written]. rewrite H0, <- app_assoc.
      by eexists _, _, _, _.
  - intros [= <- <-]. right. cbn [written]. rewrite H0.
    eexists _, _. split; [done|]. by left.
Qed.

(** X9.  A run job writes its files last.  When it returns, it has written
    exactly two files, the metadata and then the file mapper, at the first
    path the batch lists under [outputs] as [metadata_files] and as
    [mapper_files].  When it raises, it has written nothing, unless it fails
    after the metadata file was written: when the batch names no mapper
    file, the error is that of the lookup, and when the writer of the file
    mapper raises, the error is the writer's. *)
Theorem run_job_writes_its_files_last (batch : description)
    (st st' : run_state H) (r : result unit) :
  run_body batch st = (st', r) →
  match r with
  | Ok _ =>
      ∃ metadata_file mapper_file md fmap,
        rbind (batch_files batch "outputs" "metadata_files") first_of
          = Ok metadata_file
        ∧ rbind (batch_files batch "outputs" "mapper_files") first_of
          = Ok mapper_file
        ∧ write_error metadata_file (XmlFile md) = None
        ∧ write_error mapper_file (JsonFile fmap) = None
        ∧ written st' = written st ++ [(metadata_file, XmlFile md);
                                       (mapper_file, JsonFile fmap)]
  | Raise e =>
      written st' = written st
      ∨ ∃ metadata_file md,
          written st' = written st ++ [(metadata_file, XmlFile md)]
          ∧ (rbind (batch_files batch "outputs" "mapper_files") first_of
               = Raise e
             ∨ ∃ mapper_file fmap,
                 rbind (batch_files batch "outputs" "mapper_files") first_of
                   = Ok mapper_file
                 ∧ write_error mapper_file (JsonFile fmap) = Some e)
  end.
Proof.
  unfold run_body, sbind at 1.
  pose proof (configure_writes_nothing batch st) as H1.
  destruct (configure batch st) as [st1 [[]|e]]; simpl in H1;
    [|intros [= <- <-]; by left].
  unfold sbind at 1.
  pose proof (grid_coordinates_writes_nothing batch st1) as H2.
  destruct (grid_coordinates batch st1) as [st2 [[]|e]]; simpl in H2;
    [|intros [= <- <-]; left; congruence].
  intros Hf%finish_files. rewrite H2, H1 in Hf. done.
Qed.

End run_job_files.

(** The sample run job returns with its two files written; with a writer
    that cannot write the file mapper it raises the error of the writer,
    with the metadata file written. *)
Lemma run_job_writes_its_files_last_witness :
  let st0 := {| MetadataConfigurator.handler := "";
                MetadataConfigurator.calls := [];
                MetadataConfigurator.written := [] |} in
  (∃ st' md fmap,
     @MetadataConfigurator.run_body string Sample.no_stage_positions
       Sample.environment Sample.writers Sample.run_batch st0 = (st', Ok tt)
     ∧ MetadataConfigurator.written st'
       = [("/exp/uploads/u1/metadata.ome.xml", MetadataConfigurator.XmlFile md);
          ("/exp/uploads/u1/mapper.json", MetadataConfigurator.JsonFile fmap)])
  ∧ (∃ st' md,
       @MetadataConfigurator.run_body string Sample.no_stage_positions
         Sample.environment Sample.no_json Sample.run_batch st0
       = (st', Raise IOError)
       ∧ MetadataConfigurator.written st'
         = [("/exp/uploads/u1/metadata.ome.xml",
             MetadataConfigurator.XmlFile md)]).
Proof.
  intros st0. split.
  - destruct (@MetadataConfigurator.run_body string Sample.no_stage_positions
                Sample.environment Sample.writers Sample.run_batch st0)
      as [st' r] eqn:Hrun.
    pose proof (@run_job_writes_its_files_last string Sample.no_stage_positions
                  Sample.environment Sample.writers Sample.run_batch _ st' r
                  Hrun) as Hfiles.
    assert (r = Ok tt) as -> by (vm_compute in Hrun; congruence).
    destruct Hfiles as (mf & pf & md & fmap & H1 & H2 & _ & _ & Hw).
    exists st', md, fmap. split; [done|].
    vm_compute in H1. vm_compute in H2.
    injection H1 as <-. injection H2 as <-. exact Hw.
  - destruct (@MetadataConfigurator.run_body string Sample.no_stage_positions
                Sample.environment Sample.no_json Sample.run_batch st0)
      as [st' r] eqn:Hrun.
    pose proof (@run_job_writes_its_files_last string Sample.no_stage_positions
                  Sample.environment Sample.no_json Sample.run_batch _ st' r
                  Hrun) as Hfiles.
    assert (r = Raise IOError) as -> by (vm_compute in Hrun; congruence).
    assert (MetadataConfigurator.written st' ≠ []) as Hne.
    { vm_compute in Hrun. injection Hrun as <-. done. }
    destruct Hfiles as [Hw|(mf & md & Hw & _)]; [by rewrite Hw in Hne|].
    vm_compute in Hrun. injection Hrun as <-.
    eexists _, _. split; reflexivity.
Defined.

(** ** [collect_job_output]: what the loops keep *)

Lemma rfold_inv {A St} (f : St → A → result St) (I : St → Prop)
    (l : list A) (s0 s : St) :
  (∀ s x s', x ∈ l → I s → f s x = Ok s' → I s') →
  I s0 → rfold f l s0 = Ok s → I s.
Proof.
  revert s0. induction l as [|x l IH]; intros s0 Hstep H0; simpl.
  - by intros [= <-].
  - destruct (f s0 x) as [s1|e] eqn:Hf; simpl; [|done].
    apply IH.
    + intros s' y s'' Hy. apply Hstep. by right.
    + apply (Hstep s0 x); [by left|done..].
Qed.

Lemma rfold_inv_idx {A St} (f : St → A → result St) (I : nat → St → Prop)
    (l : list A) (s0 s : St) :
  (∀ i s x s', l !! i = Some x → I i s → f s x = Ok s' → I (S i) s') →
  I 0%nat s0 → rfold f l s0 = Ok s → I (length l) s.
Proof.
  revert I s0. induction l as [|x l IH]; intros I s0 Hstep H0; simpl.
  - by intros [= <-].
  - destruct (f s0 x) as [s1|e] eqn:Hf; simpl; [|done].
    apply (IH (λ i, I (S i))).
    + intros i s' y s''. apply (Hstep (S i)).
    + by apply (Hstep 0%nat s0 x).
Qed.

(** A loop that raises at some element raises as a whole. *)
Lemma rfold_raises {A St} (f : St → A → result St) (l : list A) (s0 : St) x :
  x ∈ l → (∀ s, ∃ e, f s x = Raise e) → ∃ e, rfold f l s0 = Raise e.
Proof.
  revert s0. induction l as [|y l IH]; intros s0 Hx Hf; [by apply elem_of_nil in Hx|].
  simpl. apply elem_of_cons in Hx as [<-|Hx].
  - destruct (Hf s0) as [e ->]. by exists e.
  - destruct (f s0 y) as [s1|e]; simpl; [by apply IH|by exists e].
Qed.

(** ** [index_where] *)

Lemma index_where_spec (cond : MetadataConfigurator.sample_key → bool)
    (lut : list MetadataConfigurator.sample_key) (ix : nat) :
  ix ∈ MetadataConfigurator.index_where cond lut
  ↔ ∃ k, lut !! ix = Some k ∧ cond k = true.
Proof.
  unfold MetadataConfigurator.index_where. rewrite list_elem_of_fmap. split.
  - intros ([i k] & -> & Hin). apply list_elem_of_filter in Hin as [Hc Hin].
    apply list_elem_of_lookup in Hin as [j Hj].
    apply lookup_zip_with_Some in Hj as (i' & k' & [= <- <-] & Hi & Hk).
    apply lookup_seq in Hi as [-> _]. by exists k.
  - intros (k & Hk & Hc). exists (ix, k). split; [done|].
    apply list_elem_of_filter. split; [done|].
    apply list_elem_of_lookup. exists ix.
    apply lookup_zip_with_Some. exists ix, k. split; [done|]. split; [|done].
    apply lookup_seq. split; [done|]. by apply lookup_lt_Some in Hk.
Qed.

Lemma index_where_length (cond : MetadataConfigurator.sample_key → bool)
    (lut : list MetadataConfigurator.sample_key) :
  length (MetadataConfigurator.index_where cond lut)
  = length (filter (λ k, cond k = true) lut).
Proof.
  unfold MetadataConfigurator.index_where. rewrite length_fmap.
  generalize 0%nat. induction lut as [|k lut IH]; intros n; [done|].
  cbn [length seq zip zip_with]. rewrite !filter_cons. simpl.
  destruct (decide (cond k = true)); simpl; by rewrite IH.
Qed.

Section build_loops.

Import MetadataConfigurator.
Context {env : Environment}.
Variables (experiment : Experiment) (md : OMEXML).
Variables (lut : list sample_key) (ids : list nat) (t : Z) (c n : nat).

Lemma build_sample_spec (wid : string) (bs bs' : build_state)
    (samples samples' : list WellSample) (s ix : nat) (k : sample_key) :
  lut !! ix = Some k → key_t k = t →
  built md lut ids t c n bs →
  build_sample experiment md lut ids c wid (bs, samples) (s, ix)
    = Ok (bs', samples') →
  built md lut ids t c n bs'
  ∧ bs_im_count bs' = S (bs_im_count bs)
  ∧ ∃ sample, samples' = samples ++ [sample]
      ∧ sample_index sample = s ∧ ImageRef sample = bs_im_count bs
      ∧ PositionY sample = key_y k ∧ PositionX sample = key_x k.
Proof.
  intros Hk Ht (Hlen & Hle & Him & Hfm). unfold build_sample, nth_item, ome_image.
  rewrite Hk. cbn [rbind].
  destruct (ids !! ix) as [r|] eqn:Hr; cbn [rbind]; [|by intros [=]].
  destruct (images md !! r) as [ref_im|] eqn:Href; cbn [rbind]; [|by intros [=]].
  destruct (bs_images bs !! bs_im_count bs) as [old|] eqn:Hold;
    cbn [rbind]; [|by intros [=]].
  intros [= <- <-].
  apply lookup_lt_Some in Hold.
  split; [|split; [simpl; lia|eexists; by repeat split]].
  split; [|split; [|split]]; cbn [bs_images bs_fm_lut bs_im_count].
  - by rewrite length_insert.
  - lia.
  - intros i Hi. destruct (decide (i = bs_im_count bs)) as [->|Hne].
    + rewrite list_lookup_insert_eq by done. eexists. split; [done|].
      by repeat split.
    + rewrite list_lookup_insert_ne by done. apply Him. lia.
  - intros r' i. destruct (decide (r' = r)) as [->|Hne].
    + rewrite lookup_insert_eq. intros [= <-]. split; [lia|]. split.
      * exists ref_im. eexists. split; [done|].
        rewrite list_lookup_insert_eq by done. split; [done|].
        by repeat split.
      * by exists ix, k.
    + rewrite lookup_insert_ne by done. intros Hi.
      destruct (Hfm r' i Hi) as (Hlt & (ref' & im' & ? & ? & ?) & Hsrc).
      split; [lia|]. split; [|done]. exists ref', im'.
      rewrite list_lookup_insert_ne by lia. done.
Qed.

Lemma build_well_spec (bs bs' : build_state) (wells wells' : list Well)
    (w : nat) (well : Well) :
  built md lut ids t c n bs →
  build_well experiment md lut ids t c (bs, wells) (w, well)
    = Ok (bs', wells') →
  let m := length (filter (λ k, key_w k = w ∧ key_t k = t) lut) in
  built md lut ids t c n bs'
  ∧ bs_im_count bs' = (bs_im_count bs + m)%nat
  ∧ ∃ samples,
      wells' = wells ++ [{| well_id := well_id well; well_Row := well_Row well;
                            well_Column := well_Column well;
                            Sample := samples |}]
      ∧ ImageRef <$> samples = seq (bs_im_count bs) m
      ∧ sample_index <$> samples = seq 0 m.
Proof.
  intros Hbs. unfold build_well.
  set (cond := λ k : sample_key,
         bool_decide (key_w k = w) && bool_decide (key_t k = t)).
  set (well_ix := index_where cond lut).
  assert (length well_ix
          = length (filter (λ k, key_w k = w ∧ key_t k = t) lut)) as Hm.
  { unfold well_ix. rewrite index_where_length. f_equal.
    apply list_filter_iff. intros k. unfold cond.
    rewrite andb_true_iff, !bool_decide_eq_true. done. }
  rewrite <- Hm.
  destruct (rfold _ _ (bs, [])) as [[bs1 samples]|e] eqn:Hrun;
    cbn [rbind]; [|by intros [=]].
  intros [= <- <-].
  apply (rfold_inv_idx _
           (λ i st, built md lut ids t c n st.1
                    ∧ bs_im_count st.1 = (bs_im_count bs + i)%nat
                    ∧ ImageRef <$> st.2 = seq (bs_im_count bs) i
                    ∧ sample_index <$> st.2 = seq 0 i)) in Hrun.
  - rewrite length_zip, length_seq, Nat.min_id in Hrun. simpl in Hrun.
    destruct Hrun as (? & ? & ? & ?). split; [done|]. split; [done|].
    by eexists.
  - intros i [bs2 samples2] [s ix] [bs3 samples3] Hi (Hb & Hc & Hr & Hs) Hstep.
    simpl in Hb, Hc, Hr, Hs.
    apply lookup_zip_with_Some in Hi as (? & ? & [= <- <-] & Hseq & Hix).
    apply lookup_seq in Hseq as [-> _]. cbn [fst snd].
    assert (ix ∈ well_ix) as Hin by (by eapply list_elem_of_lookup_2).
    apply index_where_spec in Hin as (k & Hk & Hcond). unfold cond in Hcond.
    apply andb_true_iff in Hcond as [_ Ht%bool_decide_eq_true].
    destruct (build_sample_spec _ _ _ _ _ _ _ _ Hk Ht Hb Hstep)
      as (Hb' & Hc' & sample & -> & Hsi & Hsr & _).
    split; [done|]. split; [lia|].
    rewrite !fmap_app, !seq_S. simpl. rewrite Hr, Hs, Hsi, Hsr, Hc. done.
  - simpl. split; [done|]. split; [lia|]. done.
Qed.

End build_loops.

Section cycle_metadata.

Import MetadataConfigurator.
Context {env : Environment}.

Lemma filter_key_w_S (lut : list sample_key) (t : Z) (w : nat) :
  length (filter (λ k, (key_w k < S w)%nat ∧ key_t k = t) lut)
  = (length (filter (λ k, (key_w k < w)%nat ∧ key_t k = t) lut)
     + length (filter (λ k, key_w k = w ∧ key_t k = t) lut))%nat.
Proof.
  induction lut as [|k lut IH]; [done|]. rewrite !filter_cons.
  repeat case_decide; simpl; lia.
Qed.

Lemma dd_append_Forall (P : sample_key * list nat → Prop)
    (d : list (sample_key * list nat)) (k : sample_key) (r : nat) :
  Forall P d → (∀ refs, P (k, refs) → P (k, refs ++ [r])) → P (k, [r]) →
  Forall P (dd_append d k r).
Proof.
  intros Hd Happ Hnew. induction Hd as [|[k' refs] d Hk' Hd IH]; simpl.
  - by constructor.
  - case_decide as Heq.
    + subst k'. constructor; [by apply Happ|done].
    + by constructor.
Qed.

(** The keys of the lookup table of samples name wells of the plate, and the
    images listed under a key are images of its time point. *)
Lemma tpoint_samples_spec (md : OMEXML) (plate : Plate)
    (d : list (sample_key * list nat)) :
  tpoint_samples md plate = Ok d →
  Forall (λ kv, (key_w kv.1 < length (plate_Well plate))%nat
                ∧ Forall (λ r, ∃ im, images md !! r = Some im
                                   ∧ TheT im = key_t kv.1) kv.2) d.
Proof.
  unfold tpoint_samples. intros Hrun.
  apply (rfold_inv_idx _ (λ _ d, Forall (λ kv,
           (key_w kv.1 < length (plate_Well plate))%nat
           ∧ Forall (λ r, ∃ im, images md !! r = Some im
                              ∧ TheT im = key_t kv.1) kv.2) d)) in Hrun;
    [done| |done].
  intros i d1 [w well] d2 Hi Hd1 Hwell.
  apply lookup_zip_with_Some in Hi as (? & ? & [= <- <-] & Hseq & Hw).
  apply lookup_seq in Hseq as [-> Hlt]. simpl in Hlt.
  revert Hwell. apply rfold_inv; [|done].
  intros d3 s d4 _ Hd3. unfold sample_step, ome_image.
  destruct (images md !! ImageRef s) as [im|] eqn:Him; cbn [rbind];
    [|by intros [=]].
  intros [= <-]. apply dd_append_Forall; [done| |].
  - intros refs [? Hrefs]. split; [done|]. simpl in *.
    apply Forall_app. split; [done|]. constructor; [|done]. by exists im.
  - split; [done|]. simpl. constructor; [|done]. by exists im.
Qed.



Lemma build_cycle_metadata_spec (experiment : Experiment) (md : OMEXML)
    (plate : Plate) (lut : list sample_key) (ids : list nat) (t : Z)
    (c : nat) (cycle : Cycle) (cm : OMEXML) (fm_lut : gmap nat nat) :
  build_cycle_metadata experiment md plate lut ids t c cycle = Ok (cm, fm_lut) →
  ∃ bs wells p0,
    cm = {| plates := [{| plate_name := cycle_plate_name cycle;
                          RowNamingConvention := RowNamingConvention p0;
                          ColumnNamingConvention := ColumnNamingConvention p0;
                          Rows := Rows p0; Columns := Columns p0;
                          plate_Well := wells |}];
            images := bs_images bs |}
    ∧ plates md !! 0%nat = Some p0
    ∧ fm_lut = bs_fm_lut bs
    ∧ built md lut ids t c (length (filter (λ k, key_t k = t) lut)) bs
    ∧ bs_im_count bs
      = length (filter (λ k, (key_w k < length (plate_Well plate))%nat
                             ∧ key_t k = t) lut)
    ∧ ImageRef <$> concat (Sample <$> wells) = seq 0 (bs_im_count bs)
    ∧ (λ w, (well_id w, well_Row w, well_Column w)) <$> wells
      = (λ w, (well_id w, well_Row w, well_Column w)) <$> plate_Well plate.
Proof.
  unfold build_cycle_metadata, nth_item.
  destruct (plates md !! 0%nat) as [p0|] eqn:Hp0; cbn [rbind]; [|by intros [=]].
  rewrite index_where_length.
  assert (filter (λ k, bool_decide (key_t k = t) = true) lut
          = filter (λ k, key_t k = t) lut) as ->.
  { apply list_filter_iff. intros k. by rewrite bool_decide_eq_true. }
  set (N := length (filter (λ k, key_t k = t) lut)).
  destruct (rfold _ _ _) as [[bs wells]|e] eqn:Hrun; cbn [rbind];
    [|by intros [=]].
  intros [= <- <-]. exists bs, wells, p0.
  split; [done|]. split; [done|]. split; [done|].
  apply (rfold_inv_idx _
           (λ w st,
              built md lut ids t c N st.1
              ∧ bs_im_count st.1
                = length (filter (λ k, (key_w k < w)%nat ∧ key_t k = t) lut)
              ∧ ImageRef <$> concat (Sample <$> st.2) = seq 0 (bs_im_count st.1)
              ∧ (λ w, (well_id w, well_Row w, well_Column w)) <$> st.2
                = (λ w, (well_id w, well_Row w, well_Column w))
                    <$> take w (plate_Well plate))) in Hrun.
  - rewrite length_zip, length_seq, Nat.min_id in Hrun. simpl in Hrun.
    by rewrite firstn_all in Hrun.
  - intros i [bs1 wells1] [w well] [bs2 wells2] Hi (Hb & Hc & Hr & Hw) Hstep.
    simpl in Hb, Hc, Hr, Hw.
    apply lookup_zip_with_Some in Hi as (? & ? & [= <- <-] & Hseq & Hwell).
    apply lookup_seq in Hseq as [-> _].
    destruct (build_well_spec _ _ _ _ _ _ _ _ _ _ _ _ _ Hb Hstep)
      as (Hb' & Hc' & samples & -> & Hrefs & _).
    cbn [fst snd]. split; [done|]. split; [|split].
    + rewrite Hc', Hc. symmetry. apply filter_key_w_S.
    + rewrite fmap_app, concat_app, fmap_app, Hr. simpl. rewrite app_nil_r.
      rewrite Hrefs, Hc'. by rewrite seq_app.
    + rewrite fmap_app, Hw. rewrite (take_S_r _ _ _ Hwell), fmap_app. done.
  - unfold built. cbn [bs_images bs_fm_lut bs_im_count fst snd].
    split; [|split; [|done]].
    + split; [by rewrite length_replicate|]. split; [lia|].
      split; [intros i Hi; lia|]. intros r i.
      by rewrite lookup_empty.
    + clear. induction lut as [|k l IH]; [done|]. rewrite filter_cons.
      by rewrite decide_False by lia.
Qed.

End cycle_metadata.

(** ** The keys of the samples *)

Section sample_keys.

Import MetadataConfigurator.
Context {env : Environment}.

Lemma dd_append_keys (d : list (sample_key * list nat)) (k : sample_key)
    (r : nat) :
  fst <$> dd_append d k r
  = if decide (k ∈ fst <$> d) then fst <$> d else (fst <$> d) ++ [k].
Proof.
  induction d as [|[k' refs] d IH]; [done|]. cbn [dd_append].
  destruct (decide (k' = k)) as [->|Hne].
  - cbn [fmap list_fmap fst]. rewrite decide_True; [done|left].
  - cbn [fmap list_fmap fst] in *. rewrite IH.
    destruct (decide (k ∈ fst <$> d)) as [Hin|Hout].
    + rewrite decide_True; [done|by right].
    + rewrite decide_False; [done|].
      intros [?|?]%elem_of_cons; congruence.
Qed.

Lemma dd_append_singletons (d : list (sample_key * list nat)) (k : sample_key)
    (r : nat) :
  k ∉ fst <$> d → Forall (λ kv, length kv.2 = 1%nat) d →
  Forall (λ kv, length kv.2 = 1%nat) (dd_append d k r).
Proof.
  intros Hout Hd. induction Hd as [|[k' refs] d Hk' Hd IH]; cbn [dd_append].
  - by repeat constructor.
  - cbn [fmap list_fmap fst] in Hout. apply not_elem_of_cons in Hout as [? ?].
    rewrite decide_False by done. constructor; [done|by apply IH].
Qed.

Lemma filed_step ks d k r :
  filed ks d → filed (ks ++ [k]) (dd_append d k r).
Proof.
  intros (Hnd & Hin & Hone). unfold filed. rewrite dd_append_keys.
  destruct (decide (k ∈ fst <$> d)) as [Hk|Hk].
  - split; [done|]. split.
    + intros k'. rewrite elem_of_app, list_elem_of_singleton, Hin.
      split; [by left|]. intros [? | ->]; [done|by apply Hin].
    + intros [_ [Hnew _]]%NoDup_app. exfalso.
      apply (Hnew k); [by apply Hin|by apply list_elem_of_singleton].
  - split; [|split].
    + apply NoDup_app. split; [done|]. split; [|apply NoDup_singleton].
      by intros k' ? ->%list_elem_of_singleton.
    + intros k'. rewrite !elem_of_app, Hin. done.
    + intros [Hks _]%NoDup_app. apply dd_append_singletons; [done|].
      by apply Hone.
Qed.

Lemma sample_steps_keys (md : OMEXML) (w : nat) :
  ∀ (samples : list WellSample) (ks : list sample_key)
    (d d' : list (sample_key * list nat)),
    rfold (sample_step md w) samples d = Ok d' →
    filed ks d →
    length (omap (key_of md w) samples) = length samples
    ∧ filed (ks ++ omap (key_of md w) samples) d'.
Proof.
  induction samples as [|s samples IH]; intros ks d d'; cbn [rfold].
  - intros [= <-] Hd. by rewrite app_nil_r.
  - unfold sample_step at 1, ome_image.
    destruct (images md !! ImageRef s) as [im|] eqn:Him; cbn [rbind];
      [|discriminate].
    assert (key_of md w s
            = Some (w, PositionY s, PositionX s, Channel_Name im, TheT im))
      as Hkey by (unfold key_of; by rewrite Him).
    cbn [omap list_omap]. rewrite Hkey.
    intros Hrun Hd.
    destruct (IH (ks ++ [(w, PositionY s, PositionX s, Channel_Name im, TheT im)])
                _ _ Hrun) as [Hlen Hd'].
    { by apply filed_step. }
    split; [cbn [length]; by rewrite Hlen|].
    by rewrite <- app_assoc in Hd'.
Qed.

Lemma well_steps_keys (md : OMEXML) :
  ∀ (wells : list Well) (n : nat) (ks : list sample_key)
    (d d' : list (sample_key * list nat)),
    rfold (λ d '(w, well), rfold (sample_step md w) (Sample well) d)
          (zip (seq n (length wells)) wells) d = Ok d' →
    filed ks d →
    let keys := concat (imap (λ w well, omap (key_of md (n + w)) (Sample well))
                          wells) in
    length keys = length (concat (Sample <$> wells))
    ∧ filed (ks ++ keys) d'.
Proof.
  induction wells as [|well wells IH]; intros n ks d d';
    cbn [length seq zip zip_with rfold].
  - intros [= <-] Hd. simpl. by rewrite app_nil_r.
  - destruct (rfold (sample_step md n) (Sample well) d) as [d1|] eqn:H1;
      cbn [rbind]; [|by intros [=]].
    intros Hrun Hd.
    destruct (sample_steps_keys md n _ ks _ _ H1 Hd) as [Hlen1 Hd1].
    destruct (IH (S n) _ _ _ Hrun Hd1) as [Hlen Hd'].
    rewrite imap_cons. cbn [concat fmap list_fmap].
    rewrite Nat.add_0_r, !length_app.
    assert (imap ((λ w well0, omap (key_of md (n + w)) (Sample well0)) ∘ S) wells
            = imap (λ w well0, omap (key_of md (S n + w)) (Sample well0)) wells)
      as ->.
    { apply imap_ext. intros i x _. simpl. by rewrite Nat.add_succ_r. }
    split; [by rewrite Hlen1, Hlen|]. by rewrite app_assoc.
Qed.

(** [tpoint_samples] files every sample of the plate under its key: the keys
    of the dictionary are the keys of the samples, each once, and when no
    two samples share a key every key has one sample. *)
Lemma tpoint_samples_keys (md : OMEXML) (plate : Plate)
    (d : list (sample_key * list nat)) :
  tpoint_samples md plate = Ok d →
  length (plate_keys md plate) = length (concat (Sample <$> plate_Well plate))
  ∧ filed (plate_keys md plate) d.
Proof.
  intros Hrun.
  apply (well_steps_keys md (plate_Well plate) 0 [] [] d Hrun).
  split; [constructor|]. split; [done|]. by constructor.
Qed.

(** The rows of the lookup table for a time point are as many as the
    samples at that time point have keys. *)
Lemma lut_rows (u : Upload) (plate : Plate) (lut : list sample_key)
    (ids : list nat) (t : Z) :
  iterates_items →
  plates (image_metadata u) !! 0%nat = Some plate →
  lookup_table u = Ok (lut, ids) →
  length (filter (λ k, key_t k = t) lut)
  = length (remove_dups (filter (λ k, key_t k = t)
                           (plate_keys (image_metadata u) plate))).
Proof.
  intros Hdict Hplate Hlut. unfold lookup_table, nth_item in Hlut.
  rewrite Hplate in Hlut. cbn [rbind] in Hlut.
  destruct (tpoint_samples _ _) as [d|] eqn:Hd; cbn [rbind] in Hlut; [|done].
  case_bool_decide; [done|]. injection Hlut as <- _.
  destruct (tpoint_samples_keys _ _ _ Hd) as (_ & Hnd & Hin & _).
  apply Permutation_length, NoDup_Permutation.
  - apply NoDup_filter. by rewrite (Hdict d).
  - apply NoDup_remove_dups.
  - intros k. rewrite elem_of_remove_dups, !list_elem_of_filter.
    by rewrite (Hdict d), Hin.
Qed.

End sample_keys.

Section lookup_tables.

Import MetadataConfigurator.
Context {env : Environment}.

Lemma plan_of_elem (u : Upload) (src : cycle_source) :
  src ∈ plan_of u →
  ∃ plate lut ids,
    plates (image_metadata u) !! 0%nat = Some plate
    ∧ lookup_table u = Ok (lut, ids)
    ∧ src_tpoint src ∈ unique_tpoints lut
    ∧ src = {| src_upload := u; src_plate := plate; src_lut := lut;
               src_ids := ids; src_tpoint := src_tpoint src |}.
Proof.
  unfold plan_of, nth_item.
  destruct (plates (image_metadata u) !! 0%nat) as [plate|]; simpl;
    [|by intros ?%elem_of_nil].
  destruct (lookup_table u) as [[lut ids]|]; [|by intros ?%elem_of_nil].
  intros (t & -> & Ht)%list_elem_of_fmap. by exists plate, lut, ids.
Qed.

Lemma lookup_table_spec (u : Upload) (plate : Plate)
    (lut : list sample_key) (ids : list nat) :
  iterates_items →
  plates (image_metadata u) !! 0%nat = Some plate →
  lookup_table u = Ok (lut, ids) →
  ∃ d items,
    tpoint_samples (image_metadata u) plate = Ok d
    ∧ items ≡ₚ d ∧ lut = fst <$> items ∧ ids = concat (snd <$> items)
    ∧ lut ≠ []
    ∧ Forall (λ k, (key_w k < length (plate_Well plate))%nat) lut.
Proof.
  intros Hdict Hplate. unfold lookup_table, nth_item. rewrite Hplate.
  cbn [rbind].
  destruct (tpoint_samples _ _) as [d|] eqn:Hd; cbn [rbind]; [|by intros [=]].
  case_bool_decide as Hne; [by intros [=]|]. intros [= <- <-].
  exists d, (dict_order d). split; [done|]. split; [apply Hdict|].
  split; [done|]. split; [done|]. split; [done|].
  apply tpoint_samples_spec in Hd. rewrite <- (Hdict d) in Hd.
  apply Forall_fmap. eapply Forall_impl; [exact Hd|]. by intros kv [? _].
Qed.

(** X10.  The metadata written for a cycle are consistent.  Let the
    iteration over the dictionary of samples yield its items.  When the
    metadata of a cycle of an upload are built, they hold one plate, named
    after the cycle, with the wells of the plate of the upload.  Every
    sample of the plate has a key: its well, its position, and the channel
    and the time point of its image.  The metadata hold as many images as
    the samples at the time point of the cycle have different keys, which
    is the number of these samples when no two samples of the plate share a
    key.  The samples of the wells, taken in order, refer to the images
    0, 1, 2, ..., each image once; image number [i] has the id [i], the
    number of the cycle as its time point and the sizes 1; and the table
    from the images of the upload to those of the cycle sends an image to a
    copy of it. *)
Theorem cycle_metadata_is_consistent (experiment : Experiment)
    (cycles0 : list Cycle) (c : nat) (u : Upload) (src : cycle_source)
    (cm : OMEXML) (fm_lut : gmap nat nat) :
  iterates_items →
  src ∈ plan_of u →
  source_metadata experiment cycles0 c src = Ok (cm, fm_lut) →
  let keys := plate_keys (image_metadata u) (src_plate src) in
  let at_tpoint := filter (λ k, key_t k = src_tpoint src) keys in
  ∃ p, plates cm = [p]
     ∧ plate_name p = cycle_plate_name (cycle_for cycles0 c)
     ∧ (λ w, (well_id w, well_Row w, well_Column w)) <$> plate_Well p
       = (λ w, (well_id w, well_Row w, well_Column w))
           <$> plate_Well (src_plate src)
     ∧ length keys = length (concat (Sample <$> plate_Well (src_plate src)))
     ∧ length (images cm) = length (remove_dups at_tpoint)
     ∧ (NoDup keys → length (images cm) = length at_tpoint)
     ∧ ImageRef <$> concat (Sample <$> plate_Well p)
       = seq 0 (length (images cm))
     ∧ (∀ i im, images cm !! i = Some im → cycle_image c i im)
     ∧ (∀ r i, fm_lut !! r = Some i →
          ∃ ref_im im, images (image_metadata u) !! r = Some ref_im
                     ∧ images cm !! i = Some im ∧ copied_from ref_im im).
Proof.
  intros Hdict (plate & lut & ids & Hplate & Hlut & Ht & ->)%plan_of_elem.
  unfold source_metadata. cbn [src_upload src_plate src_lut src_ids src_tpoint].
  intros Hbuild.
  destruct (lookup_table_spec u plate lut ids Hdict Hplate Hlut)
    as (d & items & Hd & _ & _ & _ & _ & Hw).
  destruct (tpoint_samples_keys _ _ _ Hd) as [Hkeys _].
  pose proof (lut_rows u plate lut ids (src_tpoint src) Hdict Hplate Hlut)
    as Hrows.
  apply build_cycle_metadata_spec in Hbuild
    as (bs & wells & p0 & -> & _ & -> & Hbs & Hcount & Hrefs & Hwells).
  assert (filter (λ k, (key_w k < length (plate_Well plate))%nat
                       ∧ key_t k = src_tpoint src) lut
          = filter (λ k, key_t k = src_tpoint src) lut) as Hall.
  { clear -Hw. induction Hw as [|k l Hk Hw IH]; [done|].
    rewrite !filter_cons, IH.
    destruct (decide (key_t k = src_tpoint src)).
    - by rewrite decide_True.
    - by rewrite decide_False by (by intros [_ ?]). }
  rewrite Hall in Hcount.
  destruct Hbs as (Hlen & _ & Him & Hfm). rewrite <- Hlen in Hcount.
  assert (length (bs_images bs)
          = length (remove_dups (filter (λ k, key_t k = src_tpoint src)
                                   (plate_keys (image_metadata u) plate))))
    as Hn by (rewrite Hlen; exact Hrows).
  eexists. split; [done|]. cbn [plate_name plate_Well images].
  split; [done|]. split; [done|]. split; [done|]. split; [done|].
  split.
  { intros Hnd. rewrite Hn. apply Permutation_length.
    apply NoDup_Permutation; [apply NoDup_remove_dups|by apply NoDup_filter|].
    intros k. apply elem_of_remove_dups. }
  split; [by rewrite Hrefs, Hcount|]. split.
  - intros i im Hi. destruct (Him i) as (im' & Hi' & Hc).
    { rewrite Hcount. by apply lookup_lt_Some in Hi. }
    congruence.
  - intros r i Hr. by destruct (Hfm r i Hr) as (_ & ? & _).
Qed.

(** When every key has one image, the flattened values of the lookup table
    are in line with its keys. *)
Lemma concat_singletons {K} (items : list (K * list nat)) (ix r : nat) :
  Forall (λ kv, length kv.2 = 1%nat) items →
  concat (snd <$> items) !! ix = Some r →
  ∃ k, items !! ix = Some (k, [r]).
Proof.
  intros Hone. revert ix. induction Hone as [|[k refs] items Hk _ IH]; intros ix.
  - done.
  - simpl in Hk. destruct refs as [|r' [|??]]; simpl in Hk; try done.
    simpl. destruct ix as [|ix]; simpl.
    + intros [= ->]. by exists k.
    + apply IH.
Qed.

(** The images that the lookup table of a cycle knows are images of the
    time point of the cycle. *)
Lemma fm_lut_time_point (experiment : Experiment) (u : Upload) (plate : Plate)
    (d : list (sample_key * list nat)) (lut : list sample_key)
    (ids : list nat) (t : Z) (c : nat) (cycle : Cycle)
    (cm : OMEXML) (fm_lut : gmap nat nat) (r : nat) :
  iterates_items →
  plates (image_metadata u) !! 0%nat = Some plate →
  tpoint_samples (image_metadata u) plate = Ok d →
  Forall (λ kv, length kv.2 = 1%nat) d →
  lookup_table u = Ok (lut, ids) →
  build_cycle_metadata experiment (image_metadata u) plate lut ids t c cycle
    = Ok (cm, fm_lut) →
  is_Some (fm_lut !! r) →
  ∃ im, images (image_metadata u) !! r = Some im ∧ TheT im = t.
Proof.
  intros Hdict Hplate Hd Hone Hlut Hbuild [i Hr].
  destruct (lookup_table_spec u plate lut ids Hdict Hplate Hlut)
    as (d' & items & Hd' & Hperm & -> & -> & _ & _).
  rewrite Hd in Hd'. injection Hd' as <-.
  apply build_cycle_metadata_spec in Hbuild
    as (bs & wells & p0 & _ & _ & -> & Hbs & _).
  destruct Hbs as (_ & _ & _ & Hfm).
  destruct (Hfm r i Hr) as (_ & _ & ix & k & Hk & Ht & Hix).
  rewrite <- Hperm in Hone.
  apply (concat_singletons _ _ _ Hone) in Hix as [k' Hitem].
  rewrite list_lookup_fmap, Hitem in Hk. injection Hk as ->.
  apply tpoint_samples_spec in Hd. rewrite <- Hperm in Hd.
  rewrite Forall_lookup in Hd. destruct (Hd _ _ Hitem) as [_ Hrefs].
  simpl in Hrefs. apply Forall_cons in Hrefs as [(im & Him & Hti) _].
  exists im. split; [done|]. congruence.
Qed.

Lemma rewrite_mapper_raises (u : Upload) (cycle : Cycle) (cm : OMEXML)
    (fm_lut : gmap nat nat) (element : ImageFileMapper) :
  element ∈ image_mapper u → fm_lut !! ref_index element = None →
  ∃ e, rewrite_mapper u cycle cm fm_lut = Raise e.
Proof.
  intros Hin Hnone. unfold rewrite_mapper.
  apply (rfold_raises _ _ _ element Hin). intros s.
  unfold rewrite_element. rewrite Hnone. by exists KeyError.
Qed.

Lemma process_tpoint_raises (experiment : Experiment) (u : Upload)
    (plate : Plate) (lut : list sample_key) (ids : list nat)
    (vars : nat * list ImageFileMapper) (t : Z) (st : collect_state) :
  (∀ cycle cm fm_lut,
     build_cycle_metadata experiment (image_metadata u) plate lut ids t
       vars.1 cycle = Ok (cm, fm_lut) →
     ∃ e, rewrite_mapper u cycle cm fm_lut = Raise e) →
  ∃ st' e, process_tpoint experiment u plate lut ids vars t st = (st', Raise e)
         ∧ mapper_writes (events st') = mapper_writes (events st)
         ∧ cycle_updates (events st') = cycle_updates (events st) ++ [vars.1].
Proof.
  destruct vars as [c gfm]. cbn [fst]. intros Hfail.
  unfold process_tpoint. unfold sbind at 1, record at 1.
  unfold sbind at 1, try_except, get_cycle. cbn [cycles events].
  assert (∀ cycle cyc,
    ∃ st' e,
      sbind (slift (build_cycle_metadata experiment (image_metadata u) plate
                      lut ids t c cycle))
        (λ '(cycle_metadata, fm_lut),
           sbind (record (Written
                            (posixpath.join (cycle_dir cycle)
                               [cycle_image_metadata_file cycle])
                            (XmlFile cycle_metadata)))
             (λ _, sbind (slift (rewrite_mapper u cycle cycle_metadata fm_lut))
                     (λ new_elements,
                        sret ((c + 1)%nat, gfm ++ new_elements))))
        {| cycles := cyc; events := events st ++ [Info_update_cycle c] |}
      = (st', Raise e)
      ∧ mapper_writes (events st') = mapper_writes (events st)
      ∧ cycle_updates (events st') = cycle_updates (events st) ++ [c])
    as Hbody.
  { intros cycle cyc. unfold sbind at 1, slift at 1.
    destruct (build_cycle_metadata _ _ _ _ _ _ _ _) as [[cm fm]|e] eqn:Hb.
    - destruct (Hfail cycle cm fm Hb) as [e He].
      unfold sbind, record, slift. cbn [cycles events]. rewrite He.
      eexists _, e. split; [done|]. cbn [events].
      rewrite !mapper_writes_app, !cycle_updates_app. simpl.
      by rewrite !app_nil_r.
    - eexists _, e. split; [done|]. cbn [events].
      rewrite mapper_writes_app, cycle_updates_app. simpl.
      by rewrite app_nil_r. }
  destruct (nth_item (cycles st) c) as [cycle|e] eqn:Hnth; [apply Hbody|].
  rewrite decide_True; [unfold append_cycle; cbn [cycles events]; apply Hbody|].
  unfold nth_item in Hnth. destruct (cycles st !! c); congruence.
Qed.

(** X11.  An upload whose file mapper covers images of two time points is
    never collected.  Let the iterations over the dictionary of samples and
    over the set of time points yield what these hold, and let no two
    samples of the plate of the upload share well, position, channel and
    time point.  When the file mapper of the upload has two entries whose
    images are of different time points, the upload ends in an exception.
    It does so in the first cycle begun for it at the latest, and no second
    cycle is begun: the table of the first cycle knows the images of its
    own time point only, and the loop over the file mapper looks up every
    entry.  No file mapper is written for the upload. *)
Theorem upload_over_several_time_points_fails (experiment : Experiment)
    (vars : nat * list ImageFileMapper) (u : Upload) (st : collect_state)
    (e1 e2 : ImageFileMapper) (im1 im2 : OmeImage) :
  iterates_items → iterates_elements →
  (∀ plate, plates (image_metadata u) !! 0%nat = Some plate →
     NoDup (plate_keys (image_metadata u) plate)) →
  e1 ∈ image_mapper u → e2 ∈ image_mapper u →
  images (image_metadata u) !! ref_index e1 = Some im1 →
  images (image_metadata u) !! ref_index e2 = Some im2 →
  TheT im1 ≠ TheT im2 →
  ∃ st' e, process_upload experiment vars u st = (st', Raise e)
         ∧ mapper_writes (events st') = mapper_writes (events st)
         ∧ (cycle_updates (events st') = cycle_updates (events st)
            ∨ cycle_updates (events st')
              = cycle_updates (events st) ++ [vars.1]).
Proof.
  intros Hdict Hset Hone He1 He2 Him1 Him2 Hdiff.
  unfold process_upload. unfold sbind at 1, slift at 1, nth_item.
  destruct (plates (image_metadata u) !! 0%nat) as [plate|] eqn:Hplate;
    [|eexists _, _; split; [done|]; split; [done|by left]].
  unfold sbind at 1, slift at 1.
  destruct (lookup_table u) as [[lut ids]|e] eqn:Hlut;
    [|eexists _, _; split; [done|]; split; [done|by left]].
  destruct (lookup_table_spec u plate lut ids Hdict Hplate Hlut)
    as (d & items & Hd & _ & _ & _ & Hne & _).
  destruct (tpoint_samples_keys _ _ _ Hd) as (_ & _ & _ & Hsingle).
  specialize (Hsingle (Hone plate eq_refl)).
  unfold sbind at 1, record at 1.
  destruct (unique_tpoints lut) as [|t ts] eqn:Hts.
  { exfalso. destruct lut as [|k lut]; [done|].
    assert (key_t k ∈ unique_tpoints (k :: lut)) as Hin.
    { unfold unique_tpoints. apply Hset. left. }
    rewrite Hts in Hin. by apply elem_of_nil in Hin. }
  cbn [sfold]. unfold sbind at 1, sbind at 1.
  edestruct (process_tpoint_raises experiment u plate lut ids vars t)
    as (st' & e & -> & Hw & Hc).
  - intros cycle cm fm_lut Hbuild.
    assert (∀ r, is_Some (fm_lut !! r) →
              ∃ im, images (image_metadata u) !! r = Some im ∧ TheT im = t)
      as Hdom.
    { intros r. exact (fm_lut_time_point experiment u plate d lut ids t _
                         cycle cm fm_lut r Hdict Hplate Hd Hsingle Hlut
                         Hbuild). }
    assert (fm_lut !! ref_index e1 = None ∨ fm_lut !! ref_index e2 = None)
      as [Hnone|Hnone].
    { destruct (fm_lut !! ref_index e1) as [i1|] eqn:H1; [|by left].
      destruct (fm_lut !! ref_index e2) as [i2|] eqn:H2; [|by right].
      destruct (Hdom (ref_index e1)) as (? & ? & ?); [by eexists|].
      destruct (Hdom (ref_index e2)) as (? & ? & ?); [by eexists|].
      congruence. }
    + by apply (rewrite_mapper_raises u cycle cm fm_lut e1).
    + by apply (rewrite_mapper_raises u cycle cm fm_lut e2).
  - eexists _, e. split; [done|]. rewrite Hw, Hc. cbn [events].
    rewrite mapper_writes_app, cycle_updates_app. simpl.
    rewrite !app_nil_r. split; [done|by right].
Qed.

(** X12.  An upload without samples is refused before anything happens:
    with no plate in its metadata the step ends in [IndexError], and with a
    plate whose wells hold no sample in the [ValueError] of the column names
    of the empty lookup table.  No cycle is made, nothing is logged or
    written. *)
Theorem upload_without_samples_is_refused (experiment : Experiment)
    (vars : nat * list ImageFileMapper) (u : Upload) (st : collect_state) :
  iterates_items →
  (plates (image_metadata u) = [] →
   process_upload experiment vars u st = (st, Raise IndexError))
  ∧ (∀ plate, plates (image_metadata u) !! 0%nat = Some plate →
       Forall (λ well, Sample well = []) (plate_Well plate) →
       process_upload experiment vars u st
       = (st, Raise (ValueError Length_mismatch))).
Proof.
  intros Hdict. split.
  - intros Hnone. unfold process_upload, sbind at 1, slift, nth_item.
    by rewrite Hnone.
  - intros plate Hplate Hwells.
    assert (tpoint_samples (image_metadata u) plate = Ok []) as Hd.
    { unfold tpoint_samples. generalize 0%nat.
      induction Hwells as [|well wells Hwell _ IH]; intros n; [done|].
      cbn [length seq zip zip_with rfold]. rewrite Hwell. cbn [rfold rbind].
      apply IH. }
    assert (lookup_table u = Raise (ValueError Length_mismatch)) as Hlut.
    { unfold lookup_table, nth_item. rewrite Hplate. cbn [rbind].
      rewrite Hd. cbn [rbind].
      pose proof (Hdict []) as Hnil. apply Permutation_nil_r in Hnil.
      by rewrite Hnil. }
    unfold process_upload, sbind at 1, slift at 1, nth_item. rewrite Hplate.
    unfold sbind at 1, slift at 1. by rewrite Hlut.
Qed.

End lookup_tables.

Lemma sample_iterates_items : @iterates_items Sample.environment.
Proof. intros items. done. Qed.

Lemma sample_iterates_elements : @iterates_elements Sample.environment.
Proof. intros l x. apply elem_of_remove_dups. Qed.

(** The one cycle of the first sample upload. *)
Lemma cycle_metadata_is_consistent_witness :
  ∃ src cm fm_lut,
    @plan_of Sample.environment Sample.upload1 = [src]
    ∧ @source_metadata Sample.environment
        (Sample.experiment_of [Sample.upload1]) [] 0 src = Ok (cm, fm_lut)
    ∧ ImageRef <$> concat (Sample <$> (plates cm ≫= plate_Well)) = [0%nat]
    ∧ ∀ i im, images cm !! i = Some im → cycle_image 0 i im.
Proof.
  eexists _, _, _. split; [vm_compute; reflexivity|].
  split; [vm_compute; reflexivity|].
  edestruct (@cycle_metadata_is_consistent Sample.environment
               (Sample.experiment_of [Sample.upload1]) [] 0 Sample.upload1)
    as (p & Hp & _ & _ & _ & _ & _ & Hrefs & Him & _).
  - apply sample_iterates_items.
  - vm_compute. apply list_elem_of_here.
  - vm_compute. reflexivity.
  - split; [|exact Him]. injection Hp as <-. exact Hrefs.
Defined.

(** The third sample upload has images at the time points 0 and 1: it
    fails in its first cycle, cycle 0. *)
Lemma upload_over_several_time_points_fails_witness :
  ∃ st' e,
    @MetadataConfigurator.process_upload Sample.environment
      (Sample.experiment_of [Sample.upload3]) (0%nat, []) Sample.upload3
      Sample.fresh = (st', Raise e)
    ∧ mapper_writes (MetadataConfigurator.events st') = []
    ∧ (cycle_updates (MetadataConfigurator.events st') = []
       ∨ cycle_updates (MetadataConfigurator.events st') = [0%nat]).
Proof.
  apply (@upload_over_several_time_points_fails Sample.environment
           (Sample.experiment_of [Sample.upload3]) (0%nat, []) Sample.upload3
           Sample.fresh
           {| series := 0; planes := [0]; mapper_files := ["site0.tif"];
              ref_index := 0; ref_id := 0; ref_file := "" |}
           {| series := 1; planes := [0]; mapper_files := ["site1.tif"];
              ref_index := 1; ref_id := 1; ref_file := "" |}
           (Sample.raw_image 0) (Sample.raw_image 1)).
  - apply sample_iterates_items.
  - apply sample_iterates_elements.
  - intros plate [= <-]. vm_compute. apply NoDup_cons.
    split; [|apply NoDup_singleton]. by intros [=]%list_elem_of_singleton.
  - vm_compute. apply list_elem_of_here.
  - vm_compute. apply list_elem_of_further, list_elem_of_here.
  - reflexivity.
  - reflexivity.
  - done.
Defined.

(** An upload whose one well has no sample. *)
Lemma upload_without_samples_is_refused_witness :
  @MetadataConfigurator.process_upload Sample.environment
    (Sample.experiment_of [Sample.upload_of "/exp/uploads/upload_0" []])
    (0%nat, []) (Sample.upload_of "/exp/uploads/upload_0" []) Sample.fresh
  = (Sample.fresh, Raise (ValueError Length_mismatch)).
Proof.
  eapply (@upload_without_samples_is_refused Sample.environment).
  - apply sample_iterates_items.
  - reflexivity.
  - by repeat constructor.
Defined.

(** ** The stitching of a mosaic *)

Lemma n_joins_app d s t1 t2 :
  n_joins d s (t1 ++ t2) = (n_joins d s t1 + n_joins d s t2)%nat.
Proof. unfold n_joins. by rewrite filter_app, length_app. Qed.

Lemma preparations_app sx sy t1 t2 :
  preparations sx sy (t1 ++ t2) = preparations sx sy t1 ++ preparations sx sy t2.
Proof. unfold preparations. by rewrite filter_app. Qed.

Lemma cell_ops_log stats al im d s sx sy :
  n_joins d s (cell_ops stats al im) = 0%nat
  ∧ preparations sx sy (cell_ops stats al im) = cell_ops stats al im.
Proof. by destruct stats, al, d. Qed.

Lemma n_joins_replicate d s n :
  n_joins d s (replicate n (OpJoin d s)) = n.
Proof.
  unfold n_joins. induction n as [|n IH]; [done|].
  cbn [replicate]. rewrite filter_cons_True; [by cbn [length]; rewrite IH|].
  destruct d; cbn [is_join]; by apply bool_decide_eq_true.
Qed.

Lemma n_joins_replicate_across s s' n :
  n_joins Vips.horizontal s (replicate n (OpJoin Vips.vertical s')) = 0%nat
  ∧ n_joins Vips.vertical s (replicate n (OpJoin Vips.horizontal s')) = 0%nat.
Proof.
  unfold n_joins. induction n as [|n [IH1 IH2]]; [done|].
  cbn [replicate]. by rewrite !filter_cons_False.
Qed.

Lemma preparations_replicate sx sy n :
  preparations sx sy (replicate n (OpJoin Vips.horizontal sx)) = []
  ∧ preparations sx sy (replicate n (OpJoin Vips.vertical sy)) = [].
Proof.
  unfold preparations. induction n as [|n [IH1 IH2]]; [done|].
  cbn [replicate]. rewrite !filter_cons_False; [done| |];
    cbn [is_join]; rewrite bool_decide_eq_false; intros [? ?]; done.
Qed.

Lemma cell_pixels_Some stats al im :
  Mosaic.cell_pixels stats al (Some im) = (cell_ops stats al im, Ok (pixels im)).
Proof. by destruct stats, al. Qed.

Lemma extent_app f o l1 l2 : extent f o (l1 ++ l2) = extent f o l1 + extent f o l2.
Proof. induction l1 as [|p l1 IH]; simpl; [done|]. rewrite IH. lia. Qed.

(** A loop that keeps an invariant on the operations logged and on its
    variables. *)
Lemma foldM_log {A St} (f : St → A → comp St) (l : list A)
    (I : nat → list pixel_op → St → Prop) (s0 : St) :
  (∀ i x t s, l !! i = Some x → I i t s →
     ∃ t' s', f s x = (t', Ok s') ∧ I (S i) (t ++ t') s') →
  I 0%nat [] s0 →
  ∃ t s, foldM f l s0 = (t, Ok s) ∧ I (length l) t s.
Proof.
  revert I s0. induction l as [|x l IH]; intros I s0 Hstep H0; simpl.
  - by exists [], s0.
  - destruct (Hstep 0%nat x [] s0 eq_refl H0) as (t1 & s1 & Hf & H1).
    destruct (IH (λ i t, I (S i) (t1 ++ t)) s1) as (t2 & s2 & Hrun & H2).
    + intros i y t s Hy Hi.
      destruct (Hstep (S i) y (t1 ++ t) s Hy Hi) as (t' & s' & ? & ?).
      exists t', s'. by rewrite app_assoc.
    + by rewrite app_nil_r.
    + exists (t1 ++ t2), s2. split; [|done].
      by rewrite (bind_ok _ _ t1 s1 Hf), Hrun.
Qed.

Lemma half_cases (n : nat) :
  (Z.of_nat n `mod` 2 = 0 ∧ ∃ k, n = (2 * k)%nat ∧ (n / 2 = k)%nat
     ∧ ((n + 1) / 2 = k)%nat)
  ∨ (Z.of_nat n `mod` 2 ≠ 0 ∧ ∃ k, n = (2 * k + 1)%nat ∧ (n / 2 = k)%nat
       ∧ ((n + 1) / 2 = k + 1)%nat).
Proof.
  pose proof (Nat.div_mod_eq n 2) as Hn.
  pose proof (Nat.mod_upper_bound n 2 ltac:(lia)) as Hlt.
  assert (n `mod` 2 = 0 ∨ n `mod` 2 = 1)%nat as [H0|H1] by lia.
  - left. split.
    + rewrite Hn, H0. rewrite Nat.add_0_r, Nat2Z.inj_mul.
      by rewrite Z.mul_comm, Z.mod_mul.
    + exists (n / 2)%nat. split; [lia|]. split; [done|].
      rewrite Hn at 1. rewrite H0, Nat.add_0_r.
      rewrite Nat.mul_comm, Nat.div_add_l by lia. simpl. lia.
  - right. split.
    + rewrite Hn, H1. rewrite Nat2Z.inj_add, Nat2Z.inj_mul.
      rewrite Z.add_comm, Z.mul_comm, Z.mod_add by lia. done.
    + exists (n / 2)%nat. split; [lia|]. split; [done|].
      rewrite Hn at 1. rewrite H1.
      replace (2 * (n / 2) + 1 + 1)%nat with ((n / 2 + 1) * 2)%nat by lia.
      by rewrite Nat.div_mul.
Qed.

Lemma join_all (d : Vips.Direction) (shim : Z) (l : list Vips.Image)
    (a : Vips.Image) :
  ∃ p, foldM (λ x y, vips_join x y d shim) l a
       = (replicate (length l) (OpJoin d shim), Ok p)
     ∧ match d with
       | Vips.horizontal =>
           Vips.width p + shim = Vips.width a + shim
                                 + extent Vips.width (- shim) l
           ∧ (Forall (λ q, Vips.height q = Vips.height a) l →
              Vips.height p = Vips.height a)
       | Vips.vertical =>
           Vips.height p + shim = Vips.height a + shim
                                  + extent Vips.height (- shim) l
           ∧ (Forall (λ q, Vips.width q = Vips.width a) l →
              Vips.width p = Vips.width a)
       end.
Proof.
  revert a. induction l as [|b l IH]; intros a.
  - exists a. split; [done|]. destruct d; simpl; split; (lia || done).
  - destruct (IH (Vips.join a b d shim)) as (p & Hrun & Hp).
    exists p. split.
    + cbn [foldM length replicate]. unfold vips_join at 1.
      cbn [Stitch.bind tell ret]. rewrite Hrun. done.
    + destruct d; simpl in *; destruct Hp as [Hw Hh]; (split; [lia|]);
        intros [Hb Hl]%Forall_cons; rewrite Hh; try lia;
        (eapply Forall_impl; [exact Hl|]); simpl; intros; lia.
Qed.

Lemma reduce_join (d : Vips.Direction) (shim : Z) (l : list Vips.Image) :
  l ≠ [] →
  ∃ p, reduceM (λ x y, vips_join x y d shim) l
       = (replicate (length l - 1) (OpJoin d shim), Ok p)
     ∧ ∀ e, Forall (λ q, match d with
                         | Vips.horizontal => Vips.height q
                         | Vips.vertical => Vips.width q
                         end = e) l →
       match d with
       | Vips.horizontal =>
           Vips.width p + shim = extent Vips.width (- shim) l
           ∧ Vips.height p = e
       | Vips.vertical =>
           Vips.height p + shim = extent Vips.height (- shim) l
           ∧ Vips.width p = e
       end.
Proof.
  destruct l as [|a l]; [done|]. intros _.
  destruct (join_all d shim l a) as (p & Hrun & Hp).
  exists p. simpl. rewrite Nat.sub_0_r. split; [done|].
  intros e [Ha Hl]%Forall_cons.
  destruct d; destruct Hp as [H1 H2]; (split; [lia|]); rewrite H2; try done;
    (eapply Forall_impl; [exact Hl|]); simpl; intros; lia.
Qed.

Lemma halves_add (n : nat) : (n / 2 + (n + 1) / 2 = n)%nat.
Proof.
  destruct (half_cases n) as [[_ (k & Hk & -> & ->)]|[_ (k & Hk & -> & ->)]];
    lia.
Qed.

Lemma half_up_pos (n : nat) : (0 < n → 0 < (n + 1) / 2)%nat.
Proof.
  destruct (half_cases n) as [[_ (k & Hk & _ & ->)]|[_ (k & Hk & _ & ->)]];
    lia.
Qed.

Section mosaic_stitching.

Variables (g : grid) (R C : nat) (x y H W : Z).
Variables (stats : option IllumstatsImages) (al : bool).
Variable cell : nat → nat → ChannelImage.
Hypothesis Hwf : wf_grid R C g.
Hypothesis HR : (0 < R)%nat.
Hypothesis HC : (0 < C)%nat.
Hypothesis Hcell : ∀ r c, (r < R)%nat → (c < C)%nat →
  grid_get g r c = Ok (Some (cell r c)).

(** The column loop on row [r]: it joins the planes of the row in pairs, left
    to right. *)
Lemma col_loop_spec (r : nat) (previous_img : option Vips.Image) :
  (r < R)%nat →
  ∃ t prev col_pairs,
    foldM (Mosaic.col_step g (- x) stats al r) (seq 0 C) (previous_img, [])
      = (t, Ok (prev, col_pairs))
    ∧ length col_pairs = ((C + 1) / 2)%nat
    ∧ n_joins Vips.horizontal (- x) t = (C / 2)%nat
    ∧ n_joins Vips.vertical (- y) t = 0%nat
    ∧ preparations (- x) (- y) t = concat (cell_ops stats al <$> (cell r <$> seq 0 C))
    ∧ (uniform R C cell H W →
       Forall (λ p, Vips.height p = H) col_pairs
       ∧ extent Vips.width x col_pairs = Z.of_nat C * (W - x)).
Proof.
  intros Hr.
  destruct (foldM_log (Mosaic.col_step g (- x) stats al r) (seq 0 C)
    (λ n t st,
       (Z.of_nat n `mod` 2 ≠ 0 →
        ∃ p, st.1 = Some p
          ∧ (uniform R C cell H W → Vips.height p = H ∧ Vips.width p = W))
       ∧ length st.2 = (if decide (n = C) then (n + 1) / 2 else n / 2)%nat
       ∧ n_joins Vips.horizontal (- x) t = (n / 2)%nat
       ∧ n_joins Vips.vertical (- y) t = 0%nat
       ∧ preparations (- x) (- y) t = concat (cell_ops stats al <$> (cell r <$> seq 0 n))
       ∧ (uniform R C cell H W →
          Forall (λ p, Vips.height p = H) st.2
          ∧ extent Vips.width x st.2
            = Z.of_nat (if decide (n = C) then n else 2 * (n / 2))%nat
              * (W - x)))
    (previous_img, [])) as (t & [prev col_pairs] & Hrun & Hinv).
  - intros i c t [prev pairs] [Hc Hlt]%lookup_seq
      (Hprev & Hlen & Hjh & Hjv & Hprep & Hdims).
    simpl in Hc. subst c. cbn [fst snd] in *.
    unfold Mosaic.col_step. rewrite (Hcell r i Hr Hlt), bind_lift_ok.
    rewrite (bind_ok _ _ _ _ (cell_pixels_Some stats al (cell r i))).
    rewrite (wf_grid_shape R C g HR Hwf). cbn [fst snd].
    assert (uniform R C cell H W →
            Vips.height (pixels (cell r i)) = H
            ∧ Vips.width (pixels (cell r i)) = W) as Hd.
    { intros Hu. pose proof (Hu r i Hr Hlt) as Hd. unfold dimensions in Hd.
      by injection Hd. }
    pose proof (proj1 (cell_ops_log stats al (cell r i) Vips.horizontal (- x)
                        (- x) (- y))) as Hch.
    destruct (cell_ops_log stats al (cell r i) Vips.vertical (- y)
                (- x) (- y)) as (Hcv & Hcp).
    assert (preparations (- x) (- y) (t ++ cell_ops stats al (cell r i))
            = concat (cell_ops stats al <$> (cell r <$> seq 0 (S i)))) as Hprep'.
    { rewrite preparations_app, Hprep, Hcp, seq_S, !fmap_app, concat_app.
      simpl. by rewrite app_nil_r. }
    rewrite decide_False in Hlen by lia.
    assert (uniform R C cell H W →
            Forall (λ p, Vips.height p = H) pairs
            ∧ extent Vips.width x pairs
              = Z.of_nat (2 * (i / 2))%nat * (W - x)) as Hdims'.
    { intros Hu. destruct (Hdims Hu) as [? Hext].
      by rewrite decide_False in Hext by lia. }
    clear Hdims.
    destruct (half_cases i) as [[Hmod (k & Hk & Hk2 & Hk3)]
                               |[Hmod (k & Hk & Hk2 & Hk3)]];
      destruct (half_cases (S i)) as [[Hmod' (k' & Hk' & Hk2' & Hk3')]
                                     |[Hmod' (k' & Hk' & Hk2' & Hk3')]];
      try lia.
    + assert (k' = k) as -> by lia.
      rewrite decide_True by done. case_decide as Hlast.
      * eexists _, _. split; [done|]. cbn [ops outcome fst snd ret].
        rewrite app_nil_r. destruct (decide (S i = C)) as [HSC|HSC]; [|lia].
        split; [by eauto|].
        split. { rewrite length_app, Hlen, Hk2, Hk3'. cbn [length]. lia. }
        rewrite !n_joins_app, Hjh, Hjv, Hch, Hcv, Hk2, Hk2'.
        split; [lia|]. split; [done|]. split; [done|].
        intros Hu. destruct (Hdims' Hu) as [Hh Hext].
        destruct (Hd Hu) as [Hdh Hdw]. split.
        { apply Forall_app. split; [done|]. by constructor. }
        rewrite extent_app, Hext, Hk2. cbn [extent foldr]. rewrite Hdw, Hk.
        rewrite ?Nat2Z.inj_succ, ?Nat2Z.inj_add, ?Nat2Z.inj_mul.
        unfold Z.succ. change (Z.of_nat 2) with 2. ring.
      * eexists _, _. split; [done|]. cbn [ops outcome fst snd ret].
        rewrite app_nil_r. destruct (decide (S i = C)) as [HSC|HSC]; [lia|].
        split; [by eauto|].
        split. { rewrite Hlen, Hk2, Hk2'. lia. }
        rewrite !n_joins_app, Hjh, Hjv, Hch, Hcv, Hk2, Hk2'.
        split; [lia|]. split; [done|]. split; [done|].
        intros Hu. destruct (Hdims' Hu) as [Hh Hext]. split; [done|].
        by rewrite Hext, Hk2.
    + assert (k' = (k + 1)%nat) as -> by lia.
      rewrite decide_False by done.
      destruct (Hprev Hmod) as (p & -> & Hp).
      eexists _, _. split; [done|].
      cbn [ops outcome fst snd ret vips_join tell Stitch.bind app].
      split; [done|].
      split.
      { rewrite length_app, Hlen, Hk2. cbn [length].
        destruct (decide (S i = C)); by rewrite ?Hk2', ?Hk3'. }
      rewrite app_assoc, !n_joins_app, preparations_app, Hjh, Hjv, Hch, Hcv.
      change [OpJoin Vips.horizontal (- x)]
        with (replicate 1 (OpJoin Vips.horizontal (- x))).
      rewrite n_joins_replicate, (proj2 (n_joins_replicate_across _ _ _)).
      rewrite (proj1 (preparations_replicate _ _ _)), app_nil_r.
      rewrite Hprep', Hk2, Hk2'. split; [lia|]. split; [lia|]. split; [done|].
      intros Hu. destruct (Hdims' Hu) as [Hh Hext].
      destruct (Hd Hu) as [Hdh Hdw]. destruct (Hp Hu) as [Hph Hpw]. split.
      { apply Forall_app. split; [done|]. constructor; [|done].
        cbn [Vips.join Vips.height]. lia. }
      rewrite extent_app, Hext, Hk2.
      cbn [extent foldr Vips.join Vips.width replicate].
      rewrite Hpw, Hdw.
      destruct (decide (S i = C)); rewrite ?Hk2', ?Hk;
        rewrite ?Nat2Z.inj_succ, ?Nat2Z.inj_add, ?Nat2Z.inj_mul, ?Nat2Z.inj_add;
        unfold Z.succ; change (Z.of_nat 2) with 2; change (Z.of_nat 1) with 1;
        ring.
  - cbn [fst snd]. split; [done|].
    rewrite !decide_False by lia. change (0 / 2)%nat with 0%nat.
    by repeat split.
  - rewrite length_seq in Hinv. cbn [fst snd] in Hinv.
    rewrite !decide_True in Hinv by done.
    destruct Hinv as (_ & ? & ? & ? & ? & ?). by exists t, prev, col_pairs.
Qed.

(** A whole row: the column loop and the [reduce] that follows it. *)
Lemma row_plane_spec (r : nat) (previous_img : option Vips.Image) :
  (r < R)%nat →
  ∃ t1 prev col_pairs t2 row,
    foldM (Mosaic.col_step g (- x) stats al r) (seq 0 C) (previous_img, [])
      = (t1, Ok (prev, col_pairs))
    ∧ reduceM (λ a b, vips_join a b Vips.horizontal (- x)) col_pairs
      = (t2, Ok row)
    ∧ n_joins Vips.horizontal (- x) (t1 ++ t2) = (C - 1)%nat
    ∧ n_joins Vips.vertical (- y) (t1 ++ t2) = 0%nat
    ∧ preparations (- x) (- y) (t1 ++ t2)
      = concat (cell_ops stats al <$> (cell r <$> seq 0 C))
    ∧ (uniform R C cell H W →
       Vips.height row = H ∧ Vips.width row = Z.of_nat C * (W - x) + x).
Proof.
  intros Hr.
  destruct (col_loop_spec r previous_img Hr)
    as (t1 & prev & col_pairs & Hrun & Hlen & Hjh & Hjv & Hprep & Hdims).
  destruct (reduce_join Vips.horizontal (- x) col_pairs)
    as (row & Hred & Hrow).
  { intros ->. cbn [length] in Hlen. pose proof (half_up_pos C HC). lia. }
  eexists t1, prev, col_pairs, _, row. split; [done|]. split; [done|].
  rewrite !n_joins_app, preparations_app, n_joins_replicate.
  rewrite (proj2 (n_joins_replicate_across _ _ _)).
  rewrite (proj1 (preparations_replicate _ _ _)), app_nil_r, Hjh, Hjv, Hlen.
  split. { pose proof (halves_add C). pose proof (half_up_pos C HC). lia. }
  split; [done|]. split; [done|].
  intros Hu. destruct (Hdims Hu) as [Hh Hext].
  destruct (Hrow H Hh) as [Hw ?]. split; [done|].
  rewrite Z.opp_involutive, Hext in Hw. lia.
Qed.

(** The row loop and the [reduce] that follows it. *)
Lemma row_loop_spec :
  ∃ t prev_img prev_row row_pairs,
    foldM (Mosaic.row_step g (- x) (- y) stats al) (seq 0 R) (None, None, [])
      = (t, Ok (prev_img, prev_row, row_pairs))
    ∧ length row_pairs = ((R + 1) / 2)%nat
    ∧ n_joins Vips.horizontal (- x) t = (R * (C - 1))%nat
    ∧ n_joins Vips.vertical (- y) t = (R / 2)%nat
    ∧ preparations (- x) (- y) t
      = concat (cell_ops stats al <$> (r ← seq 0 R; cell r <$> seq 0 C))
    ∧ (uniform R C cell H W →
       Forall (λ p, Vips.width p = Z.of_nat C * (W - x) + x) row_pairs
       ∧ extent Vips.height y row_pairs = Z.of_nat R * (H - y)).
Proof.
  destruct (foldM_log (Mosaic.row_step g (- x) (- y) stats al) (seq 0 R)
    (λ n t st,
       (Z.of_nat n `mod` 2 ≠ 0 →
        ∃ p, st.1.2 = Some p
          ∧ (uniform R C cell H W →
             Vips.height p = H ∧ Vips.width p = Z.of_nat C * (W - x) + x))
       ∧ length st.2 = (if decide (n = R) then (n + 1) / 2 else n / 2)%nat
       ∧ n_joins Vips.horizontal (- x) t = (n * (C - 1))%nat
       ∧ n_joins Vips.vertical (- y) t = (n / 2)%nat
       ∧ preparations (- x) (- y) t
         = concat (cell_ops stats al <$> (r ← seq 0 n; cell r <$> seq 0 C))
       ∧ (uniform R C cell H W →
          Forall (λ p, Vips.width p = Z.of_nat C * (W - x) + x) st.2
          ∧ extent Vips.height y st.2
            = Z.of_nat (if decide (n = R) then n else 2 * (n / 2))%nat
              * (H - y)))
    (None, None, [])) as (t & [[prev_img prev_row] row_pairs] & Hrun & Hinv).
  - intros i r t [[prev_img prev_row] pairs] [Hc Hlt]%lookup_seq
      (Hprev & Hlen & Hjh & Hjv & Hprep & Hdims).
    simpl in Hc. subst r. cbn [fst snd] in *.
    unfold Mosaic.row_step. rewrite (wf_grid_shape R C g HR Hwf). cbn [fst snd].
    destruct (row_plane_spec i prev_img Hlt)
      as (t1 & prev & col_pairs & t2 & row & Hcols & Hred & Hrh & Hrv & Hrp
          & Hrow).
    rewrite (bind_ok _ _ _ _ Hcols). cbv beta iota.
    rewrite (bind_ok _ _ _ _ Hred).
    assert (preparations (- x) (- y) (t ++ t1 ++ t2)
            = concat (cell_ops stats al
                        <$> (r ← seq 0 (S i); cell r <$> seq 0 C))) as Hprep'.
    { rewrite preparations_app, Hprep, Hrp, seq_S, bind_app, fmap_app.
      rewrite concat_app. simpl. by rewrite app_nil_r. }
    assert (n_joins Vips.horizontal (- x) (t ++ t1 ++ t2) = (S i * (C - 1))%nat)
      as Hjh'.
    { rewrite n_joins_app, Hjh, Hrh. lia. }
    assert (n_joins Vips.vertical (- y) (t ++ t1 ++ t2) = (i / 2)%nat) as Hjv'.
    { rewrite n_joins_app, Hjv, Hrv. lia. }
    rewrite decide_False in Hlen by lia.
    assert (uniform R C cell H W →
            Forall (λ p, Vips.width p = Z.of_nat C * (W - x) + x) pairs
            ∧ extent Vips.height y pairs
              = Z.of_nat (2 * (i / 2))%nat * (H - y)) as Hdims'.
    { intros Hu. destruct (Hdims Hu) as [? Hext].
      by rewrite decide_False in Hext by lia. }
    clear Hdims.
    destruct (half_cases i) as [[Hmod (k & Hk & Hk2 & Hk3)]
                               |[Hmod (k & Hk & Hk2 & Hk3)]];
      destruct (half_cases (S i)) as [[Hmod' (k' & Hk' & Hk2' & Hk3')]
                                     |[Hmod' (k' & Hk' & Hk2' & Hk3')]];
      try lia.
    + assert (k' = k) as -> by lia.
      rewrite decide_True by done. case_decide as Hlast.
      * eexists _, _. split; [done|]. cbn [ops outcome fst snd ret].
        rewrite !app_nil_r. destruct (decide (S i = R)) as [HSR|HSR]; [|lia].
        split; [by eauto|].
        split. { rewrite length_app, Hlen, Hk2, Hk3'. cbn [length]. lia. }
        split; [done|]. split; [by rewrite Hjv', Hk2, Hk2'|]. split; [done|].
        intros Hu. destruct (Hdims' Hu) as [Hw Hext].
        destruct (Hrow Hu) as [Hrh' Hrw]. split.
        { apply Forall_app. split; [done|]. by constructor. }
        rewrite extent_app, Hext, Hk2. cbn [extent foldr]. rewrite Hrh', Hk.
        rewrite ?Nat2Z.inj_succ, ?Nat2Z.inj_add, ?Nat2Z.inj_mul.
        unfold Z.succ. change (Z.of_nat 2) with 2. ring.
      * eexists _, _. split; [done|]. cbn [ops outcome fst snd ret].
        rewrite !app_nil_r. destruct (decide (S i = R)) as [HSR|HSR]; [lia|].
        split; [by eauto|].
        split. { rewrite Hlen, Hk2, Hk2'. lia. }
        split; [done|]. split; [by rewrite Hjv', Hk2, Hk2'|]. split; [done|].
        intros Hu. destruct (Hdims' Hu) as [Hw Hext]. split; [done|].
        by rewrite Hext, Hk2, Hk2'.
    + assert (k' = (k + 1)%nat) as -> by lia.
      rewrite decide_False by done.
      destruct (Hprev Hmod) as (p & -> & Hp).
      eexists _, _. split; [done|].
      cbn [ops outcome fst snd ret vips_join tell Stitch.bind app].
      split; [done|].
      split.
      { rewrite length_app, Hlen, Hk2. cbn [length].
        destruct (decide (S i = R)); by rewrite ?Hk2', ?Hk3'. }
      change [OpJoin Vips.vertical (- y)]
        with (replicate 1 (OpJoin Vips.vertical (- y))).
      replace (t ++ t1 ++ t2 ++ replicate 1 (OpJoin Vips.vertical (- y)))
        with ((t ++ t1 ++ t2) ++ replicate 1 (OpJoin Vips.vertical (- y)))
        by (by rewrite <- !app_assoc).
      rewrite !(n_joins_app _ _ (t ++ t1 ++ t2)).
      rewrite (preparations_app _ _ (t ++ t1 ++ t2)), Hjh', Hjv', Hprep'.
      rewrite n_joins_replicate, (proj1 (n_joins_replicate_across _ _ _)).
      rewrite (proj2 (preparations_replicate _ _ _)), app_nil_r.
      rewrite Hk2, Hk2'. split; [lia|]. split; [lia|]. split; [done|].
      intros Hu. destruct (Hdims' Hu) as [Hw Hext].
      destruct (Hrow Hu) as [Hrh' Hrw]. destruct (Hp Hu) as [Hph Hpw]. split.
      { apply Forall_app. split; [done|]. constructor; [|done].
        cbn [Vips.join Vips.width]. lia. }
      rewrite extent_app, Hext, Hk2.
      cbn [extent foldr Vips.join Vips.height replicate].
      rewrite Hph, Hrh'.
      destruct (decide (S i = R)); rewrite ?Hk2', ?Hk;
        rewrite ?Nat2Z.inj_succ, ?Nat2Z.inj_add, ?Nat2Z.inj_mul, ?Nat2Z.inj_add;
        unfold Z.succ; change (Z.of_nat 2) with 2; change (Z.of_nat 1) with 1;
        ring.
  - cbn [fst snd]. split; [done|].
    rewrite !decide_False by lia. change (0 / 2)%nat with 0%nat.
    by repeat split.
  - rewrite length_seq in Hinv. cbn [fst snd] in Hinv.
    rewrite !decide_True in Hinv by done.
    destruct Hinv as (_ & ? & ? & ? & ? & ?).
    by exists t, prev_img, prev_row, row_pairs.
Qed.

(** The stitching of a full grid. *)
Lemma stitching_spec :
  ∃ t p,
    (let* '(_, _, row_pairs) :=
       foldM (Mosaic.row_step g (- x) (- y) stats al) (seq 0 (shape g).1)
             (None, None, []) in
     reduceM (λ a b, vips_join a b Vips.vertical (- y)) row_pairs)
      = (t, Ok p)
    ∧ n_joins Vips.horizontal (- x) t = (R * (C - 1))%nat
    ∧ n_joins Vips.vertical (- y) t = (R - 1)%nat
    ∧ preparations (- x) (- y) t
      = concat (cell_ops stats al <$> (r ← seq 0 R; cell r <$> seq 0 C))
    ∧ (uniform R C cell H W →
       Vips.width p = Z.of_nat C * (W - x) + x
       ∧ Vips.height p = Z.of_nat R * (H - y) + y).
Proof.
  destruct row_loop_spec
    as (t1 & prev_img & prev_row & row_pairs & Hrun & Hlen & Hjh & Hjv & Hprep
        & Hdims).
  destruct (reduce_join Vips.vertical (- y) row_pairs) as (p & Hred & Hp).
  { intros ->. cbn [length] in Hlen. pose proof (half_up_pos R HR). lia. }
  rewrite (wf_grid_shape R C g HR Hwf). cbn [fst snd].
  rewrite (bind_ok _ _ _ _ Hrun). cbv beta iota. rewrite Hred.
  cbn [ops outcome fst snd]. eexists _, p. split; [done|].
  rewrite !n_joins_app, preparations_app, n_joins_replicate.
  rewrite (proj1 (n_joins_replicate_across _ _ _)).
  rewrite (proj2 (preparations_replicate _ _ _)), app_nil_r, Hjh, Hjv, Hlen.
  split; [lia|].
  split. { pose proof (halves_add R). pose proof (half_up_pos R HR). lia. }
  split; [done|].
  intros Hu. destruct (Hdims Hu) as [Hw Hext].
  destruct (Hp _ Hw) as [Hh ?]. split; [done|].
  rewrite Z.opp_involutive, Hext in Hh. lia.
Qed.

End mosaic_stitching.

Lemma omap_Some_fmap {A B} (f : A → option B) (g : A → B) (l : list A) :
  Forall (λ a, f a = Some (g a)) l → omap f l = g <$> l.
Proof.
  induction 1 as [|a l Ha _ IH]; [done|]. cbn. by rewrite Ha, IH.
Qed.

(** [Mosaic.create] on a dense set of images: the joins it makes, the
    preparations, and the size of the mosaic when the images have one
    size. *)
Lemma mosaic_create_spec (images : list ChannelImage) (dx dy H W : Z)
    (stats : option IllumstatsImages) (al : bool) :
  0 ≤ dx → 0 ≤ dy → dense images →
  ∃ t p,
    Mosaic.create images (PyInt dx) (PyInt dy) stats al = (t, Ok p)
    ∧ n_joins Vips.horizontal (- dx) t
      = ((max_row images + 1) * max_column images)%nat
    ∧ n_joins Vips.vertical (- dy) t = max_row images
    ∧ preparations (- dx) (- dy) t
      = concat (cell_ops stats al <$> row_major images)
    ∧ ((∀ im, im ∈ images → dimensions im = (H, W)) →
       Vips.width p = Z.of_nat (max_column images + 1) * (W - dx) + dx
       ∧ Vips.height p = Z.of_nat (max_row images + 1) * (H - dy) + dy).
Proof.
  intros Hdx Hdy Hdense.
  pose proof (dense_nonempty images Hdense) as Hne.
  destruct (mosaic_grid_spec images Hne) as (g & Hg & Hwf & Hget).
  assert (∃ im0, im0 ∈ images) as [im0 _].
  { destruct images as [|im0 ?]; [done|]. exists im0. by left. }
  set (cell := λ r c, default im0 (occupant images r c)).
  assert (∀ r c, (r < max_row images + 1)%nat →
                 (c < max_column images + 1)%nat →
                 occupant images r c = Some (cell r c)) as Hocc.
  { intros r c Hr Hc. unfold cell.
    destruct (occupant images r c) as [im|] eqn:Ho; [done|].
    destruct (Hdense r c) as (im & Him & Hpos); [lia|lia|].
    by destruct (occupant_None images r c Ho im Him). }
  destruct (stitching_spec g (max_row images + 1) (max_column images + 1)
              dx dy H W stats al cell Hwf)
    as (t & p & Hrun & Hjh & Hjv & Hprep & Hdims); [lia|lia| |].
  { intros r c Hr Hc. rewrite Hget by lia. by rewrite Hocc. }
  exists t, p. split.
  { unfold Mosaic.create.
    rewrite check_displacements_PyInt, bind_lift_ok by done.
    by rewrite Hg, bind_lift_ok. }
  split. { rewrite Hjh. f_equal. lia. }
  split. { rewrite Hjv. lia. }
  split.
  { rewrite Hprep. do 2 f_equal. unfold row_major.
    apply Forall_bind_ext, Forall_forall. intros r [_ Hr]%elem_of_seq.
    symmetry. apply omap_Some_fmap, Forall_forall.
    intros c [_ Hc]%elem_of_seq. apply Hocc; lia. }
  intros Hsize. apply Hdims. intros r c Hr Hc.
  apply Hsize. by apply (occupant_Some images r c), Hocc.
Qed.

Lemma sample_grid_dense : dense [Sample.a; Sample.b; Sample.c; Sample.d].
Proof.
  intros r c Hr Hc. change (r ≤ 1)%nat in Hr. change (c ≤ 1)%nat in Hc.
  destruct r as [|[|r]]; [| |lia]; (destruct c as [|[|c]]; [| |lia]).
  - exists Sample.a. split; [|done]. repeat constructor.
  - exists Sample.b. split; [|done]. repeat constructor.
  - exists Sample.c. split; [|done]. repeat constructor.
  - exists Sample.d. split; [|done]. repeat constructor.
Qed.

(** X13.  On images that occupy every position up to the largest row and
    column, [Mosaic.create] with displacements [dx] and [dy] joins
    horizontally with shim [-dx] once for every image but the first of each
    row, and vertically with shim [-dy] once for every row but the first.
    Besides these joins it only corrects and aligns, as [stats] and [align]
    ask, the image of each cell once, row by row and left to right. *)
Theorem mosaic_joins_every_image_once (images : list ChannelImage)
    (dx dy : Z) (stats : option IllumstatsImages) (al : bool) :
  0 ≤ dx → 0 ≤ dy → dense images →
  ∃ t p,
    Mosaic.create images (PyInt dx) (PyInt dy) stats al = (t, Ok p)
    ∧ n_joins Vips.horizontal (- dx) t
      = ((max_row images + 1) * max_column images)%nat
    ∧ n_joins Vips.vertical (- dy) t = max_row images
    ∧ preparations (- dx) (- dy) t
      = concat (cell_ops stats al <$> row_major images).
Proof.
  intros Hdx Hdy Hdense.
  destruct (mosaic_create_spec images dx dy 0 0 stats al Hdx Hdy Hdense)
    as (t & p & ? & ? & ? & ? & _).
  by exists t, p.
Qed.

Lemma mosaic_joins_every_image_once_witness :
  ∃ t p,
    Mosaic.create [Sample.a; Sample.b; Sample.c; Sample.d]
      (PyInt 3) (PyInt 2) None true = (t, Ok p)
    ∧ n_joins Vips.horizontal (-3) t = 2%nat
    ∧ n_joins Vips.vertical (-2) t = 1%nat
    ∧ preparations (-3) (-2) t
      = [OpAlign "a"; OpAlign "b"; OpAlign "c"; OpAlign "d"].
Proof.
  exact (mosaic_joins_every_image_once
           [Sample.a; Sample.b; Sample.c; Sample.d] 3 2 None true
           ltac:(lia) ltac:(lia) sample_grid_dense).
Defined.

(** X14.  On images of height [H] and width [W] that occupy every position
    of a grid of [R] rows and [C] columns, [Mosaic.create] returns a plane of
    width [C W - (C - 1) dx] and height [R H - (R - 1) dy]: the joins in
    pairs, the joins of the pairs and the plane left over by an odd number
    of columns or rows add up to it, a join being [Vips.join]. *)
Theorem mosaic_size (images : list ChannelImage) (dx dy H W : Z)
    (stats : option IllumstatsImages) (al : bool) :
  0 ≤ dx → 0 ≤ dy → dense images →
  (∀ im, im ∈ images → dimensions im = (H, W)) →
  let R := Z.of_nat (max_row images + 1) in
  let C := Z.of_nat (max_column images + 1) in
  ∃ t p,
    Mosaic.create images (PyInt dx) (PyInt dy) stats al = (t, Ok p)
    ∧ Vips.width p = C * W - (C - 1) * dx
    ∧ Vips.height p = R * H - (R - 1) * dy.
Proof.
  intros Hdx Hdy Hdense Hsize R C.
  destruct (mosaic_create_spec images dx dy H W stats al Hdx Hdy Hdense)
    as (t & p & Hrun & _ & _ & _ & Hdims).
  destruct (Hdims Hsize) as [Hw Hh].
  exists t, p. split; [done|]. subst R C. rewrite Hw, Hh. split; ring.
Qed.

Lemma mosaic_size_witness :
  ∃ t p,
    Mosaic.create [Sample.a; Sample.b; Sample.c; Sample.d]
      (PyInt 3) (PyInt 2) None false = (t, Ok p)
    ∧ Vips.width p = 37 ∧ Vips.height p = 18.
Proof.
  apply (mosaic_size [Sample.a; Sample.b; Sample.c; Sample.d] 3 2 10 20
           None false ltac:(lia) ltac:(lia) sample_grid_dense).
  intros im Him. repeat (apply elem_of_cons in Him as [->|Him]; [done|]).
  by apply elem_of_nil in Him.
Defined.
